(** * create-introspect-mcp: the API database and the entity partitioner

    A shallow embedding of [scripts/create_database.py] and
    [scripts/divide_entities.py], with the properties of the design
    document stated and proved over it; and, around them, of what
    produces and reads the database: [to_dict] and [count_stats] of
    [scripts/introspect.py], and [verify_coverage] of
    [scripts/verify_coverage.py].

    Conventions.
    - Python integers are [Z]; [//] and [%] are [Z.div] and [Z.modulo],
      which round towards minus infinity and give the remainder the sign
      of the divisor, exactly as Python does.
    - A Python call either returns or raises: [py_result].
    - The [random] module of the standard library is an interface
      ([PyRandom]): the repository only calls [random.seed] and
      [random.shuffle]. *)

From Stdlib Require Import ZArith Lia Ascii Sorted.
From stdpp Require Import base numbers option list strings pretty gmap.

(** ** Python results *)

Inductive py_exception : Type :=
  | AssertionError
  | ZeroDivisionError
  | IntegrityError      (* sqlite3: UNIQUE, PRIMARY KEY or FOREIGN KEY failed *)
  | OperationalError    (* sqlite3: no such table, no such column *)
  | DatabaseError       (* sqlite3: file is not a database *)
  | FileNotFoundError
  | FileExistsError     (* mkdir: the path holds a regular file *)
  | NotADirectoryError  (* mkdir: a regular file is on the way to the path *)
  | ProgrammingError.   (* sqlite3: operation on a closed connection *)

Inductive py_result (A : Type) : Type :=
  | Returns (a : A)
  | Raises (e : py_exception).
Arguments Returns {A} a.
Arguments Raises {A} e.

(** ** Python sequences *)

Section py_list.
Context {A : Type}.

(** [range(n)]: 0, 1, ..., n-1; empty when [n <= 0]. *)
Definition py_range (n : Z) : list Z :=
  Z.of_nat <$> seq 0 (Z.to_nat n).

(** How a slice bound is read against a sequence of length [len]:
    a negative bound counts from the end, and every bound is clamped
    to [0 .. len]. *)
Definition py_slice_index (len i : Z) : Z :=
  if (i <? 0)%Z then Z.max (i + len) 0 else Z.min i len.

(** [l[a:b]] *)
Definition py_slice (l : list A) (a b : Z) : list A :=
  let len := Z.of_nat (length l) in
  let a' := py_slice_index len a in
  let b' := py_slice_index len b in
  take (Z.to_nat (b' - a')) (drop (Z.to_nat a') l).

(** [x[i], x[j] = x[j], x[i]]: both reads happen before the writes.
    Python raises [IndexError] out of range; the shuffle below never
    gets there, and the model leaves the list alone in that case. *)
Definition py_swap (x : list A) (i j : nat) : list A :=
  match x !! i, x !! j with
  | Some xi, Some xj => <[j := xi]> (<[i := xj]> x)
  | _, _ => x
  end.
End py_list.

(** ** The [random] module

    [random.seed(a)] installs a state that depends on [a] only;
    [Random._randbelow(n)] draws an integer in [0, n) and advances the
    state.  Nothing else is assumed of the generator. *)

Class PyRandom := {
  rng_state : Type;
  rng_seed : Z -> rng_state;
  randbelow : nat -> rng_state -> nat * rng_state;
  randbelow_lt : forall n g, 0 < n -> (randbelow n g).1 < n
}.


(** * The database: [scripts/create_database.py] *)

Module create_database.

Local Open Scope Z_scope.

(** ** The introspection document (the JSON that [introspect.py] writes)

    A key read with [d["k"]] is a plain field; a key read with
    [d.get("k")] is an [option] ([None]: absent or [null]). *)

Record ParamData := {
  param_name : string;
  param_kind : string;
  param_annotation : option string;
  param_default : option string
}.

Record FuncData := {
  func_name : string;
  func_qualified_name : string;
  func_signature_string : string;
  func_docstring : option string;
  func_return_annotation : option string;
  func_is_async : option bool;
  func_is_classmethod : option bool;
  func_is_staticmethod : option bool;
  func_parameters : list ParamData       (* .get("parameters", []) *)
}.

Record ClassData := {
  class_name : string;
  class_qualified_name : string;
  class_docstring : option string;
  class_bases : list string;             (* .get("bases", []) *)
  class_methods : list FuncData          (* .get("methods", []) *)
}.

#[local] Unset Elimination Schemes.
Inductive ModuleData : Type :=
  mkModule (name : string) (docstring : option string)
           (classes : list ClassData)      (* .get("classes", []) *)
           (functions : list FuncData)  (* .get("functions", []) *)
           (submodules : list ModuleData).  (* .get("submodules", []) *)
#[local] Set Elimination Schemes.

Definition module_name (m : ModuleData) : string :=
  let 'mkModule n _ _ _ _ := m in n.
Definition module_docstring (m : ModuleData) : option string :=
  let 'mkModule _ d _ _ _ := m in d.
Definition module_classes (m : ModuleData) : list ClassData :=
  let 'mkModule _ _ c _ _ := m in c.
Definition module_functions (m : ModuleData) : list FuncData :=
  let 'mkModule _ _ _ f _ := m in f.
Definition module_submodules (m : ModuleData) : list ModuleData :=
  let 'mkModule _ _ _ _ s := m in s.

(** [1 if d.get(k) else 0] *)
Definition truthy_flag (o : option bool) : Z :=
  match o with Some true => 1 | _ => 0 end.

(** ** Rows, one record per table of [create_schema] *)

Record modules_row := {           (* CREATE TABLE modules, lines 52-58 *)
  mod_id : Z;
  mod_name : string;              (* NOT NULL UNIQUE *)
  mod_docstring : option string
}.

Record classes_row := {
  cls_id : Z;
  cls_name : string;
  cls_full_qualified_name : string;   (* NOT NULL UNIQUE *)
  cls_docstring : option string;
  cls_module_id : Z                   (* REFERENCES modules(id) *)
}.

Record class_inheritance_row := {     (* PRIMARY KEY (class_id, base_class_name) *)
  inh_class_id : Z;                   (* REFERENCES classes(id) *)
  inh_base_class_name : string
}.

Record functions_row := {
  fn_id : Z;
  fn_name : string;
  fn_full_qualified_name : string;    (* NOT NULL UNIQUE *)
  fn_signature_string : string;
  fn_docstring : option string;
  fn_return_annotation : option string;
  fn_is_async : Z;
  fn_is_classmethod : Z;
  fn_is_staticmethod : Z;
  fn_class_id : option Z;             (* REFERENCES classes(id) *)
  fn_module_id : Z                    (* REFERENCES modules(id) *)
}.

Record parameters_row := {
  par_id : Z;
  par_function_id : Z;                (* REFERENCES functions(id) *)
  par_name : string;
  par_kind : string;
  par_annotation : option string;
  par_default_value : option string;
  par_position : Z
}.

Record examples_row := {
  ex_id : Z;
  ex_code : string;
  ex_description : option string;
  ex_function_id : option Z;          (* REFERENCES functions(id) *)
  ex_class_id : option Z              (* REFERENCES classes(id) *)
}.

(** An entry of an FTS5 index: the rowid and the text that was indexed
    for each column. *)
Record classes_fts_row := {
  cfts_rowid : Z;
  cfts_name : string;
  cfts_full_qualified_name : string;
  cfts_docstring : option string
}.

Record functions_fts_row := {
  ffts_rowid : Z;
  ffts_name : string;
  ffts_full_qualified_name : string;
  ffts_docstring : option string;
  ffts_signature_string : string
}.

#[global] Instance modules_row_eq_dec : EqDecision modules_row.
Proof. solve_decision. Defined.
#[global] Instance classes_row_eq_dec : EqDecision classes_row.
Proof. solve_decision. Defined.
#[global] Instance class_inheritance_row_eq_dec : EqDecision class_inheritance_row.
Proof. solve_decision. Defined.
#[global] Instance functions_row_eq_dec : EqDecision functions_row.
Proof. solve_decision. Defined.
#[global] Instance classes_fts_row_eq_dec : EqDecision classes_fts_row.
Proof. solve_decision. Defined.
#[global] Instance functions_fts_row_eq_dec : EqDecision functions_fts_row.
Proof. solve_decision. Defined.

(** ** A database

    [has_schema] tells whether [create_schema] has run on it; the row
    lists are in insertion order; [sqlite_sequence] is the table SQLite
    keeps for AUTOINCREMENT (largest rowid ever handed out, by table). *)

Record database := {
  has_schema : bool;
  modules : list modules_row;
  classes : list classes_row;
  class_inheritance : list class_inheritance_row;
  functions : list functions_row;
  parameters : list parameters_row;
  examples : list examples_row;
  classes_fts : list classes_fts_row;
  functions_fts : list functions_fts_row;
  sqlite_sequence : gmap string Z
}.

(** The file a first [sqlite3.connect] creates. *)
Definition empty_database : database :=
  {| has_schema := false; modules := []; classes := [];
     class_inheritance := []; functions := []; parameters := [];
     examples := []; classes_fts := []; functions_fts := [];
     sqlite_sequence := ∅ |}.

Definition set_has_schema (b : bool) (db : database) : database :=
  {| has_schema := b; modules := modules db; classes := classes db;
     class_inheritance := class_inheritance db; functions := functions db;
     parameters := parameters db; examples := examples db;
     classes_fts := classes_fts db; functions_fts := functions_fts db;
     sqlite_sequence := sqlite_sequence db |}.
Definition set_modules (v : list modules_row) (db : database) : database :=
  {| has_schema := has_schema db; modules := v; classes := classes db;
     class_inheritance := class_inheritance db; functions := functions db;
     parameters := parameters db; examples := examples db;
     classes_fts := classes_fts db; functions_fts := functions_fts db;
     sqlite_sequence := sqlite_sequence db |}.
Definition set_classes (v : list classes_row) (db : database) : database :=
  {| has_schema := has_schema db; modules := modules db; classes := v;
     class_inheritance := class_inheritance db; functions := functions db;
     parameters := parameters db; examples := examples db;
     classes_fts := classes_fts db; functions_fts := functions_fts db;
     sqlite_sequence := sqlite_sequence db |}.
Definition set_class_inheritance (v : list class_inheritance_row)
    (db : database) : database :=
  {| has_schema := has_schema db; modules := modules db;
     classes := classes db; class_inheritance := v;
     functions := functions db; parameters := parameters db;
     examples := examples db; classes_fts := classes_fts db;
     functions_fts := functions_fts db;
     sqlite_sequence := sqlite_sequence db |}.
Definition set_functions (v : list functions_row) (db : database) : database :=
  {| has_schema := has_schema db; modules := modules db;
     classes := classes db; class_inheritance := class_inheritance db;
     functions := v; parameters := parameters db; examples := examples db;
     classes_fts := classes_fts db; functions_fts := functions_fts db;
     sqlite_sequence := sqlite_sequence db |}.
Definition set_parameters (v : list parameters_row) (db : database) : database :=
  {| has_schema := has_schema db; modules := modules db;
     classes := classes db; class_inheritance := class_inheritance db;
     functions := functions db; parameters := v; examples := examples db;
     classes_fts := classes_fts db; functions_fts := functions_fts db;
     sqlite_sequence := sqlite_sequence db |}.
Definition set_classes_fts (v : list classes_fts_row) (db : database) : database :=
  {| has_schema := has_schema db; modules := modules db;
     classes := classes db; class_inheritance := class_inheritance db;
     functions := functions db; parameters := parameters db;
     examples := examples db; classes_fts := v;
     functions_fts := functions_fts db;
     sqlite_sequence := sqlite_sequence db |}.
Definition set_functions_fts (v : list functions_fts_row) (db : database)
    : database :=
  {| has_schema := has_schema db; modules := modules db;
     classes := classes db; class_inheritance := class_inheritance db;
     functions := functions db; parameters := parameters db;
     examples := examples db; classes_fts := classes_fts db;
     functions_fts := v; sqlite_sequence := sqlite_sequence db |}.
Definition set_sqlite_sequence (v : gmap string Z) (db : database) : database :=
  {| has_schema := has_schema db; modules := modules db;
     classes := classes db; class_inheritance := class_inheritance db;
     functions := functions db; parameters := parameters db;
     examples := examples db; classes_fts := classes_fts db;
     functions_fts := functions_fts db; sqlite_sequence := v |}.

(** ** SQLite: rowids, the FTS5 index, the triggers *)

Definition max_rowid (ids : list Z) : Z := foldr Z.max 0 ids.

(** The rowid an [INTEGER PRIMARY KEY AUTOINCREMENT] column receives:
    one more than the largest rowid the table ever held. *)
Definition autoincrement (table : string) (ids : list Z) (db : database) : Z :=
  Z.max (default 0 (sqlite_sequence db !! table)) (max_rowid ids) + 1.

Definition bump_sequence (table : string) (id : Z) (db : database) : database :=
  set_sqlite_sequence
    (<[table := Z.max id (default 0 (sqlite_sequence db !! table))]>
       (sqlite_sequence db)) db.

(** [INSERT INTO t_fts(rowid, ...) VALUES (...)] adds an entry. *)
Definition fts5_insert {E : Type} (e : E) (idx : list E) : list E :=
  idx ++ [e].

(** [INSERT INTO t_fts(t_fts, rowid, ...) VALUES ('delete', ...)] takes
    out the entry of that rowid that was indexed with those values. *)
Fixpoint fts5_delete {E : Type} `{EqDecision E} (e : E) (idx : list E)
  : list E :=
  match idx with
  | [] => []
  | x :: idx' => if decide (x = e) then idx' else x :: fts5_delete e idx'
  end.

Definition classes_fts_values (r : classes_row) : classes_fts_row :=
  {| cfts_rowid := cls_id r; cfts_name := cls_name r;
     cfts_full_qualified_name := cls_full_qualified_name r;
     cfts_docstring := cls_docstring r |}.

Definition functions_fts_values (r : functions_row) : functions_fts_row :=
  {| ffts_rowid := fn_id r; ffts_name := fn_name r;
     ffts_full_qualified_name := fn_full_qualified_name r;
     ffts_docstring := fn_docstring r;
     ffts_signature_string := fn_signature_string r |}.

(** The six triggers of [create_schema] (lines 168-213). *)
Definition classes_ai (new : classes_row) (db : database) : database :=
  set_classes_fts (fts5_insert (classes_fts_values new) (classes_fts db)) db.

Definition classes_ad (old : classes_row) (db : database) : database :=
  set_classes_fts (fts5_delete (classes_fts_values old) (classes_fts db)) db.

Definition classes_au (old new : classes_row) (db : database) : database :=
  let db := set_classes_fts
              (fts5_delete (classes_fts_values old) (classes_fts db)) db in
  set_classes_fts (fts5_insert (classes_fts_values new) (classes_fts db)) db.

Definition functions_ai (new : functions_row) (db : database) : database :=
  set_functions_fts
    (fts5_insert (functions_fts_values new) (functions_fts db)) db.

Definition functions_ad (old : functions_row) (db : database) : database :=
  set_functions_fts
    (fts5_delete (functions_fts_values old) (functions_fts db)) db.

Definition functions_au (old new : functions_row) (db : database) : database :=
  let db := set_functions_fts
              (fts5_delete (functions_fts_values old) (functions_fts db)) db in
  set_functions_fts
    (fts5_insert (functions_fts_values new) (functions_fts db)) db.

(** A row trigger runs once for every row the statement touched. *)
Definition for_each_row {R : Type} (trigger : R -> database -> database)
    (rows : list R) (db : database) : database :=
  foldl (fun db r => trigger r db) db rows.

(** [SELECT rowid FROM t_fts WHERE t_fts MATCH token], for a query that
    is a single token: the entries with that token in some column.  The
    tokenizer is FTS5's, a parameter here. *)
Section fts5_match.
Variable tokenize : string -> list string.

Definition tokenize_opt (o : option string) : list string :=
  match o with Some s => tokenize s | None => [] end.

Definition classes_fts_tokens (e : classes_fts_row) : list string :=
  tokenize (cfts_name e) ++ tokenize (cfts_full_qualified_name e)
    ++ tokenize_opt (cfts_docstring e).

Definition functions_fts_tokens (e : functions_fts_row) : list string :=
  tokenize (ffts_name e) ++ tokenize (ffts_full_qualified_name e)
    ++ tokenize_opt (ffts_docstring e) ++ tokenize (ffts_signature_string e).

Definition classes_fts_match (token : string) (db : database) : list Z :=
  cfts_rowid <$>
    filter (fun e => token ∈ classes_fts_tokens e) (classes_fts db).

Definition functions_fts_match (token : string) (db : database) : list Z :=
  ffts_rowid <$>
    filter (fun e => token ∈ functions_fts_tokens e) (functions_fts db).
End fts5_match.

(** ** SQLite: the statements

    A statement reads the connection's [foreign_keys] pragma and the
    database; it returns a value and the new database, or raises and
    leaves the database as it was. *)

Definition statement (A : Type) : Type :=
  bool -> database -> py_result (A * database).

(** [INSERT INTO modules (name, docstring) VALUES (?, ?)] *)
Definition insert_into_modules (name : string) (docstring : option string)
  : statement Z := fun _ db =>
  if negb (has_schema db) then Raises OperationalError
  else if bool_decide (name ∈ mod_name <$> modules db)
  then Raises IntegrityError                                  (* UNIQUE *)
  else
    let id := autoincrement "modules" (mod_id <$> modules db) db in
    let new := {| mod_id := id; mod_name := name;
                  mod_docstring := docstring |} in
    Returns (id, bump_sequence "modules" id
                   (set_modules (modules db ++ [new]) db)).

(** [INSERT INTO classes (...) VALUES (...)]; [id] is [None] when the
    statement leaves the rowid to AUTOINCREMENT, as the loader does. *)
Definition insert_into_classes (id : option Z) (name full_qualified_name : string)
    (docstring : option string) (module_id : Z) : statement Z := fun fk db =>
  if negb (has_schema db) then Raises OperationalError
  else
    let ids := cls_id <$> classes db in
    let id := match id with
              | Some i => i
              | None => autoincrement "classes" ids db
              end in
    if bool_decide (id ∈ ids) then Raises IntegrityError      (* PRIMARY KEY *)
    else if bool_decide
              (full_qualified_name ∈ cls_full_qualified_name <$> classes db)
    then Raises IntegrityError                                (* UNIQUE *)
    else if fk && negb (bool_decide (module_id ∈ mod_id <$> modules db))
    then Raises IntegrityError                                (* FOREIGN KEY *)
    else
      let new := {| cls_id := id; cls_name := name;
                    cls_full_qualified_name := full_qualified_name;
                    cls_docstring := docstring;
                    cls_module_id := module_id |} in
      Returns (id, classes_ai new
                     (bump_sequence "classes" id
                        (set_classes (classes db ++ [new]) db))).

Definition class_is_referenced (id : Z) (db : database) : bool :=
  bool_decide (id ∈ inh_class_id <$> class_inheritance db)
  || bool_decide (Some id ∈ fn_class_id <$> functions db)
  || bool_decide (Some id ∈ ex_class_id <$> examples db).

(** [DELETE FROM classes WHERE id = ?] *)
Definition delete_from_classes (id : Z) : statement unit := fun fk db =>
  if negb (has_schema db) then Raises OperationalError
  else
    let old := filter (fun r => cls_id r = id) (classes db) in
    if fk && bool_decide (old ≠ []) && class_is_referenced id db
    then Raises IntegrityError                                (* FOREIGN KEY *)
    else
      Returns (tt, for_each_row classes_ad old
                     (set_classes
                        (filter (fun r => cls_id r ≠ id) (classes db)) db)).

(** [UPDATE classes SET id = ?, name = ?, ... WHERE id = ?] *)
Definition update_classes (id : Z) (new : classes_row) : statement unit :=
  fun fk db =>
  if negb (has_schema db) then Raises OperationalError
  else
    let others := filter (fun r => cls_id r ≠ id) (classes db) in
    match filter (fun r => cls_id r = id) (classes db) with
    | [] => Returns (tt, db)
    | [old] =>
        if bool_decide (cls_id new ∈ cls_id <$> others)
        then Raises IntegrityError                            (* PRIMARY KEY *)
        else if bool_decide (cls_full_qualified_name new
                               ∈ cls_full_qualified_name <$> others)
        then Raises IntegrityError                            (* UNIQUE *)
        else if fk && (negb (bool_decide
                               (cls_module_id new ∈ mod_id <$> modules db))
                       || (negb (bool_decide (cls_id new = id))
                           && class_is_referenced id db))
        then Raises IntegrityError                            (* FOREIGN KEY *)
        else
          Returns (tt, classes_au old new
                         (set_classes
                            ((fun r => if decide (cls_id r = id)
                                       then new else r) <$> classes db)
                            db))
    | _ => Raises IntegrityError        (* the rows would share one id *)
    end.

(** [INSERT INTO class_inheritance (class_id, base_class_name)
     VALUES (?, ?)] *)
Definition insert_into_class_inheritance (class_id : Z) (base : string)
  : statement unit := fun fk db =>
  if negb (has_schema db) then Raises OperationalError
  else
    let new := {| inh_class_id := class_id; inh_base_class_name := base |} in
    if bool_decide (new ∈ class_inheritance db)
    then Raises IntegrityError                                (* PRIMARY KEY *)
    else if fk && negb (bool_decide (class_id ∈ cls_id <$> classes db))
    then Raises IntegrityError                                (* FOREIGN KEY *)
    else Returns (tt, set_class_inheritance
                        (class_inheritance db ++ [new]) db).

(** [INSERT INTO functions (...) VALUES (...)]; the row carries every
    column but the rowid, which is [id] or AUTOINCREMENT's. *)
Definition with_fn_id (id : Z) (r : functions_row) : functions_row :=
  {| fn_id := id; fn_name := fn_name r;
     fn_full_qualified_name := fn_full_qualified_name r;
     fn_signature_string := fn_signature_string r;
     fn_docstring := fn_docstring r;
     fn_return_annotation := fn_return_annotation r;
     fn_is_async := fn_is_async r; fn_is_classmethod := fn_is_classmethod r;
     fn_is_staticmethod := fn_is_staticmethod r;
     fn_class_id := fn_class_id r; fn_module_id := fn_module_id r |}.

Definition function_keys_exist (r : functions_row) (db : database) : bool :=
  bool_decide (fn_module_id r ∈ mod_id <$> modules db)
  && match fn_class_id r with
     | Some c => bool_decide (c ∈ cls_id <$> classes db)
     | None => true
     end.

Definition insert_into_functions (id : option Z) (values : functions_row)
  : statement Z := fun fk db =>
  if negb (has_schema db) then Raises OperationalError
  else
    let ids := fn_id <$> functions db in
    let id := match id with
              | Some i => i
              | None => autoincrement "functions" ids db
              end in
    let new := with_fn_id id values in
    if bool_decide (id ∈ ids) then Raises IntegrityError      (* PRIMARY KEY *)
    else if bool_decide (fn_full_qualified_name new
                           ∈ fn_full_qualified_name <$> functions db)
    then Raises IntegrityError                                (* UNIQUE *)
    else if fk && negb (function_keys_exist new db)
    then Raises IntegrityError                                (* FOREIGN KEY *)
    else
      Returns (id, functions_ai new
                     (bump_sequence "functions" id
                        (set_functions (functions db ++ [new]) db))).

Definition function_is_referenced (id : Z) (db : database) : bool :=
  bool_decide (id ∈ par_function_id <$> parameters db)
  || bool_decide (Some id ∈ ex_function_id <$> examples db).

(** [DELETE FROM functions WHERE id = ?] *)
Definition delete_from_functions (id : Z) : statement unit := fun fk db =>
  if negb (has_schema db) then Raises OperationalError
  else
    let old := filter (fun r => fn_id r = id) (functions db) in
    if fk && bool_decide (old ≠ []) && function_is_referenced id db
    then Raises IntegrityError                                (* FOREIGN KEY *)
    else
      Returns (tt, for_each_row functions_ad old
                     (set_functions
                        (filter (fun r => fn_id r ≠ id) (functions db)) db)).

(** [UPDATE functions SET id = ?, name = ?, ... WHERE id = ?] *)
Definition update_functions (id : Z) (new : functions_row) : statement unit :=
  fun fk db =>
  if negb (has_schema db) then Raises OperationalError
  else
    let others := filter (fun r => fn_id r ≠ id) (functions db) in
    match filter (fun r => fn_id r = id) (functions db) with
    | [] => Returns (tt, db)
    | [old] =>
        if bool_decide (fn_id new ∈ fn_id <$> others)
        then Raises IntegrityError                            (* PRIMARY KEY *)
        else if bool_decide (fn_full_qualified_name new
                               ∈ fn_full_qualified_name <$> others)
        then Raises IntegrityError                            (* UNIQUE *)
        else if fk && (negb (function_keys_exist new db)
                       || (negb (bool_decide (fn_id new = id))
                           && function_is_referenced id db))
        then Raises IntegrityError                            (* FOREIGN KEY *)
        else
          Returns (tt, functions_au old new
                         (set_functions
                            ((fun r => if decide (fn_id r = id)
                                       then new else r) <$> functions db)
                            db))
    | _ => Raises IntegrityError        (* the rows would share one id *)
    end.

(** ** SQLite: the REPLACE conflict resolution

    [INSERT OR REPLACE] (also written [REPLACE INTO]) and
    [UPDATE OR REPLACE] delete the rows that stand in the way of a
    PRIMARY KEY or UNIQUE constraint and go on.  No connection of the
    repository sets [recursive_triggers], which is off by default, so
    no AFTER DELETE trigger runs for a row deleted that way.  Foreign
    keys are checked when the statement ends: a deleted row may be
    referenced only if the written row takes its rowid. *)

(** [INSERT OR REPLACE INTO classes (...) VALUES (...)] *)
Definition insert_or_replace_into_classes (id : option Z)
    (name full_qualified_name : string) (docstring : option string)
    (module_id : Z) : statement Z := fun fk db =>
  if negb (has_schema db) then Raises OperationalError
  else
    let id := match id with
              | Some i => i
              | None => autoincrement "classes" (cls_id <$> classes db) db
              end in
    let in_the_way := fun r =>
      cls_id r = id ∨ cls_full_qualified_name r = full_qualified_name in
    let removed := filter in_the_way (classes db) in
    let kept := filter (fun r => ¬ in_the_way r) (classes db) in
    if fk && (negb (bool_decide (module_id ∈ mod_id <$> modules db))
              || existsb (fun r => negb (bool_decide (cls_id r = id))
                                   && class_is_referenced (cls_id r) db)
                         removed)
    then Raises IntegrityError                                (* FOREIGN KEY *)
    else
      let new := {| cls_id := id; cls_name := name;
                    cls_full_qualified_name := full_qualified_name;
                    cls_docstring := docstring;
                    cls_module_id := module_id |} in
      Returns (id, classes_ai new
                     (bump_sequence "classes" id
                        (set_classes (kept ++ [new]) db))).

(** [UPDATE OR REPLACE classes SET id = ?, name = ?, ... WHERE id = ?] *)
Definition update_or_replace_classes (id : Z) (new : classes_row)
  : statement unit := fun fk db =>
  if negb (has_schema db) then Raises OperationalError
  else
    let in_the_way := fun r =>
      cls_id r ≠ id
      ∧ (cls_id r = cls_id new
         ∨ cls_full_qualified_name r = cls_full_qualified_name new) in
    let removed := filter in_the_way (classes db) in
    let kept := filter (fun r => ¬ in_the_way r) (classes db) in
    match filter (fun r => cls_id r = id) (classes db) with
    | [] => Returns (tt, db)
    | [old] =>
        if fk && (negb (bool_decide
                          (cls_module_id new ∈ mod_id <$> modules db))
                  || (negb (bool_decide (cls_id new = id))
                      && class_is_referenced id db)
                  || existsb (fun r => negb (bool_decide (cls_id r = cls_id new))
                                       && class_is_referenced (cls_id r) db)
                             removed)
        then Raises IntegrityError                            (* FOREIGN KEY *)
        else
          Returns (tt, classes_au old new
                         (set_classes
                            ((fun r => if decide (cls_id r = id)
                                       then new else r) <$> kept)
                            db))
    | _ => Raises IntegrityError        (* the rows would share one id *)
    end.

(** [INSERT OR REPLACE INTO functions (...) VALUES (...)] *)
Definition insert_or_replace_into_functions (id : option Z)
    (values : functions_row) : statement Z := fun fk db =>
  if negb (has_schema db) then Raises OperationalError
  else
    let id := match id with
              | Some i => i
              | None => autoincrement "functions" (fn_id <$> functions db) db
              end in
    let new := with_fn_id id values in
    let in_the_way := fun r =>
      fn_id r = id
      ∨ fn_full_qualified_name r = fn_full_qualified_name new in
    let removed := filter in_the_way (functions db) in
    let kept := filter (fun r => ¬ in_the_way r) (functions db) in
    if fk && (negb (function_keys_exist new db)
              || existsb (fun r => negb (bool_decide (fn_id r = id))
                                   && function_is_referenced (fn_id r) db)
                         removed)
    then Raises IntegrityError                                (* FOREIGN KEY *)
    else
      Returns (id, functions_ai new
                     (bump_sequence "functions" id
                        (set_functions (kept ++ [new]) db))).

(** [UPDATE OR REPLACE functions SET id = ?, name = ?, ... WHERE id = ?] *)
Definition update_or_replace_functions (id : Z) (new : functions_row)
  : statement unit := fun fk db =>
  if negb (has_schema db) then Raises OperationalError
  else
    let in_the_way := fun r =>
      fn_id r ≠ id
      ∧ (fn_id r = fn_id new
         ∨ fn_full_qualified_name r = fn_full_qualified_name new) in
    let removed := filter in_the_way (functions db) in
    let kept := filter (fun r => ¬ in_the_way r) (functions db) in
    match filter (fun r => fn_id r = id) (functions db) with
    | [] => Returns (tt, db)
    | [old] =>
        if fk && (negb (function_keys_exist new db)
                  || (negb (bool_decide (fn_id new = id))
                      && function_is_referenced id db)
                  || existsb (fun r => negb (bool_decide (fn_id r = fn_id new))
                                       && function_is_referenced (fn_id r) db)
                             removed)
        then Raises IntegrityError                            (* FOREIGN KEY *)
        else
          Returns (tt, functions_au old new
                         (set_functions
                            ((fun r => if decide (fn_id r = id)
                                       then new else r) <$> kept)
                            db))
    | _ => Raises IntegrityError        (* the rows would share one id *)
    end.

(** [INSERT INTO parameters (function_id, name, kind, annotation,
     default_value, position) VALUES (?, ?, ?, ?, ?, ?)] *)
Definition insert_into_parameters (function_id : Z) (name kind : string)
    (annotation default_value : option string) (position : Z)
  : statement Z := fun fk db =>
  if negb (has_schema db) then Raises OperationalError
  else if fk && negb (bool_decide (function_id ∈ fn_id <$> functions db))
  then Raises IntegrityError                                  (* FOREIGN KEY *)
  else
    let id := autoincrement "parameters" (par_id <$> parameters db) db in
    let new := {| par_id := id; par_function_id := function_id;
                  par_name := name; par_kind := kind;
                  par_annotation := annotation;
                  par_default_value := default_value;
                  par_position := position |} in
    Returns (id, bump_sequence "parameters" id
                   (set_parameters (parameters db ++ [new]) db)).

(** The DDL of [create_schema]: every statement is [IF NOT EXISTS], so
    on a database that has the schema nothing changes. *)
Definition create_tables_indexes_triggers : statement unit := fun _ db =>
  Returns (tt, set_has_schema true db).

(** A [SELECT ... FROM modules WHERE col = ?] names a column; SQLite
    resolves it against the columns of the CREATE TABLE (lines 52-58). *)
Definition modules_columns : list string := ["id"; "name"; "docstring"].

Inductive sql_value : Type :=
  | SqlNull | SqlInteger (i : Z) | SqlText (s : string).

#[global] Instance sql_value_eq_dec : EqDecision sql_value.
Proof. solve_decision. Defined.

Definition modules_column (col : string) (r : modules_row) : option sql_value :=
  if String.eqb col "id" then Some (SqlInteger (mod_id r))
  else if String.eqb col "name" then Some (SqlText (mod_name r))
  else if String.eqb col "docstring"
  then Some (match mod_docstring r with
             | Some d => SqlText d
             | None => SqlNull
             end)
  else None.

(** [SELECT name FROM modules WHERE <col> = ?], in rowid order. *)
Definition select_name_from_modules_where (col : string) (v : sql_value)
  : statement (list string) := fun _ db =>
  if negb (has_schema db) then Raises OperationalError
  else if negb (bool_decide (col ∈ modules_columns))
  then Raises OperationalError                       (* no such column *)
  else Returns (mod_name <$>
                  filter (fun r => modules_column col r = Some v) (modules db),
                db).

(** [SELECT COUNT( * )] over the six tables, as [print_statistics] asks. *)
Record statistics := {
  modules_count : Z;
  classes_count : Z;
  functions_count : Z;      (* WHERE class_id IS NULL *)
  methods_count : Z;        (* WHERE class_id IS NOT NULL *)
  parameters_count : Z;
  examples_count : Z
}.

Definition select_counts : statement statistics := fun _ db =>
  if negb (has_schema db) then Raises OperationalError
  else
    Returns
      ({| modules_count := Z.of_nat (length (modules db));
          classes_count := Z.of_nat (length (classes db));
          functions_count :=
            Z.of_nat (length (filter (fun r => fn_class_id r = None)
                                     (functions db)));
          methods_count :=
            Z.of_nat (length (filter (fun r => fn_class_id r ≠ None)
                                     (functions db)));
          parameters_count := Z.of_nat (length (parameters db));
          examples_count := Z.of_nat (length (examples db)) |}, db).

(** ** Files and connections

    A path holds a database, a JSON array of dicts (what
    [divide_entities.py] writes) or anything else.  A connection sees
    [conn_view]: the file as of the last commit plus its own pending
    changes.  [commit] writes the view to the file; [close] drops
    whatever was pending. *)

Definition py_dict : Type := list (string * sql_value).

Inductive file : Type :=
  | SqliteFile (db : database)
  | JsonFile (array : list py_dict)
  | OtherFile (content : string).

Record connection := {
  conn_path : string;
  conn_view : database;
  conn_foreign_keys : bool;
  conn_closed : bool
}.

Definition set_conn_view (db : database) (c : connection) : connection :=
  {| conn_path := conn_path c; conn_view := db;
     conn_foreign_keys := conn_foreign_keys c;
     conn_closed := conn_closed c |}.

(** [sqlite3.connect(path)]: opens the file, creating it when absent.
    (On a file that is not a database SQLite complains at the first
    statement; the model complains here.) *)
Definition sqlite3_connect (path : string) (files : gmap string file)
  : py_result connection * gmap string file :=
  match files !! path with
  | None =>
      (Returns {| conn_path := path; conn_view := empty_database;
                  conn_foreign_keys := false; conn_closed := false |},
       <[path := SqliteFile empty_database]> files)
  | Some (SqliteFile db) =>
      (Returns {| conn_path := path; conn_view := db;
                  conn_foreign_keys := false; conn_closed := false |},
       files)
  | Some _ => (Raises DatabaseError, files)
  end.

(** ** [class DatabaseCreator] *)

Record DatabaseCreator := {
  db_path : string;
  verbose : bool;
  conn : option connection;
  module_ids : gmap string Z;
  class_ids : gmap string Z
}.

Definition __init__ (db_path : string) (verbose : bool) : DatabaseCreator :=
  {| db_path := db_path; verbose := verbose; conn := None;
     module_ids := ∅; class_ids := ∅ |}.

Definition set_conn (c : option connection) (o : DatabaseCreator)
  : DatabaseCreator :=
  {| db_path := db_path o; verbose := verbose o; conn := c;
     module_ids := module_ids o; class_ids := class_ids o |}.
Definition set_module_ids (m : gmap string Z) (o : DatabaseCreator)
  : DatabaseCreator :=
  {| db_path := db_path o; verbose := verbose o; conn := conn o;
     module_ids := m; class_ids := class_ids o |}.
Definition set_class_ids (m : gmap string Z) (o : DatabaseCreator)
  : DatabaseCreator :=
  {| db_path := db_path o; verbose := verbose o; conn := conn o;
     module_ids := module_ids o; class_ids := m |}.

(** A method runs on the object and the file system, and returns or
    raises; what it changed before raising stays changed.  ([self.log]
    only prints, and is left out.) *)
Record world := { self : DatabaseCreator; files : gmap string file }.

Definition method (A : Type) : Type := world -> py_result A * world.

Definition ret {A} (a : A) : method A := fun w => (Returns a, w).
Definition raise {A} (e : py_exception) : method A := fun w => (Raises e, w).
Definition bind {A B} (m : method A) (k : A -> method B) : method B :=
  fun w => match m w with
           | (Returns a, w') => k a w'
           | (Raises e, w') => (Raises e, w')
           end.
(** [try: body finally: handler] *)
Definition try_finally {A} (body : method A) (handler : method unit)
  : method A :=
  fun w => let '(r, w') := body w in
           match handler w' with
           | (Returns _, w'') => (r, w'')
           | (Raises e, w'') => (Raises e, w'')
           end.

Declare Scope method_scope.
Delimit Scope method_scope with method.
Bind Scope method_scope with method.
Notation "x <- m ;; k" := (bind m (fun x => k))
  (at level 100, m at next level, k at level 200, right associativity)
  : method_scope.
Notation "m ;; k" := (bind m (fun _ => k))
  (at level 100, k at level 200, right associativity) : method_scope.
Local Open Scope method_scope.

Fixpoint for_each {X} (xs : list X) (body : X -> method unit) : method unit :=
  match xs with
  | [] => ret tt
  | x :: xs' => body x ;; for_each xs' body
  end.

(** [enumerate(xs)] *)
Definition enumerate {X} (xs : list X) : list (Z * X) :=
  imap (fun i x => (Z.of_nat i, x)) xs.

(** [assert self.conn is not None] and the use of the connection. *)
Definition the_conn : method connection := fun w =>
  match conn (self w) with
  | Some c => if conn_closed c then (Raises ProgrammingError, w)
              else (Returns c, w)
  | None => (Raises AssertionError, w)
  end.

Definition put_conn (c : connection) : method unit := fun w =>
  (Returns tt, {| self := set_conn (Some c) (self w); files := files w |}).

(** [cursor.execute(...)] *)
Definition execute {A} (stmt : statement A) : method A :=
  c <- the_conn ;;
  match stmt (conn_foreign_keys c) (conn_view c) with
  | Returns (a, db) => put_conn (set_conn_view db c) ;; ret a
  | Raises e => raise e
  end.

(** [self.conn.commit()] *)
Definition commit : method unit :=
  c <- the_conn ;;
  fun w => (Returns tt,
            {| self := self w;
               files := <[conn_path c := SqliteFile (conn_view c)]> (files w) |}).

(** [self.conn.close()]: nothing is committed; the connection is unusable
    afterwards. *)
Definition close : method unit := fun w =>
  match conn (self w) with
  | Some c =>
      (Returns tt,
       {| self := set_conn
                    (Some {| conn_path := conn_path c;
                             conn_view := conn_view c;
                             conn_foreign_keys := conn_foreign_keys c;
                             conn_closed := true |}) (self w);
          files := files w |})
  | None => (Raises AssertionError, w)
  end.

(** [self.module_ids[name] = module_id] *)
Definition remember_module_id (name : string) (module_id : Z) : method unit :=
  fun w =>
  (Returns tt,
   {| self := set_module_ids (<[name := module_id]> (module_ids (self w)))
                             (self w);
      files := files w |}).

(** [self.class_ids[qualified_name] = class_id] *)
Definition remember_class_id (qualified_name : string) (class_id : Z)
  : method unit := fun w =>
  (Returns tt,
   {| self := set_class_ids (<[qualified_name := class_id]> (class_ids (self w)))
                            (self w);
      files := files w |}).

Definition create_schema : method unit :=
  _ <- the_conn ;;
  execute create_tables_indexes_triggers ;;
  _ <- the_conn ;;
  commit.

Definition insert_module (module_data : ModuleData) : method Z :=
  _ <- the_conn ;;
  module_id <- execute (insert_into_modules (module_name module_data)
                                            (module_docstring module_data)) ;;
  remember_module_id (module_name module_data) module_id ;;
  ret module_id.

Definition insert_function (func_data : FuncData) (module_id : Z)
    (class_id : option Z) : method unit :=
  _ <- the_conn ;;
  function_id <-
    execute (insert_into_functions None
               {| fn_id := 0;
                  fn_name := func_name func_data;
                  fn_full_qualified_name := func_qualified_name func_data;
                  fn_signature_string := func_signature_string func_data;
                  fn_docstring := func_docstring func_data;
                  fn_return_annotation := func_return_annotation func_data;
                  fn_is_async := truthy_flag (func_is_async func_data);
                  fn_is_classmethod :=
                    truthy_flag (func_is_classmethod func_data);
                  fn_is_staticmethod :=
                    truthy_flag (func_is_staticmethod func_data);
                  fn_class_id := class_id;
                  fn_module_id := module_id |}) ;;
  for_each (enumerate (func_parameters func_data))
    (fun '(position, param_data) =>
       _ <- execute (insert_into_parameters function_id
                       (param_name param_data) (param_kind param_data)
                       (param_annotation param_data)
                       (param_default param_data) position) ;;
       ret tt).

Definition insert_class (class_data : ClassData) (module_id : Z)
  : method unit :=
  _ <- the_conn ;;
  class_id <- execute (insert_into_classes None
                         (class_name class_data)
                         (class_qualified_name class_data)
                         (class_docstring class_data) module_id) ;;
  remember_class_id (class_qualified_name class_data) class_id ;;
  for_each (class_bases class_data)
    (fun base => execute (insert_into_class_inheritance class_id base)) ;;
  for_each (class_methods class_data)
    (fun method_data => insert_function method_data module_id (Some class_id)).

Fixpoint process_module (module_data : ModuleData) : method unit :=
  match module_data with
  | mkModule _ _ classes functions submodules =>
      module_id <- insert_module module_data ;;
      for_each classes (fun class_data => insert_class class_data module_id) ;;
      for_each functions
        (fun func_data => insert_function func_data module_id None) ;;
      (fix submodules_loop (ms : list ModuleData) : method unit :=
         match ms with
         | [] => ret tt
         | submodule_data :: ms' =>
             process_module submodule_data ;; submodules_loop ms'
         end) submodules
  end.

Definition populate_database (data : ModuleData) : method unit :=
  _ <- the_conn ;;
  process_module data ;;
  commit.

(** [print_statistics]: the model returns the numbers it prints. *)
Definition print_statistics : method statistics :=
  _ <- the_conn ;;
  stats <- execute select_counts ;;
  fun w => match files w !! db_path (self w) with    (* Path(...).stat() *)
           | Some _ => (Returns stats, w)
           | None => (Raises FileNotFoundError, w)
           end.

(** [create(json_data)]; the model returns the statistics printed. *)
Definition create (json_data : ModuleData) : method statistics :=
  fun w =>
  let db_path := db_path (self w) in
  (* if db_path.exists(): db_path.unlink() *)
  let files := if bool_decide (is_Some (files w !! db_path))
               then delete db_path (files w) else files w in
  (* self.conn = sqlite3.connect(self.db_path) *)
  match sqlite3_connect db_path files with
  | (Raises e, files) => (Raises e, {| self := self w; files := files |})
  | (Returns c, files) =>
      (* self.conn.execute("PRAGMA foreign_keys = ON") *)
      let c := {| conn_path := conn_path c; conn_view := conn_view c;
                  conn_foreign_keys := true; conn_closed := conn_closed c |} in
      try_finally
        (create_schema ;; populate_database json_data ;; print_statistics)
        close
        {| self := set_conn (Some c) (self w); files := files |}
  end.

(** ** Vocabulary of the properties *)

(** The database as the object's connection sees it. *)
Definition view (w : world) : database :=
  match conn (self w) with
  | Some c => conn_view c
  | None => empty_database
  end.

(** A method keeps [R] when the world it leaves, returning or raising,
    is [R]-related to the world it started from. *)
Definition keeps {A} (R : relation world) (m : method A) : Prop :=
  ∀ w, R w (m w).2.

(** The files are as they were. *)
Definition same_files : relation world :=
  fun w w' => files w' = files w.

(** A part of the database the connection sees is as it was. *)
Definition unchanged {T} (part : database → T) : relation world :=
  fun w w' => part (view w') = part (view w).

(** The data-changing statements: the ones the loader issues, and
    inserts, updates and deletes of classes and functions as a later
    process may issue them on the file, with or without the
    [OR REPLACE] conflict clause.  (The loader issues plain INSERTs
    only.) *)
Inductive dml : Type :=
  | InsertModule (name : string) (docstring : option string)
  | InsertClass (id : option Z) (name full_qualified_name : string)
                (docstring : option string) (module_id : Z)
  | UpdateClass (id : Z) (new : classes_row)
  | DeleteClass (id : Z)
  | InsertOrReplaceClass (id : option Z) (name full_qualified_name : string)
                         (docstring : option string) (module_id : Z)
  | UpdateOrReplaceClass (id : Z) (new : classes_row)
  | InsertInheritance (class_id : Z) (base : string)
  | InsertFunction (id : option Z) (values : functions_row)
  | UpdateFunction (id : Z) (new : functions_row)
  | DeleteFunction (id : Z)
  | InsertOrReplaceFunction (id : option Z) (values : functions_row)
  | UpdateOrReplaceFunction (id : Z) (new : functions_row)
  | InsertParameter (function_id : Z) (name kind : string)
                    (annotation default_value : option string) (position : Z).

Definition drop_value {A} (r : py_result (A * database))
  : py_result database :=
  match r with
  | Returns (_, db) => Returns db
  | Raises e => Raises e
  end.

Definition dml_statement (s : dml) (fk : bool) (db : database)
  : py_result database :=
  match s with
  | InsertModule n d => drop_value (insert_into_modules n d fk db)
  | InsertClass i n q d m => drop_value (insert_into_classes i n q d m fk db)
  | UpdateClass i r => drop_value (update_classes i r fk db)
  | DeleteClass i => drop_value (delete_from_classes i fk db)
  | InsertOrReplaceClass i n q d m =>
      drop_value (insert_or_replace_into_classes i n q d m fk db)
  | UpdateOrReplaceClass i r =>
      drop_value (update_or_replace_classes i r fk db)
  | InsertInheritance c b =>
      drop_value (insert_into_class_inheritance c b fk db)
  | InsertFunction i v => drop_value (insert_into_functions i v fk db)
  | UpdateFunction i r => drop_value (update_functions i r fk db)
  | DeleteFunction i => drop_value (delete_from_functions i fk db)
  | InsertOrReplaceFunction i v =>
      drop_value (insert_or_replace_into_functions i v fk db)
  | UpdateOrReplaceFunction i r =>
      drop_value (update_or_replace_functions i r fk db)
  | InsertParameter f n k a d p =>
      drop_value (insert_into_parameters f n k a d p fk db)
  end.

(** A statement is plain when it has no conflict clause. *)
Definition or_replace (s : dml) : bool :=
  match s with
  | InsertOrReplaceClass _ _ _ _ _ | UpdateOrReplaceClass _ _
  | InsertOrReplaceFunction _ _ | UpdateOrReplaceFunction _ _ => true
  | _ => false
  end.

Definition plain (s : dml) : Prop := or_replace s = false.

(** A statement that raises changes nothing. *)
Definition run_dml (fk : bool) (db : database) (s : dml) : database :=
  match dml_statement s fk db with
  | Returns db' => db'
  | Raises _ => db
  end.

Definition run_all (fk : bool) (ss : list dml) (db : database) : database :=
  foldl (run_dml fk) db ss.

(** Each index holds one entry per row of its table, with the row's
    values. *)
Definition fts_consistent (db : database) : Prop :=
  classes_fts db ≡ₚ classes_fts_values <$> classes db
  ∧ functions_fts db ≡ₚ functions_fts_values <$> functions db.

(** The database right after [create_schema] on a new file. *)
Definition new_database : database := set_has_schema true empty_database.

(** ** Fixtures

    The set-up of [tests/test_create_database.py]: a creator whose
    connection was opened on a new file with [foreign_keys] on; and the
    documents of the design's scenarios. *)

Definition connected (db_path : string) : world :=
  {| self := set_conn
               (Some {| conn_path := db_path; conn_view := empty_database;
                        conn_foreign_keys := true; conn_closed := false |})
               (__init__ db_path false);
     files := {[ db_path := SqliteFile empty_database ]} |}.

Definition module_only (name : string) : ModuleData :=
  mkModule name None [] [] [].

Definition class_C (bases : list string) : ClassData :=
  {| class_name := "C"; class_qualified_name := "m.C";
     class_docstring := None; class_bases := bases; class_methods := [] |}.

Definition function_f : FuncData :=
  {| func_name := "f"; func_qualified_name := "m.f";
     func_signature_string := "(x: int, y: int = 5)";
     func_docstring := None; func_return_annotation := None;
     func_is_async := None; func_is_classmethod := None;
     func_is_staticmethod := None;
     func_parameters :=
       [ {| param_name := "x"; param_kind := "POSITIONAL_OR_KEYWORD";
            param_annotation := Some "int"; param_default := None |};
         {| param_name := "y"; param_kind := "POSITIONAL_OR_KEYWORD";
            param_annotation := Some "int"; param_default := Some "5" |} ] |}.

(** Scenario A: module [m], class [m.C] with bases [["object"]], function
    [m.f(x: int, y: int = 5)]. *)
Definition scenario_A : ModuleData :=
  mkModule "m" None [class_C ["object"]] [function_f] [].


End create_database.

(** * The partitioner: [scripts/divide_entities.py] *)

Module divide_entities.
Section divide.
Context {random : PyRandom} {A : Type}.

(** [random.shuffle(x)]:
<<
    for i in reversed(range(1, len(x))):
        j = randbelow(i + 1)
        x[i], x[j] = x[j], x[i]
>>
    [shuffle_loop i] runs the iterations [i, i-1, ..., 1]. *)
Fixpoint shuffle_loop (i : nat) (x : list A) (g : rng_state)
  : list A * rng_state :=
  match i with
  | O => (x, g)
  | S i' =>
      let '(j, g') := randbelow (S i) g in
      shuffle_loop i' (py_swap x i j) g'
  end.

Definition shuffle (x : list A) (g : rng_state) : list A * rng_state :=
  shuffle_loop (length x - 1) x g.

(** The body of [for i in range(num_groups)], with the two loop
    variables [groups] and [start_idx] threaded through. *)
Fixpoint divide_loop (shuffled : list A) (base_size remainder : Z)
    (range : list Z) (groups : list (list A)) (start_idx : Z)
  : list (list A) :=
  match range with
  | [] => groups
  | i :: range' =>
      let group_size :=
        (base_size + (if i <? remainder then 1 else 0))%Z in
      let end_idx := (start_idx + group_size)%Z in
      let group := py_slice shuffled start_idx end_idx in
      divide_loop shuffled base_size remainder range'
                  (groups ++ [group]) end_idx
  end.

(** [divide_entities(entities, num_groups)].  The module-level
    generator is global state: the call receives it as [g] (whatever
    earlier code left there) and leaves it advanced. *)
Definition divide_entities (entities : list A) (num_groups : Z)
    (g : rng_state) : py_result (list (list A)) * rng_state :=
  let shuffled := entities in                       (* entities.copy() *)
  let g := rng_seed 42 in                           (* random.seed(42) *)
  let '(shuffled, g) := shuffle shuffled g in       (* random.shuffle *)
  let total := Z.of_nat (length shuffled) in
  if (num_groups =? 0)%Z then (Raises ZeroDivisionError, g)
  else
    let base_size := (total `div` num_groups)%Z in
    let remainder := (total `mod` num_groups)%Z in
    (Returns (divide_loop shuffled base_size remainder
                          (py_range num_groups) [] 0), g).

(** Vocabulary of the properties: where group [i] starts in the
    shuffled sequence, and the slice that is group [i]. *)
Definition group_start (base_size remainder : Z) (i : nat) : Z :=
  (base_size * Z.of_nat i + Z.min (Z.of_nat i) remainder)%Z.

Definition group_slice (shuffled : list A) (base_size remainder : Z)
    (i : nat) : list A :=
  py_slice shuffled (group_start base_size remainder i)
                    (group_start base_size remainder (S i)).
End divide.

Import create_database.

(** A row of the export query: [type], [id], [name],
    [full_qualified_name]. *)
Definition entity_row : Type := string * Z * string * string.

Definition class_entity (r : classes_row) : entity_row :=
  ("CLASS", cls_id r, cls_name r, cls_full_qualified_name r).
Definition function_entity (r : functions_row) : entity_row :=
  ("FUNCTION", fn_id r, fn_name r, fn_full_qualified_name r).

(** [ORDER BY type, name], on text compared byte by byte.  SQL leaves the
    order of rows with equal keys open; the model keeps them as they
    come (classes before functions, each by rowid). *)
Definition order_key_leb (a b : entity_row) : bool :=
  let '(type_a, _, name_a, _) := a in
  let '(type_b, _, name_b, _) := b in
  match String.compare type_a type_b with
  | Lt => true
  | Gt => false
  | Eq => String.leb name_a name_b
  end.

Fixpoint insert_ordered (r : entity_row) (sorted : list entity_row)
  : list entity_row :=
  match sorted with
  | [] => [r]
  | x :: sorted' =>
      if order_key_leb x r then x :: insert_ordered r sorted'
      else r :: x :: sorted'
  end.

Definition order_by_type_name (rows : list entity_row) : list entity_row :=
  foldl (fun sorted r => insert_ordered r sorted) [] rows.

(** [dict(row)] *)
Definition dict_of_row (r : entity_row) : py_dict :=
  let '(type, id, name, full_qualified_name) := r in
  [("type", SqlText type); ("id", SqlInteger id); ("name", SqlText name);
   ("full_qualified_name", SqlText full_qualified_name)].

Definition select_entities : statement (list entity_row) := fun _ db =>
  if negb (has_schema db) then Raises OperationalError
  else Returns (order_by_type_name
                  ((class_entity <$> classes db)
                     ++ (function_entity <$> functions db)), db).

(** [export_entities(db_path)] *)
Definition export_entities (db_path : string) (files : gmap string file)
  : py_result (list py_dict) * gmap string file :=
  match sqlite3_connect db_path files with
  | (Raises e, files) => (Raises e, files)
  | (Returns conn, files) =>
      match select_entities (conn_foreign_keys conn) (conn_view conn) with
      | Raises e => (Raises e, files)
      | Returns (rows, _) => (Returns (dict_of_row <$> rows), files)
      end
  end.

(** The parsed command line. *)
Record args := {
  arg_database : string;
  arg_groups : Z;            (* --groups, default 10 *)
  arg_output_dir : string    (* --output-dir, default /tmp *)
}.

(** ** Paths

    [pathlib.Path] on POSIX: a path is a root, which is empty, [/] or
    [//], and the names after it.  Reading a string drops the empty
    names and the [.] names; [..] is kept as a name.  The keys of
    [files] are paths as [str] writes them, and two keys are two
    files: no link and no [..] leads from one to the other. *)
Record PurePath := {
  path_root : string;
  path_tail : list string
}.

(** [s.split("/")] *)
Fixpoint split_sep (s : string) : list string :=
  match s with
  | EmptyString => [EmptyString]
  | String c s' =>
      if Ascii.eqb c "/"%char then EmptyString :: split_sep s'
      else match split_sep s' with
           | name :: names => String c name :: names
           | [] => [String c EmptyString]
           end
  end.


(** [s[k:k+1] == "/"] *)
Definition sep_at (k : nat) (s : string) : bool :=
  match String.get k s with
  | Some c => Ascii.eqb c "/"%char
  | None => false
  end.

(** [s[k:]] *)
Fixpoint string_drop (k : nat) (s : string) : string :=
  match k, s with
  | S k', String _ s' => string_drop k' s'
  | _, _ => s
  end.

(** [posixpath.splitroot]: two leading slashes are a root of their own,
    one, three or more are the root [/]. *)
Definition splitroot (s : string) : string * string :=
  if negb (sep_at 0 s) then ("", s)
  else if negb (sep_at 1 s) || sep_at 2 s then ("/", string_drop 1 s)
  else ("//", string_drop 2 s).

(** [Path(s)] *)
Definition Path (s : string) : PurePath :=
  let '(root, rel) := splitroot s in
  {| path_root := root;
     path_tail := filter (fun name => name ≠ "" ∧ name ≠ ".")
                         (split_sep rel) |}.

(** ["/".join(names)] *)
Fixpoint join_sep (names : list string) : string :=
  match names with
  | [] => ""
  | [name] => name
  | name :: names => name +:+ "/" +:+ join_sep names
  end.

(** [str(path)] *)
Definition path_str (p : PurePath) : string :=
  if bool_decide (path_root p = "") && bool_decide (path_tail p = [])
  then "."
  else path_root p +:+ join_sep (path_tail p).

(** [path / key]: a key with a root replaces the path, any other key
    adds its names. *)
Definition joinpath (p : PurePath) (key : string) : PurePath :=
  let q := Path key in
  if bool_decide (path_root q = "")
  then {| path_root := path_root p; path_tail := path_tail p ++ path_tail q |}
  else q.

(** The paths above [p], without [p] itself and without the bare root. *)
Definition ancestors (p : PurePath) : list PurePath :=
  (fun k => {| path_root := path_root p; path_tail := take k (path_tail p) |})
    <$> seq 1 (length (path_tail p) - 1).

(** [path.exists()], for the regular files, which are all that [files]
    records. *)
Definition is_file (files : gmap string file) (p : PurePath) : bool :=
  bool_decide (is_Some (files !! path_str p)).

(** [path.mkdir(parents=True, exist_ok=True)].  Directories are not
    recorded: a path that holds no regular file and lies under none is
    a directory, or becomes one here.  [os.mkdir] fails with ENOTDIR
    when a regular file is on the way to the path and with EEXIST when
    the path holds one; [exist_ok] forgives EEXIST for a directory
    only.  The root and the current directory are there already. *)
Definition mkdir (p : PurePath) (files : gmap string file) : py_result unit :=
  if existsb (is_file files) (ancestors p) then Raises NotADirectoryError
  else if negb (bool_decide (path_tail p = [])) && is_file files p
  then Raises FileExistsError
  else Returns tt.

(** [output_dir / f"entity_group_{i}.json"], as [open] receives it *)
Definition group_filename (output_dir : string) (i : Z) : string :=
  path_str (joinpath (Path output_dir)
              ("entity_group_" +:+ pretty i +:+ ".json")).

(** [for i, group in enumerate(groups, 1): json.dump(group, f)] *)
Definition write_groups (output_dir : string) (groups : list (list py_dict))
    (files : gmap string file) : gmap string file :=
  foldl (fun files '(i, group) =>
           <[group_filename output_dir (i + 1) := JsonFile group]> files)
        files (enumerate groups).

Section main.
Context {random : PyRandom}.

(** [main()]: the value it returns, the files and the generator it
    leaves. *)
Definition main (a : args) (files : gmap string file) (g : rng_state)
  : py_result Z * gmap string file * rng_state :=
  let db_path := Path (arg_database a) in
  if negb (is_file files db_path)
  then (Returns 1%Z, files, g)
  else
    match export_entities (path_str db_path) files with
    | (Raises e, files) => (Raises e, files, g)
    | (Returns entities, files) =>
        match divide_entities entities (arg_groups a) g with
        | (Raises e, g) => (Raises e, files, g)
        | (Returns groups, g) =>
            match mkdir (Path (arg_output_dir a)) files with
            | Raises e => (Raises e, files, g)
            | Returns _ =>
                (Returns 0%Z, write_groups (arg_output_dir a) groups files, g)
            end
        end
    end.
End main.

(** [sys.exit(main())]: the status of the process; an exception that
    nobody catches ends it with status 1. *)
Definition exit_status (r : py_result Z) : Z :=
  match r with
  | Returns code => code
  | Raises _ => 1%Z
  end.

End divide_entities.

(** * A generator to run the definitions

    A linear congruential generator standing in for CPython's Mersenne
    Twister wherever a definition is evaluated on concrete data. *)

Definition lcg_next (s : Z) : Z := ((s * 1103515245 + 12345) `mod` 2147483648)%Z.

Definition lcg_randbelow (n : nat) (s : Z) : nat * Z :=
  let s' := lcg_next s in (Z.to_nat (s' `mod` Z.of_nat n), s').

Definition lcg : PyRandom :=
  {| rng_state := Z;
     rng_seed := fun a => (a `mod` 2147483648)%Z;
     randbelow := lcg_randbelow;
     randbelow_lt := ltac:(intros n g Hn; unfold lcg_randbelow; simpl;
                           pose proof (Z.mod_pos_bound (lcg_next g) (Z.of_nat n));
                           lia) |}.

(** * Further vocabulary of the properties *)

Module export_order.
Import divide_entities.

(** The order of two export rows of one type: the order of their
    names. *)
Definition name_le (a b : entity_row) : Prop :=
  String.leb a.1.2 b.1.2 = true.

(** A database with the classes [m.Z] and [m.A], inserted in that
    order. *)
Definition two_classes : create_database.database :=
  create_database.run_all true
    [create_database.InsertModule "m" None;
     create_database.InsertClass None "Z" "m.Z" None 1;
     create_database.InsertClass None "A" "m.A" None 1]
    create_database.new_database.
End export_order.

(** ** Reading the database back

    What a reader of the database sees of each row once the foreign
    keys are followed: a class with the name of its module, a function
    with the qualified name of its class and the name of its module, a
    parameter with the qualified name of its function. *)

Module readback.
Import create_database.
Local Open Scope Z_scope.

(** The row a join on the id column finds. *)
Definition module_name_of (db : database) (id : Z) : option string :=
  mod_name <$> head (filter (fun r => mod_id r = id) (modules db)).

Definition class_name_of (db : database) (id : Z) : option string :=
  cls_full_qualified_name
    <$> head (filter (fun r => cls_id r = id) (classes db)).

Definition function_name_of (db : database) (id : Z) : option string :=
  fn_full_qualified_name
    <$> head (filter (fun r => fn_id r = id) (functions db)).

Record module_view := {
  mv_name : string;
  mv_docstring : option string
}.

Record class_view := {
  cv_name : string;
  cv_qualified_name : string;
  cv_docstring : option string;
  cv_module : option string            (* modules.name of module_id *)
}.

Record inheritance_view := {
  iv_class : option string;            (* classes.full_qualified_name *)
  iv_base : string
}.

Record function_view := {
  fv_name : string;
  fv_qualified_name : string;
  fv_signature_string : string;
  fv_docstring : option string;
  fv_return_annotation : option string;
  fv_is_async : Z;
  fv_is_classmethod : Z;
  fv_is_staticmethod : Z;
  fv_class : option (option string);   (* None: class_id IS NULL *)
  fv_module : option string
}.

Record parameter_view := {
  pv_function : option string;         (* functions.full_qualified_name *)
  pv_name : string;
  pv_kind : string;
  pv_annotation : option string;
  pv_default_value : option string;
  pv_position : Z
}.

Definition module_view_of (r : modules_row) : module_view :=
  {| mv_name := mod_name r; mv_docstring := mod_docstring r |}.

Definition class_view_of (db : database) (r : classes_row) : class_view :=
  {| cv_name := cls_name r;
     cv_qualified_name := cls_full_qualified_name r;
     cv_docstring := cls_docstring r;
     cv_module := module_name_of db (cls_module_id r) |}.

Definition inheritance_view_of (db : database) (r : class_inheritance_row)
  : inheritance_view :=
  {| iv_class := class_name_of db (inh_class_id r);
     iv_base := inh_base_class_name r |}.

Definition function_view_of (db : database) (r : functions_row)
  : function_view :=
  {| fv_name := fn_name r;
     fv_qualified_name := fn_full_qualified_name r;
     fv_signature_string := fn_signature_string r;
     fv_docstring := fn_docstring r;
     fv_return_annotation := fn_return_annotation r;
     fv_is_async := fn_is_async r;
     fv_is_classmethod := fn_is_classmethod r;
     fv_is_staticmethod := fn_is_staticmethod r;
     fv_class := class_name_of db <$> fn_class_id r;
     fv_module := module_name_of db (fn_module_id r) |}.

Definition parameter_view_of (db : database) (r : parameters_row)
  : parameter_view :=
  {| pv_function := function_name_of db (par_function_id r);
     pv_name := par_name r; pv_kind := par_kind r;
     pv_annotation := par_annotation r;
     pv_default_value := par_default_value r;
     pv_position := par_position r |}.

(** The five tables of the loader, read back in rowid order. *)
Record contents := {
  c_modules : list module_view;
  c_classes : list class_view;
  c_inheritance : list inheritance_view;
  c_functions : list function_view;
  c_parameters : list parameter_view
}.

Definition read_back (db : database) : contents :=
  {| c_modules := module_view_of <$> modules db;
     c_classes := class_view_of db <$> classes db;
     c_inheritance := inheritance_view_of db <$> class_inheritance db;
     c_functions := function_view_of db <$> functions db;
     c_parameters := parameter_view_of db <$> parameters db |}.

Definition no_contents : contents :=
  {| c_modules := []; c_classes := []; c_inheritance := [];
     c_functions := []; c_parameters := [] |}.

(** Table by table, the rows of [a] and then the rows of [b]. *)
Definition contents_app (a b : contents) : contents :=
  {| c_modules := c_modules a ++ c_modules b;
     c_classes := c_classes a ++ c_classes b;
     c_inheritance := c_inheritance a ++ c_inheritance b;
     c_functions := c_functions a ++ c_functions b;
     c_parameters := c_parameters a ++ c_parameters b |}.

(** ** What a document holds, in the order of [process_module] *)

Definition function_contents (module : string) (cls : option string)
    (f : FuncData) : contents :=
  {| c_modules := []; c_classes := []; c_inheritance := [];
     c_functions :=
       [{| fv_name := func_name f;
           fv_qualified_name := func_qualified_name f;
           fv_signature_string := func_signature_string f;
           fv_docstring := func_docstring f;
           fv_return_annotation := func_return_annotation f;
           fv_is_async := truthy_flag (func_is_async f);
           fv_is_classmethod := truthy_flag (func_is_classmethod f);
           fv_is_staticmethod := truthy_flag (func_is_staticmethod f);
           fv_class := Some <$> cls;
           fv_module := Some module |}];
     c_parameters :=
       (fun '(position, p) =>
          {| pv_function := Some (func_qualified_name f);
             pv_name := param_name p; pv_kind := param_kind p;
             pv_annotation := param_annotation p;
             pv_default_value := param_default p;
             pv_position := position |})
         <$> enumerate (func_parameters f) |}.

(** Rows of one table only. *)
Definition only_modules (ms : list module_view) : contents :=
  {| c_modules := ms; c_classes := []; c_inheritance := [];
     c_functions := []; c_parameters := [] |}.
Definition only_classes (cs : list class_view) : contents :=
  {| c_modules := []; c_classes := cs; c_inheritance := [];
     c_functions := []; c_parameters := [] |}.
Definition only_inheritance (es : list inheritance_view) : contents :=
  {| c_modules := []; c_classes := []; c_inheritance := es;
     c_functions := []; c_parameters := [] |}.
Definition only_functions (fs : list function_view) : contents :=
  {| c_modules := []; c_classes := []; c_inheritance := [];
     c_functions := fs; c_parameters := [] |}.
Definition only_parameters (ps : list parameter_view) : contents :=
  {| c_modules := []; c_classes := []; c_inheritance := [];
     c_functions := []; c_parameters := ps |}.

Definition each_contents {X} (one : X -> contents) (xs : list X) : contents :=
  foldr (fun x rest => contents_app (one x) rest) no_contents xs.

Definition class_contents (module : string) (c : ClassData) : contents :=
  contents_app
    {| c_modules := [];
       c_classes :=
         [{| cv_name := class_name c;
             cv_qualified_name := class_qualified_name c;
             cv_docstring := class_docstring c;
             cv_module := Some module |}];
       c_inheritance :=
         (fun base => {| iv_class := Some (class_qualified_name c);
                         iv_base := base |}) <$> class_bases c;
       c_functions := []; c_parameters := [] |}
    (each_contents
       (function_contents module (Some (class_qualified_name c)))
       (class_methods c)).

Fixpoint module_contents (m : ModuleData) : contents :=
  match m with
  | mkModule name docstring classes functions submodules =>
      contents_app
        {| c_modules := [{| mv_name := name; mv_docstring := docstring |}];
           c_classes := []; c_inheritance := []; c_functions := [];
           c_parameters := [] |}
        (contents_app
           (each_contents (class_contents name) classes)
           (contents_app
              (each_contents (function_contents name None) functions)
              ((fix submodules_contents (ms : list ModuleData) : contents :=
                  match ms with
                  | [] => no_contents
                  | m' :: ms' =>
                      contents_app (module_contents m')
                                   (submodules_contents ms')
                  end) submodules)))
  end.

(** The classes of a document, submodules included. *)
Fixpoint doc_classes (m : ModuleData) : list ClassData :=
  match m with
  | mkModule _ _ classes _ submodules =>
      classes
        ++ (fix submodules_classes (ms : list ModuleData) : list ClassData :=
              match ms with
              | [] => []
              | m' :: ms' => doc_classes m' ++ submodules_classes ms'
              end) submodules
  end.

(** The names that must be new: module names, qualified names of
    classes, qualified names of functions and methods. *)
Definition module_names (c : contents) : list string :=
  mv_name <$> c_modules c.
Definition class_names (c : contents) : list string :=
  cv_qualified_name <$> c_classes c.
Definition function_names (c : contents) : list string :=
  fv_qualified_name <$> c_functions c.

(** [new] has no repeated name and none of the names of [old]. *)
Definition fresh (old new : list string) : Prop :=
  NoDup new ∧ Forall (fun x => x ∉ old) new.

Definition fresh_names (old new : contents) : Prop :=
  fresh (module_names old) (module_names new)
  ∧ fresh (class_names old) (class_names new)
  ∧ fresh (function_names old) (function_names new).

Definition distinct_bases (cs : list ClassData) : Prop :=
  Forall (fun c => NoDup (class_bases c)) cs.

(** A document that the loader accepts: no name twice, and no class
    with a base listed twice. *)
Definition loadable (doc : ModuleData) : Prop :=
  NoDup (module_names (module_contents doc))
  ∧ NoDup (class_names (module_contents doc))
  ∧ NoDup (function_names (module_contents doc))
  ∧ distinct_bases (doc_classes doc).

(** ** Referential integrity *)

Definition class_keys_exist (db : database) (r : classes_row) : Prop :=
  cls_module_id r ∈ mod_id <$> modules db.
Definition inheritance_keys_exist (db : database) (r : class_inheritance_row)
  : Prop :=
  inh_class_id r ∈ cls_id <$> classes db.
Definition function_keys_exist_prop (db : database) (r : functions_row)
  : Prop :=
  fn_module_id r ∈ mod_id <$> modules db
  ∧ ∀ c, fn_class_id r = Some c → c ∈ cls_id <$> classes db.
Definition parameter_keys_exist (db : database) (r : parameters_row) : Prop :=
  par_function_id r ∈ fn_id <$> functions db.
Definition example_keys_exist (db : database) (r : examples_row) : Prop :=
  (∀ f, ex_function_id r = Some f → f ∈ fn_id <$> functions db)
  ∧ (∀ c, ex_class_id r = Some c → c ∈ cls_id <$> classes db).

(** Every foreign key names a row that is there. *)
Definition referential_integrity (db : database) : Prop :=
  Forall (class_keys_exist db) (classes db)
  ∧ Forall (inheritance_keys_exist db) (class_inheritance db)
  ∧ Forall (function_keys_exist_prop db) (functions db)
  ∧ Forall (parameter_keys_exist db) (parameters db)
  ∧ Forall (example_keys_exist db) (examples db).

(** The keys of the schema: rowids, the UNIQUE names, the composite key
    of [class_inheritance]. *)
Definition keys_unique (db : database) : Prop :=
  NoDup (mod_id <$> modules db) ∧ NoDup (mod_name <$> modules db)
  ∧ NoDup (cls_id <$> classes db)
  ∧ NoDup (cls_full_qualified_name <$> classes db)
  ∧ NoDup (class_inheritance db)
  ∧ NoDup (fn_id <$> functions db)
  ∧ NoDup (fn_full_qualified_name <$> functions db)
  ∧ NoDup (par_id <$> parameters db).
End readback.

(** ** The loader's steps on a database *)

Module loader_steps.
Import create_database readback.

(** A database with the schema whose foreign keys all resolve. *)
Definition db_ok (db : database) : Prop :=
  has_schema db = true ∧ referential_integrity db.

(** From [db] to [db'] the rows [e] were added, and nothing that could
    be read back before reads differently. *)
Definition db_grows (db db' : database) (e : contents) : Prop :=
  read_back db' = contents_app (read_back db) e
  ∧ (∀ id n, module_name_of db id = Some n → module_name_of db' id = Some n)
  ∧ (∀ id n, class_name_of db id = Some n → class_name_of db' id = Some n)
  ∧ (∀ id n, function_name_of db id = Some n →
             function_name_of db' id = Some n)
  ∧ examples db' = examples db.

(** [db'] is [db] with rows added at the end of the loader's tables. *)
Definition appended (db db' : database) (ms : list modules_row)
    (cs : list classes_row) (es : list class_inheritance_row)
    (fs : list functions_row) (ps : list parameters_row) : Prop :=
  modules db' = modules db ++ ms
  ∧ classes db' = classes db ++ cs
  ∧ class_inheritance db' = class_inheritance db ++ es
  ∧ functions db' = functions db ++ fs
  ∧ parameters db' = parameters db ++ ps
  ∧ examples db' = examples db
  ∧ has_schema db' = has_schema db.

(** The world is ready for the loader: the connection is open on a
    database that is [db_ok]. *)
Definition ready (w : world) : Prop :=
  ∃ c, conn (self w) = Some c ∧ conn_closed c = false
       ∧ db_ok (conn_view c).

(** What a step of the loader does to the world: the connection's view
    grows, and nothing else that the loader reads changes. *)
Definition grows (w w' : world) (e : contents) : Prop :=
  db_grows (view w) (view w') e
  ∧ files w' = files w
  ∧ conn_path <$> conn (self w') = conn_path <$> conn (self w)
  ∧ db_path (self w') = db_path (self w).

(** The outcome of a step that adds [e], under the side condition [B]:
    either the names of [e] are new and [B] holds, and the step returns
    with [e] added; or not, and the step raises [IntegrityError] with
    the connection still open. *)
Definition outcome {A} (m : method A) (w : world) (e : contents) (B : Prop)
    (Q : A → world → Prop) : Prop :=
  (fresh_names (read_back (view w)) e ∧ B
   ∧ ∃ a w', m w = (Returns a, w') ∧ ready w' ∧ grows w w' e ∧ Q a w')
  ∨ (¬ (fresh_names (read_back (view w)) e ∧ B)
     ∧ ∃ w', m w = (Raises IntegrityError, w') ∧ ready w').

Definition anything {A} : A → world → Prop := fun _ _ => True.
(** What [print_statistics] and [count_stats] count of some contents:
    classes, functions outside a class, methods, modules. *)
Definition counted (c : contents) : Z * Z * Z * Z :=
  (Z.of_nat (length (c_classes c)),
   Z.of_nat (length (filter (fun f => fv_class f = None) (c_functions c))),
   Z.of_nat (length (filter (fun f => fv_class f ≠ None) (c_functions c))),
   Z.of_nat (length (c_modules c))).

Definition add4 (x y : Z * Z * Z * Z) : Z * Z * Z * Z :=
  (x.1.1.1 + y.1.1.1, x.1.1.2 + y.1.1.2, x.1.2 + y.1.2, x.2 + y.2)%Z.

(** The set-up of the tests of the loader's methods: a connection on a
    new file, [foreign_keys] on, [create_schema] called. *)
Definition schema_created (db_path : string) : world :=
  (create_schema (connected db_path)).2.

(** Two worlds that differ in the object's dictionaries and [verbose]
    only. *)
Definition same_but_dicts (w1 w2 : world) : Prop :=
  conn (self w1) = conn (self w2)
  ∧ db_path (self w1) = db_path (self w2)
  ∧ files w1 = files w2.

(** A method that reads neither [module_ids] nor [class_ids]. *)
Definition blind {A} (m : method A) : Prop :=
  ∀ w1 w2, same_but_dicts w1 w2 →
           (m w1).1 = (m w2).1 ∧ same_but_dicts (m w1).2 (m w2).2.

(** A property of the connection's view that holds after a step
    whenever it held before. *)
Definition stays (P : database → Prop) : relation world :=
  fun w w' => P (view w) → P (view w').
End loader_steps.

(** * [introspect.py] *)

Module introspect.
Import create_database.
Local Open Scope Z_scope.

(** ** The dataclasses and [to_dict] *)

Record ParameterInfo := {
  pi_name : string;
  pi_kind : string;
  pi_annotation : option string;
  pi_default : option string
}.

Record FunctionInfo := {
  fi_name : string;
  fi_qualified_name : string;
  fi_signature_string : string;
  fi_docstring : option string;
  fi_parameters : list ParameterInfo;
  fi_return_annotation : option string;
  fi_is_async : bool;
  fi_is_classmethod : bool;
  fi_is_staticmethod : bool;
  fi_class_name : option string;
  fi_module_name : option string
}.

Record ClassInfo := {
  ci_name : string;
  ci_qualified_name : string;
  ci_docstring : option string;
  ci_methods : list FunctionInfo;
  ci_bases : list string;
  ci_module_name : option string
}.

#[local] Unset Elimination Schemes.
Inductive ModuleInfo : Type :=
  mkModuleInfo (name : string) (docstring : option string)
               (classes : list ClassInfo) (functions : list FunctionInfo)
               (submodules : list ModuleInfo).
#[local] Set Elimination Schemes.

(** [if self.k: result["k"] = self.k] on a [str | None]: the key is
    written for a string that is not empty. *)
Definition key_if_truthy (value : option string) : option string :=
  match value with
  | Some s => if decide (s = "") then None else Some s
  | None => None
  end.

(** [if self.k: result["k"] = True] on a [bool]. *)
Definition key_if_true (flag : bool) : option bool :=
  if flag then Some true else None.

(** [ParameterInfo.to_dict] *)
Definition ParameterInfo_to_dict (p : ParameterInfo) : ParamData :=
  {| param_name := pi_name p; param_kind := pi_kind p;
     param_annotation := key_if_truthy (pi_annotation p);
     param_default := pi_default p |}.

(** [FunctionInfo.to_dict]; the keys [class_name] and [module_name],
    which the loader does not read, are left out. *)
Definition FunctionInfo_to_dict (f : FunctionInfo) : FuncData :=
  {| func_name := fi_name f;
     func_qualified_name := fi_qualified_name f;
     func_signature_string := fi_signature_string f;
     func_docstring := fi_docstring f;
     func_return_annotation := key_if_truthy (fi_return_annotation f);
     func_is_async := key_if_true (fi_is_async f);
     func_is_classmethod := key_if_true (fi_is_classmethod f);
     func_is_staticmethod := key_if_true (fi_is_staticmethod f);
     func_parameters := ParameterInfo_to_dict <$> fi_parameters f |}.

(** [ClassInfo.to_dict]; [module_name] is left out likewise. *)
Definition ClassInfo_to_dict (c : ClassInfo) : ClassData :=
  {| class_name := ci_name c;
     class_qualified_name := ci_qualified_name c;
     class_docstring := ci_docstring c;
     class_bases := ci_bases c;
     class_methods := FunctionInfo_to_dict <$> ci_methods c |}.

(** [ModuleInfo.to_dict] *)
Fixpoint ModuleInfo_to_dict (m : ModuleInfo) : ModuleData :=
  match m with
  | mkModuleInfo name docstring classes functions submodules =>
      mkModule name docstring
        (ClassInfo_to_dict <$> classes)
        (FunctionInfo_to_dict <$> functions)
        ((fix submodules_to_dict (ms : list ModuleInfo) : list ModuleData :=
            match ms with
            | [] => []
            | m' :: ms' => ModuleInfo_to_dict m' :: submodules_to_dict ms'
            end) submodules)
  end.

(** Contents in which no annotation is the empty string. *)
Definition annotated (c : readback.contents) : Prop :=
  Forall (fun f => readback.fv_return_annotation f ≠ Some "")
         (readback.c_functions c)
  ∧ Forall (fun p => readback.pv_annotation p ≠ Some "")
           (readback.c_parameters c).

(** [sum(...)] *)
Definition py_sum (xs : list Z) : Z := foldl Z.add 0 xs.

(** [count_stats(mod_info)] of [main], on the document that
    [module_info.to_dict()] gives: the classes, functions, methods and
    submodules, nested submodules included. *)
Fixpoint count_stats (mod_info : ModuleData) : Z * Z * Z * Z :=
  match mod_info with
  | mkModule _ _ classes functions submodules =>
      let classes_count := Z.of_nat (length classes) in
      let functions_count := Z.of_nat (length functions) in
      let methods_count :=
        py_sum ((fun c => Z.of_nat (length (class_methods c))) <$> classes) in
      let submodules_count := Z.of_nat (length submodules) in
      (fix submodules_loop (ms : list ModuleData) (counts : Z * Z * Z * Z)
         : Z * Z * Z * Z :=
         match ms with
         | [] => counts
         | submod :: ms' =>
             let '(classes_count, functions_count, methods_count,
                   submodules_count) := counts in
             let sub_stats := count_stats submod in
             submodules_loop ms'
               (classes_count + sub_stats.1.1.1,
                functions_count + sub_stats.1.1.2,
                methods_count + sub_stats.1.2,
                submodules_count + sub_stats.2)
         end) submodules
        (classes_count, functions_count, methods_count, submodules_count)
  end.
End introspect.

(** * [verify_coverage.py] *)

Module verify_coverage.
Import create_database.
Local Open Scope Z_scope.

(** What [stats["avg_examples_per_..."]] holds: the int [0] of the
    [else] branch, or the result of [AVG], which SQLite computes as the
    floating-point quotient of the sum and the number of the values, and
    which is [NULL] when there is no value. *)
Inductive average : Type :=
  | Zero
  | Quotient (sum count : Z)
  | Null.

Record stats := {
  total_examples : Z;
  total_functions : Z;
  total_classes : Z;
  functions_covered : Z;
  classes_covered : Z;
  orphaned_examples : Z;
  avg_examples_per_function : average;
  avg_examples_per_class : average
}.

(** [SELECT COUNT(DISTINCT col) FROM examples WHERE col IS NOT NULL] *)
Definition count_distinct (col : examples_row -> option Z) (db : database)
  : Z :=
  Z.of_nat (length (remove_dups (omap col (examples db)))).

(** [COUNT( * )] of the group of [id]. *)
Definition occurrences (id : Z) (ids : list Z) : Z :=
  Z.of_nat (length (filter (fun i => i = id) ids)).

(** [SELECT COUNT( * ) as example_count FROM examples
     WHERE col IS NOT NULL GROUP BY col] *)
Definition example_counts (col : examples_row -> option Z) (db : database)
  : list Z :=
  let ids := omap col (examples db) in
  (fun id => occurrences id ids) <$> remove_dups ids.

Definition total (values : list Z) : Z := foldr Z.add 0 values.

(** [SELECT AVG(example_count) FROM (...)] *)
Definition sql_avg (values : list Z) : average :=
  match values with
  | [] => Null
  | _ => Quotient (total values) (Z.of_nat (length values))
  end.

(** The queries of [verify_coverage], in one statement. *)
Definition select_coverage : statement stats := fun _ db =>
  if negb (has_schema db) then Raises OperationalError
  else
    let functions_covered := count_distinct ex_function_id db in
    let classes_covered := count_distinct ex_class_id db in
    Returns
      ({| total_examples := Z.of_nat (length (examples db));
          total_functions := Z.of_nat (length (functions db));
          total_classes := Z.of_nat (length (classes db));
          functions_covered := functions_covered;
          classes_covered := classes_covered;
          orphaned_examples :=
            Z.of_nat
              (length (filter (fun r => ex_function_id r = None
                                        ∧ ex_class_id r = None)
                              (examples db)));
          avg_examples_per_function :=
            if bool_decide (functions_covered > 0)
            then sql_avg (example_counts ex_function_id db)
            else Zero;
          avg_examples_per_class :=
            if bool_decide (classes_covered > 0)
            then sql_avg (example_counts ex_class_id db)
            else Zero |}, db).

(** [verify_coverage(db_path)] *)
Definition verify_coverage (db_path : string) (files : gmap string file)
  : py_result stats * gmap string file :=
  match sqlite3_connect db_path files with
  | (Raises e, files) => (Raises e, files)
  | (Returns conn, files) =>
      match select_coverage (conn_foreign_keys conn) (conn_view conn) with
      | Raises e => (Raises e, files)
      | Returns (stats, _) => (Returns stats, files)
      end
  end.

(** ** Fixtures *)

(** [db] with the rows [rows] in [examples]. *)
Definition with_examples (rows : list examples_row) (db : database)
  : database :=
  {| has_schema := has_schema db; modules := modules db;
     classes := classes db; class_inheritance := class_inheritance db;
     functions := functions db; parameters := parameters db;
     examples := rows; classes_fts := classes_fts db;
     functions_fts := functions_fts db;
     sqlite_sequence := sqlite_sequence db |}.

(** The classes [m.Z] and [m.A]; two examples for [m.Z] and one for
    nothing. *)
Definition documented : database :=
  with_examples
    [ {| ex_id := 1; ex_code := "Z()"; ex_description := None;
         ex_function_id := None; ex_class_id := Some 1 |};
      {| ex_id := 2; ex_code := "Z().run()"; ex_description := None;
         ex_function_id := None; ex_class_id := Some 1 |};
      {| ex_id := 3; ex_code := "pass"; ex_description := None;
         ex_function_id := None; ex_class_id := None |} ]
    export_order.two_classes.
End verify_coverage.

(** * Properties of the partitioner *)

Module divide_entities_properties.
Import divide_entities.

Section slices.
Context {A : Type}.
Implicit Types l x : list A.

Lemma py_swap_Permutation x i j : py_swap x i j ≡ₚ x.
Proof.
  unfold py_swap.
  destruct (x !! i) as [xi|] eqn:Hi; [|done].
  destruct (x !! j) as [xj|] eqn:Hj; [|done].
  by apply Permutation_insert_swap.
Qed.

(** For bounds that are not negative, a Python slice is [take] of
    [drop]: both clamp at the end of the list on their own. *)
Lemma py_slice_nonneg l (a b : Z) :
  (0 ≤ a)%Z → (0 ≤ b)%Z →
  py_slice l a b = take (Z.to_nat b - Z.to_nat a) (drop (Z.to_nat a) l).
Proof.
  intros Ha Hb. unfold py_slice, py_slice_index.
  destruct (Z.ltb_spec a 0); [lia|]. destruct (Z.ltb_spec b 0); [lia|].
  destruct (decide (Z.to_nat a ≤ length l)) as [Hal|Hal].
  - replace (Z.to_nat (a `min` Z.of_nat (length l))) with (Z.to_nat a) by lia.
    destruct (decide (Z.to_nat b ≤ length l)) as [Hbl|Hbl].
    + f_equal. lia.
    + rewrite !take_ge; [done| |]; rewrite length_drop; lia.
  - rewrite (drop_ge l (Z.to_nat a)) by lia.
    rewrite (drop_ge l (Z.to_nat _)) by lia.
    by rewrite !take_nil.
Qed.

Lemma py_slice_app l (a m b : Z) :
  (0 ≤ a ≤ m)%Z → (m ≤ b)%Z →
  py_slice l a m ++ py_slice l m b = py_slice l a b.
Proof.
  intros Ham Hmb. rewrite !py_slice_nonneg by lia.
  replace (drop (Z.to_nat m) l)
    with (drop (Z.to_nat m - Z.to_nat a) (drop (Z.to_nat a) l))
    by (rewrite drop_drop; f_equal; lia).
  rewrite take_take_drop. f_equal. lia.
Qed.

Lemma py_slice_all l : py_slice l 0 (Z.of_nat (length l)) = l.
Proof.
  rewrite py_slice_nonneg by lia.
  replace (Z.to_nat 0) with 0%nat by lia. rewrite drop_0.
  rewrite take_ge; [done|lia].
Qed.

Lemma py_slice_length l (a b : Z) :
  (0 ≤ a ≤ b)%Z → (b ≤ Z.of_nat (length l))%Z →
  Z.of_nat (length (py_slice l a b)) = (b - a)%Z.
Proof.
  intros Hab Hb. rewrite py_slice_nonneg by lia.
  rewrite length_take, length_drop. lia.
Qed.
End slices.

Section shuffle.
Context {random : PyRandom} {A : Type}.
Implicit Types x : list A.

Lemma shuffle_loop_Permutation i x g : (shuffle_loop i x g).1 ≡ₚ x.
Proof.
  revert x g. induction i as [|i IH]; intros x g; simpl; [done|].
  destruct (randbelow (S (S i)) g) as [j g'].
  rewrite IH. apply py_swap_Permutation.
Qed.

Lemma shuffle_Permutation x g : (shuffle x g).1 ≡ₚ x.
Proof. apply shuffle_loop_Permutation. Qed.

Lemma shuffle_length x g : length (shuffle x g).1 = length x.
Proof. by rewrite shuffle_Permutation. Qed.

(** The exchange of the shuffle is always inside the list, so the
    [IndexError] that [py_swap] leaves out cannot happen: at step [i]
    both [i] and the drawn [j <= i] are valid indices. *)
Lemma shuffle_draw_in_range i x g :
  i < length x →
  is_Some (x !! i) ∧ is_Some (x !! (randbelow (S i) g).1).
Proof.
  intros Hi. pose proof (randbelow_lt (S i) g ltac:(lia)).
  split; apply lookup_lt_is_Some; lia.
Qed.
End shuffle.

Section loop.
Context {A : Type}.
Implicit Types shuffled : list A.

Lemma group_start_S base_size remainder i :
  group_start base_size remainder (S i)
  = (group_start base_size remainder i
     + (base_size + (if (Z.of_nat i <? remainder)%Z then 1 else 0)))%Z.
Proof.
  unfold group_start. destruct (Z.ltb_spec (Z.of_nat i) remainder); lia.
Qed.

(** The loop of [divide_entities], run over [k, k+1, ..., k+m-1] from
    the start of group [k], appends the slices of those groups. *)
Lemma divide_loop_slices shuffled base_size remainder k m groups :
  divide_loop shuffled base_size remainder (Z.of_nat <$> seq k m) groups
              (group_start base_size remainder k)
  = groups ++ (group_slice shuffled base_size remainder <$> seq k m).
Proof.
  revert k groups. induction m as [|m IH]; intros k groups; simpl.
  - by rewrite app_nil_r.
  - rewrite <- group_start_S, IH, <- app_assoc. done.
Qed.

Lemma group_start_mono base_size remainder i :
  (0 ≤ base_size)%Z → (0 ≤ remainder)%Z →
  (0 ≤ group_start base_size remainder i
   ≤ group_start base_size remainder (S i))%Z.
Proof. unfold group_start. intros. nia. Qed.

Lemma group_slices_concat shuffled base_size remainder m :
  (0 ≤ base_size)%Z → (0 ≤ remainder)%Z →
  mjoin (group_slice shuffled base_size remainder <$> seq 0 m)
  = py_slice shuffled 0 (group_start base_size remainder m).
Proof.
  intros Hb Hr. induction m as [|m IH].
  - simpl. rewrite py_slice_nonneg by (unfold group_start; lia).
    unfold group_start. by replace (Z.to_nat _ - Z.to_nat 0)%nat with 0%nat by lia.
  - rewrite seq_S, fmap_app, join_app, IH. simpl. rewrite app_nil_r.
    unfold group_slice. apply py_slice_app.
    + pose proof (group_start_mono base_size remainder m Hb Hr).
      unfold group_start in *. lia.
    + apply group_start_mono; done.
Qed.
End loop.

Section partition.
Context {random : PyRandom} {A : Type}.
Implicit Types E : list A.

(** What a call returns when [num_groups] is not zero: the slices of
    the shuffled copy, group by group. *)
Lemma divide_entities_groups E n g :
  n ≠ 0%Z →
  (divide_entities E n g).1
  = Returns (group_slice (shuffle E (rng_seed 42)).1
               (Z.of_nat (length E) `div` n) (Z.of_nat (length E) `mod` n)
               <$> seq 0 (Z.to_nat n)).
Proof.
  intros Hn. unfold divide_entities.
  pose proof (shuffle_length E (rng_seed 42)) as Hlen.
  destruct (shuffle E (rng_seed 42)) as [sh g2]. simpl in *.
  destruct (Z.eqb_spec n 0); [done|]. simpl. f_equal. rewrite Hlen.
  unfold py_range. destruct (decide (n < 0)%Z) as [Hneg|Hpos].
  - by replace (Z.to_nat n) with 0%nat by lia.
  - pose proof (Z.mod_pos_bound (Z.of_nat (length E)) n ltac:(lia)).
    etrans; [|apply (divide_loop_slices sh _ _ 0 _ [])].
    f_equal. unfold group_start. lia.
Qed.

Lemma divide_entities_generator E n g g' :
  (divide_entities E n g).2 = (divide_entities E n g').2.
Proof.
  unfold divide_entities. destruct (shuffle E (rng_seed 42)).
  by destruct (n =? 0)%Z.
Qed.

Lemma group_start_total (len n : Z) :
  (1 ≤ n)%Z → (0 ≤ len)%Z →
  group_start (len `div` n) (len `mod` n) (Z.to_nat n) = len.
Proof.
  intros Hn Hlen. unfold group_start.
  pose proof (Z.mod_pos_bound len n ltac:(lia)).
  pose proof (Z.div_mod len n ltac:(lia)). lia.
Qed.

Lemma group_start_le_total (len n : Z) i :
  (1 ≤ n)%Z → (0 ≤ len)%Z → i ≤ Z.to_nat n →
  (group_start (len `div` n) (len `mod` n) i ≤ len)%Z.
Proof.
  intros Hn Hlen Hi. unfold group_start.
  pose proof (Z.mod_pos_bound len n ltac:(lia)).
  pose proof (Z.div_mod len n ltac:(lia)).
  pose proof (Z.div_pos len n ltac:(lia) ltac:(lia)). nia.
Qed.

Lemma group_slice_length (sh : list A) (n : Z) i :
  (1 ≤ n)%Z → i < Z.to_nat n →
  let len := Z.of_nat (length sh) in
  Z.of_nat (length (group_slice sh (len `div` n) (len `mod` n) i))
  = (len `div` n + (if (Z.of_nat i <? len `mod` n)%Z then 1 else 0))%Z.
Proof.
  intros Hn Hi len. unfold group_slice.
  pose proof (Z.mod_pos_bound len n ltac:(lia)).
  pose proof (Z.div_pos len n ltac:(lia) ltac:(lia)).
  rewrite py_slice_length.
  - rewrite group_start_S. lia.
  - apply group_start_mono; lia.
  - apply group_start_le_total; lia.
Qed.

Lemma group_slices_join (sh : list A) (n : Z) :
  (1 ≤ n)%Z →
  let len := Z.of_nat (length sh) in
  mjoin (group_slice sh (len `div` n) (len `mod` n) <$> seq 0 (Z.to_nat n))
  = sh.
Proof.
  intros Hn len.
  pose proof (Z.mod_pos_bound len n ltac:(lia)).
  pose proof (Z.div_pos len n ltac:(lia) ltac:(lia)).
  rewrite group_slices_concat by lia.
  rewrite group_start_total by lia. apply py_slice_all.
Qed.

Lemma NoDup_join_disjoint (ls : list (list A)) i j li lj x :
  NoDup (mjoin ls) → i ≠ j →
  ls !! i = Some li → ls !! j = Some lj → x ∈ li → x ∉ lj.
Proof.
  revert i j. induction ls as [|l ls IH]; intros i j Hnd Hij Hi Hj Hx Hx';
    [done|].
  simpl in Hnd. apply NoDup_app in Hnd as (_ & Hdis & Hnd).
  destruct i as [|i], j as [|j]; simpl in *; simplify_eq.
  - apply (Hdis x Hx). apply list_elem_of_join. exists lj.
    split; [done|]. by eapply list_elem_of_lookup_2.
  - apply (Hdis x Hx'). apply list_elem_of_join. exists li.
    split; [done|]. by eapply list_elem_of_lookup_2.
  - eapply (IH i j); eauto.
Qed.
End partition.

Section claims.
Context {random : PyRandom} {A : Type}.
Implicit Types E : list A.

(** The groups of a call with [1 <= num_groups], with the facts the
    claims below are assembled from. *)
Lemma divide_entities_spec E n g :
  (1 ≤ n)%Z →
  ∃ groups,
    (divide_entities E n g).1 = Returns groups
    ∧ length groups = Z.to_nat n
    ∧ mjoin groups = (shuffle E (rng_seed 42)).1
    ∧ (∀ i grp, groups !! i = Some grp →
         Z.of_nat (length grp)
         = (Z.of_nat (length E) `div` n
            + (if (Z.of_nat i <? Z.of_nat (length E) `mod` n)%Z
               then 1 else 0))%Z).
Proof.
  intros Hn. eexists. split; [apply divide_entities_groups; lia|].
  rewrite <- (shuffle_length E (rng_seed 42)).
  split; [by rewrite length_fmap, length_seq|].
  split; [by apply group_slices_join|].
  intros i grp Hi. rewrite list_lookup_fmap in Hi.
  destruct (seq 0 (Z.to_nat n) !! i) as [k|] eqn:Hk; [|done].
  apply lookup_seq in Hk as [-> Hlt]. simpl in Hi. simplify_eq.
  by apply group_slice_length.
Qed.

(** C4 (as amended).  For [1 <= numGroups], [divide] returns exactly
    [numGroups] groups; their sizes sum to [len(E)]; put end to end
    they are a rearrangement of [E], so every entity of [E] is in some
    group and every member of a group is in [E]; when [E] has no
    repeated entity the groups are pairwise disjoint.  When
    [numGroups > len(E)] the first [len(E)] groups have one element and
    the others none; an empty [E] gives [numGroups] empty groups; and
    [numGroups = 1] gives one group holding everything. *)
Theorem divide_entities_conservation E n g :
  (1 ≤ n)%Z →
  ∃ groups,
    (divide_entities E n g).1 = Returns groups
    ∧ length groups = Z.to_nat n
    ∧ sum_list (length <$> groups) = length E
    ∧ mjoin groups ≡ₚ E
    ∧ (∀ x, x ∈ E ↔ ∃ grp, grp ∈ groups ∧ x ∈ grp)
    ∧ (NoDup E →
       ∀ i j gi gj x, i ≠ j → groups !! i = Some gi → groups !! j = Some gj →
                      x ∈ gi → x ∉ gj)
    ∧ ((Z.of_nat (length E) < n)%Z →
       ∀ i grp, groups !! i = Some grp →
                length grp = if decide (i < length E) then 1 else 0)
    ∧ (E = [] → groups = replicate (Z.to_nat n) [])
    ∧ (n = 1%Z → ∃ grp, groups = [grp] ∧ grp ≡ₚ E).
Proof.
  intros Hn.
  destruct (divide_entities_spec E n g Hn) as (groups & Hret & Hlen & Hjoin & Hsize).
  pose proof (shuffle_Permutation E (rng_seed 42)) as Hperm.
  exists groups. split; [done|]. split; [done|].
  split; [by rewrite <- length_join, Hjoin, Hperm|].
  split; [by rewrite Hjoin|].
  split.
  { intros x. rewrite <- Hperm, <- Hjoin, list_elem_of_join.
    split; intros (l & ? & ?); by exists l. }
  split.
  { intros Hnd. rewrite <- Hperm, <- Hjoin in Hnd.
    intros i j gi gj x. by apply NoDup_join_disjoint. }
  split.
  { intros Hsmall i grp Hi. specialize (Hsize i grp Hi).
    rewrite Z.div_small, Z.mod_small in Hsize by lia.
    destruct (Z.ltb_spec (Z.of_nat i) (Z.of_nat (length E)));
      case_decide; lia. }
  split.
  { intros ->. symmetry. apply replicate_as_Forall. split; [done|].
    apply Forall_lookup. intros i grp Hi. specialize (Hsize i grp Hi).
    simpl in Hsize. rewrite Z.div_0_l, Z.mod_0_l in Hsize by lia.
    destruct (Z.ltb_spec (Z.of_nat i) 0); [lia|].
    symmetry. apply nil_length_inv. lia. }
  intros ->. destruct groups as [|grp [|? ?]]; simpl in Hlen; try lia.
  exists grp. split; [done|]. simpl in Hjoin. rewrite app_nil_r in Hjoin.
  by rewrite Hjoin.
Qed.

(** C5.  For [1 <= numGroups] the group at index [i] has
    [len(E) div numGroups + 1] elements when [i < len(E) mod numGroups]
    and [len(E) div numGroups] otherwise; hence two group sizes differ
    by at most one. *)
Theorem divide_entities_balance E n g :
  (1 ≤ n)%Z →
  ∃ groups,
    (divide_entities E n g).1 = Returns groups
    ∧ length groups = Z.to_nat n
    ∧ (∀ i grp, groups !! i = Some grp →
         Z.of_nat (length grp)
         = if (Z.of_nat i <? Z.of_nat (length E) `mod` n)%Z
           then (Z.of_nat (length E) `div` n + 1)%Z
           else (Z.of_nat (length E) `div` n)%Z)
    ∧ (∀ gi gj, gi ∈ groups → gj ∈ groups → length gi ≤ length gj + 1).
Proof.
  intros Hn.
  destruct (divide_entities_spec E n g Hn) as (groups & Hret & Hlen & _ & Hsize).
  exists groups. split; [done|]. split; [done|]. split.
  - intros i grp Hi. rewrite (Hsize i grp Hi).
    destruct (_ <? _)%Z; lia.
  - intros gi gj [i Hi]%list_elem_of_lookup [j Hj]%list_elem_of_lookup.
    apply Hsize in Hi, Hj.
    destruct (_ <? _)%Z in Hi; destruct (_ <? _)%Z in Hj; lia.
Qed.

(** C6.  Two calls on sequences with the same contents and the same
    [numGroups >= 1] return the same groups in the same order, whatever
    state the module-level generator was in before each call, because
    each call re-seeds it with the constant 42; they also leave the
    generator in the same state. *)
Theorem divide_entities_deterministic E E' n g g' :
  E = E' → (1 ≤ n)%Z →
  (divide_entities E n g).1 = (divide_entities E' n g').1
  ∧ (divide_entities E n g).2 = (divide_entities E' n g').2.
Proof.
  intros <- Hn. split; [|apply divide_entities_generator].
  by rewrite !divide_entities_groups by lia.
Qed.

(** C10.  With [numGroups = 0] the call raises [ZeroDivisionError] for
    every list, the empty one included; with a negative [numGroups] it
    returns an empty list of groups. *)
Theorem divide_entities_zero_or_negative E g :
  (divide_entities E 0 g).1 = Raises ZeroDivisionError
  ∧ (divide_entities (A:=A) [] 0 g).1 = Raises ZeroDivisionError
  ∧ ∀ n, (n < 0)%Z → (divide_entities E n g).1 = Returns [].
Proof.
  split; [|split].
  - unfold divide_entities. by destruct (shuffle E (rng_seed 42)).
  - unfold divide_entities. by destruct (shuffle (A:=A) [] (rng_seed 42)).
  - intros n Hn. rewrite divide_entities_groups by lia.
    by replace (Z.to_nat n) with 0%nat by lia.
Qed.
End claims.

(** ** The scenarios of the design, run on data *)

Example scenario_C :
  (divide_entities (random:=lcg) (A:=Z) [] 10 0%Z).1
  = Returns (replicate 10 []).
Proof. by vm_compute. Qed.

Example scenario_D :
  ∃ groups,
    (divide_entities (random:=lcg) (seq 0 100) 10 0%Z).1 = Returns groups
    ∧ length <$> groups = replicate 10 10.
Proof. eexists. split; [by vm_compute|]. by vm_compute. Qed.

Example scenario_E :
  ∃ groups,
    (divide_entities (random:=lcg) (seq 0 95) 10 0%Z).1 = Returns groups
    ∧ length <$> groups = [10; 10; 10; 10; 10; 9; 9; 9; 9; 9]
    ∧ sum_list (length <$> groups) = 95%nat.
Proof. eexists. split; [by vm_compute|]. split; by vm_compute. Qed.

(** ** The claims run on data *)

(** C4 as first stated asks the groups to be pairwise disjoint for every
    sequence.  On a sequence that lists the same entity twice, two
    groups of one element each both hold that entity. *)
Lemma divide_entities_repeated_entity_in_two_groups :
  let e := dict_of_row ("CLASS", 1%Z, "C", "m.C") in
  (divide_entities (random:=lcg) [e; e] 2 0%Z).1 = Returns [[e]; [e]]
  ∧ ¬ (∀ i j gi gj x,
         i ≠ j → [[e]; [e]] !! i = Some gi → [[e]; [e]] !! j = Some gj →
         x ∈ gi → x ∉ gj).
Proof.
  intros e. split; [by vm_compute|].
  intros Hdisjoint.
  apply (Hdisjoint 0 1 [e] [e] e); [lia|done|done|apply list_elem_of_here..].
Qed.

Lemma divide_entities_conservation_witness :
  (1 ≤ 3)%Z
  ∧ ∃ groups,
      (divide_entities (random:=lcg) [10; 20; 30; 40; 50]%Z 3 0%Z).1
      = Returns groups
      ∧ length groups = 3
      ∧ sum_list (length <$> groups) = 5
      ∧ mjoin groups ≡ₚ [10; 20; 30; 40; 50]%Z.
Proof.
  split; [lia|].
  destruct (divide_entities_conservation (random:=lcg)
              [10; 20; 30; 40; 50]%Z 3 0%Z ltac:(lia))
    as (groups & Hret & Hlen & Hsum & Hperm & _).
  by exists groups.
Defined.

Lemma divide_entities_balance_witness :
  (1 ≤ 3)%Z
  ∧ ∃ groups,
      (divide_entities (random:=lcg) [10; 20; 30; 40; 50]%Z 3 0%Z).1
      = Returns groups
      ∧ ∀ gi gj, gi ∈ groups → gj ∈ groups → length gi ≤ length gj + 1.
Proof.
  split; [lia|].
  destruct (divide_entities_balance (random:=lcg)
              [10; 20; 30; 40; 50]%Z 3 0%Z ltac:(lia))
    as (groups & Hret & _ & _ & Hbal).
  by exists groups.
Defined.

Lemma divide_entities_deterministic_witness :
  (divide_entities (random:=lcg) [10; 20; 30; 40; 50]%Z 3 0%Z).1
  = (divide_entities (random:=lcg) [10; 20; 30; 40; 50]%Z 3 77%Z).1.
Proof.
  apply (divide_entities_deterministic (random:=lcg)
           [10; 20; 30; 40; 50]%Z [10; 20; 30; 40; 50]%Z 3 0%Z 77%Z);
    [reflexivity|lia].
Defined.

Lemma divide_entities_zero_or_negative_witness :
  (divide_entities (random:=lcg) [10; 20; 30]%Z 0 0%Z).1
  = Raises ZeroDivisionError
  ∧ (divide_entities (random:=lcg) [10; 20; 30]%Z (-2) 0%Z).1 = Returns [].
Proof.
  destruct (divide_entities_zero_or_negative (random:=lcg)
              [10; 20; 30]%Z 0%Z) as (Hzero & _ & Hneg).
  split; [exact Hzero|]. apply Hneg. lia.
Defined.

(** ** The command line: [main] *)

Section command.
Context {random : PyRandom}.
Import create_database.




(** [mkdir] fails in two ways only. *)
Lemma mkdir_raises p files e :
  mkdir p files = Raises e → e = FileExistsError ∨ e = NotADirectoryError.
Proof.
  unfold mkdir. destruct (existsb _ _); [intros [= <-]; by right|].
  destruct (_ && _); [intros [= <-]; by left|done].
Qed.

End command.


End divide_entities_properties.

(** * Properties of the database *)

Module create_database_properties.
Import create_database.
Local Open Scope Z_scope.

(** ** The full-text indexes follow their tables *)

Section mirrored.
Context {R E : Type} `{EqDecision E} (values : R → E).
Implicit Types (rows : list R) (idx : list E).

Lemma fts5_delete_Permutation e idx rest :
  idx ≡ₚ e :: rest → fts5_delete e idx ≡ₚ rest.
Proof.
  intros Hperm.
  assert (Hin : e ∈ idx) by (rewrite Hperm; left).
  apply (Permutation_cons_inv (a := e)). rewrite <- Hperm. clear Hperm.
  induction idx as [|x idx IH]; [by apply elem_of_nil in Hin|].
  simpl. destruct (decide (x = e)) as [->|Hne]; [done|].
  apply elem_of_cons in Hin as [->|Hin]; [done|].
  rewrite (Permutation_swap x e). by rewrite IH.
Qed.

Lemma fts5_delete_each rows idx rest :
  idx ≡ₚ (values <$> rows) ++ rest →
  foldl (fun idx r => fts5_delete (values r) idx) idx rows ≡ₚ rest.
Proof.
  revert idx. induction rows as [|r rows IH]; intros idx Hperm; [done|].
  simpl. apply IH. by apply fts5_delete_Permutation.
Qed.

Lemma values_filter_split (P : R → Prop) `{∀ r, Decision (P r)} rows :
  values <$> rows
  ≡ₚ (values <$> filter P rows) ++ (values <$> filter (fun r => ¬ P r) rows).
Proof. by rewrite <- fmap_app, filter_app_complement. Qed.

Lemma values_replace_none (P : R → Prop) `{∀ r, Decision (P r)} rows new :
  filter P rows = [] →
  values <$> ((fun r => if decide (P r) then new else r) <$> rows)
  = values <$> filter (fun r => ¬ P r) rows.
Proof.
  induction rows as [|r rows IH]; intros Hnil; [done|].
  rewrite filter_cons in Hnil. rewrite filter_cons, !fmap_cons.
  destruct (decide (P r)) as [|Hn]; [done|].
  rewrite decide_True by done. rewrite fmap_cons. f_equal. by apply IH.
Qed.

(** Replacing the one row that satisfies [P]. *)
Lemma values_replace (P : R → Prop) `{∀ r, Decision (P r)} rows old new :
  filter P rows = [old] →
  values <$> ((fun r => if decide (P r) then new else r) <$> rows)
  ≡ₚ values new :: (values <$> filter (fun r => ¬ P r) rows).
Proof.
  revert old. induction rows as [|r rows IH]; intros old Hold; [done|].
  rewrite filter_cons in Hold. rewrite filter_cons, !fmap_cons.
  destruct (decide (P r)) as [HP|HP].
  - rewrite decide_False by tauto. injection Hold as _ Hnil.
    by rewrite values_replace_none.
  - rewrite decide_True by done. rewrite fmap_cons.
    rewrite (IH old Hold). apply Permutation_swap.
Qed.
End mirrored.

Lemma classes_ad_each olds db :
  classes_fts (for_each_row classes_ad olds db)
  = foldl (fun idx r => fts5_delete (classes_fts_values r) idx)
          (classes_fts db) olds
  ∧ classes (for_each_row classes_ad olds db) = classes db
  ∧ functions (for_each_row classes_ad olds db) = functions db
  ∧ functions_fts (for_each_row classes_ad olds db) = functions_fts db.
Proof.
  revert db. induction olds as [|r olds IH]; intros db; [done|].
  unfold for_each_row in *. simpl.
  destruct (IH (classes_ad r db)) as (-> & -> & -> & ->). done.
Qed.

Lemma functions_ad_each olds db :
  functions_fts (for_each_row functions_ad olds db)
  = foldl (fun idx r => fts5_delete (functions_fts_values r) idx)
          (functions_fts db) olds
  ∧ functions (for_each_row functions_ad olds db) = functions db
  ∧ classes (for_each_row functions_ad olds db) = classes db
  ∧ classes_fts (for_each_row functions_ad olds db) = classes_fts db.
Proof.
  revert db. induction olds as [|r olds IH]; intros db; [done|].
  unfold for_each_row in *. simpl.
  destruct (IH (functions_ad r db)) as (-> & -> & -> & ->). done.
Qed.

(** Splitting a statement into the checks it makes. *)
Ltac statement_cases H :=
  repeat match type of H with
         | context [if ?b then _ else _] => destruct b eqn:?
         | context [match ?l with [] => _ | _ :: _ => _ end] =>
             destruct l eqn:?
         | drop_value ?r = _ => destruct r as [[? ?]|?] eqn:?; simpl in H
         end;
  simplify_eq.

Lemma insert_into_classes_consistent id n q d m fk db v db' :
  insert_into_classes id n q d m fk db = Returns (v, db') →
  fts_consistent db → fts_consistent db'.
Proof.
  unfold insert_into_classes. intros Hs [Hc Hf]. statement_cases Hs.
  split; simpl; [|done]. unfold fts5_insert.
  by rewrite fmap_app, Hc.
Qed.

Lemma delete_from_classes_consistent id fk db v db' :
  delete_from_classes id fk db = Returns (v, db') →
  fts_consistent db → fts_consistent db'.
Proof.
  unfold delete_from_classes. intros Hs [Hc Hf]. statement_cases Hs.
  all: unfold fts_consistent;
    destruct (classes_ad_each (filter (λ r, cls_id r = id) (classes db))
                (set_classes (filter (λ r, cls_id r ≠ id) (classes db)) db))
      as (-> & -> & -> & ->); simpl; split; [|done].
  all: apply fts5_delete_each; rewrite Hc;
    apply (values_filter_split classes_fts_values (λ r, cls_id r = id)).
Qed.

Lemma update_classes_consistent id new fk db v db' :
  update_classes id new fk db = Returns (v, db') →
  fts_consistent db → fts_consistent db'.
Proof.
  unfold update_classes. intros Hs [Hc Hf]. statement_cases Hs;
    try (by split).
  all: split; simpl; [|done]; unfold fts5_insert.
  all: match goal with
       | Hold : filter _ (classes ?db) = [?old] |- _ =>
           rewrite (values_replace classes_fts_values (λ r, cls_id r = id)
                      (classes db) old new Hold);
           rewrite (values_filter_split classes_fts_values
                      (λ r, cls_id r = id)), Hold in Hc
       end.
  all: simpl in Hc; rewrite (fts5_delete_Permutation _ _ _ Hc).
  all: by rewrite Permutation_app_comm.
Qed.

Lemma insert_into_functions_consistent id values fk db v db' :
  insert_into_functions id values fk db = Returns (v, db') →
  fts_consistent db → fts_consistent db'.
Proof.
  unfold insert_into_functions. intros Hs [Hc Hf]. statement_cases Hs.
  all: split; simpl; [done|]; unfold fts5_insert.
  all: by rewrite fmap_app, Hf.
Qed.

Lemma delete_from_functions_consistent id fk db v db' :
  delete_from_functions id fk db = Returns (v, db') →
  fts_consistent db → fts_consistent db'.
Proof.
  unfold delete_from_functions. intros Hs [Hc Hf]. statement_cases Hs.
  all: unfold fts_consistent;
    destruct (functions_ad_each (filter (λ r, fn_id r = id) (functions db))
                (set_functions (filter (λ r, fn_id r ≠ id) (functions db)) db))
      as (-> & -> & -> & ->); simpl; split; [done|].
  all: apply fts5_delete_each; rewrite Hf;
    apply (values_filter_split functions_fts_values (λ r, fn_id r = id)).
Qed.

Lemma update_functions_consistent id new fk db v db' :
  update_functions id new fk db = Returns (v, db') →
  fts_consistent db → fts_consistent db'.
Proof.
  unfold update_functions. intros Hs [Hc Hf]. statement_cases Hs;
    try (by split).
  all: split; simpl; [done|]; unfold fts5_insert.
  all: match goal with
       | Hold : filter _ (functions ?db) = [?old] |- _ =>
           rewrite (values_replace functions_fts_values (λ r, fn_id r = id)
                      (functions db) old new Hold);
           rewrite (values_filter_split functions_fts_values
                      (λ r, fn_id r = id)), Hold in Hf
       end.
  all: simpl in Hf; rewrite (fts5_delete_Permutation _ _ _ Hf).
  all: by rewrite Permutation_app_comm.
Qed.

Lemma dml_statement_consistent s fk db db' :
  plain s →
  dml_statement s fk db = Returns db' →
  fts_consistent db → fts_consistent db'.
Proof.
  destruct s; try discriminate; simpl; intros _ Hs Hdb.
  - unfold insert_into_modules in Hs. statement_cases Hs. done.
  - statement_cases Hs. by eapply insert_into_classes_consistent.
  - statement_cases Hs. by eapply update_classes_consistent.
  - statement_cases Hs. by eapply delete_from_classes_consistent.
  - unfold insert_into_class_inheritance in Hs. statement_cases Hs; done.
  - statement_cases Hs. by eapply insert_into_functions_consistent.
  - statement_cases Hs. by eapply update_functions_consistent.
  - statement_cases Hs. by eapply delete_from_functions_consistent.
  - unfold insert_into_parameters in Hs. statement_cases Hs; done.
Qed.

Lemma run_dml_consistent fk db s :
  plain s → fts_consistent db → fts_consistent (run_dml fk db s).
Proof.
  intros Hs Hdb. unfold run_dml.
  destruct (dml_statement s fk db) eqn:Hrun; [|done].
  by eapply dml_statement_consistent.
Qed.

Lemma run_all_consistent fk ss db :
  Forall plain ss →
  fts_consistent db → fts_consistent (run_all fk ss db).
Proof.
  intros Hss. revert db.
  induction Hss as [|s ss Hs Hss IH]; intros db Hdb; [done|].
  apply IH. by apply run_dml_consistent.
Qed.

Lemma new_database_consistent : fts_consistent new_database.
Proof. by split. Qed.

(** ** Searching the class index *)

Section search.
Variable tokenize : string → list string.

Lemma classes_fts_match_inserted token id n q d m fk db v db' :
  token ∈ tokenize_opt tokenize d →
  insert_into_classes id n q d m fk db = Returns (v, db') →
  v ∈ classes_fts_match tokenize token db'.
Proof.
  unfold insert_into_classes. intros Htoken Hs. statement_cases Hs.
  all: unfold classes_fts_match; simpl; unfold fts5_insert.
  all: apply list_elem_of_fmap; eexists; split; [|apply list_elem_of_filter;
         split; [|apply elem_of_app; right; apply list_elem_of_here]].
  all: try done.
  all: unfold classes_fts_tokens; simpl; rewrite !elem_of_app; auto.
Qed.

Lemma classes_fts_match_deleted token id fk db v db' :
  fts_consistent db →
  delete_from_classes id fk db = Returns (v, db') →
  id ∉ classes_fts_match tokenize token db'.
Proof.
  intros Hdb Hs.
  destruct (delete_from_classes_consistent _ _ _ _ _ Hs Hdb) as [Hc _].
  unfold delete_from_classes in Hs. statement_cases Hs.
  all: unfold classes_fts_match; intros Hin.
  all: apply list_elem_of_fmap in Hin as (e & -> & He).
  all: apply list_elem_of_filter in He as [_ He]; rewrite Hc in He.
  all: destruct (classes_ad_each
                   (filter (λ r, cls_id r = cfts_rowid e) (classes db))
                   (set_classes
                      (filter (λ r, cls_id r ≠ cfts_rowid e) (classes db)) db))
         as (_ & Hrows & _); rewrite Hrows in He; simpl in He.
  all: apply list_elem_of_fmap in He as (r & -> & Hr).
  all: by apply list_elem_of_filter in Hr as [Hne _].
Qed.
End search.

(** C3 (as amended).  After any sequence of plain inserts, updates
    and deletes (none with an [OR REPLACE] conflict clause), run from
    the new schema, each full-text index holds exactly one entry per
    row of its table: the row's rowid with its name, qualified name and
    docstring
    (and signature text, for functions).  In particular a class
    inserted with a docstring that contains a token is found by a
    search for that token, and once the class is deleted the search no
    longer returns it. *)
Theorem fts_index_mirrors_tables (tokenize : string → list string)
    (fk : bool) (statements : list dml) :
  Forall plain statements →
  let db := run_all fk statements new_database in
  (classes_fts db
   ≡ₚ (fun r => {| cfts_rowid := cls_id r; cfts_name := cls_name r;
                   cfts_full_qualified_name := cls_full_qualified_name r;
                   cfts_docstring := cls_docstring r |}) <$> classes db
   ∧ functions_fts db
     ≡ₚ (fun r => {| ffts_rowid := fn_id r; ffts_name := fn_name r;
                     ffts_full_qualified_name := fn_full_qualified_name r;
                     ffts_docstring := fn_docstring r;
                     ffts_signature_string := fn_signature_string r |})
          <$> functions db)
  ∧ ∀ token name full_qualified_name docstring module_id id db1,
      token ∈ tokenize_opt tokenize docstring →
      insert_into_classes None name full_qualified_name docstring module_id
                          fk db = Returns (id, db1) →
      id ∈ classes_fts_match tokenize token db1
      ∧ ∀ db2, delete_from_classes id fk db1 = Returns (tt, db2) →
               id ∉ classes_fts_match tokenize token db2.
Proof.
  intros Hplain db.
  assert (Hdb : fts_consistent db)
    by (by apply run_all_consistent, new_database_consistent).
  split; [exact Hdb|].
  intros token name fqn doc mid id db1 Htoken Hins. split.
  - by eapply classes_fts_match_inserted.
  - intros db2 Hdel. eapply classes_fts_match_deleted; [|done].
    by eapply insert_into_classes_consistent.
Qed.

Lemma fts_index_mirrors_tables_witness :
  let db := run_all true [InsertModule "m" None] new_database in
  ∃ id db1 db2,
    insert_into_classes None "C" "m.C" (Some "A fast parser") 1 true db
    = Returns (id, db1)
    ∧ id ∈ classes_fts_match String.words "parser" db1
    ∧ delete_from_classes id true db1 = Returns (tt, db2)
    ∧ id ∉ classes_fts_match String.words "parser" db2.
Proof.
  intros db.
  destruct (insert_into_classes None "C" "m.C" (Some "A fast parser") 1 true db)
    as [[id db1]|] eqn:Hins; [|by vm_compute in Hins].
  destruct (delete_from_classes id true db1) as [[[] db2]|] eqn:Hdel;
    [|vm_compute in Hins; injection Hins as <- <-; by vm_compute in Hdel].
  exists id, db1, db2.
  destruct (fts_index_mirrors_tables String.words true
              [InsertModule "m" None]) as [_ Hsearch];
    [by repeat constructor|].
  destruct (Hsearch "parser" "C" "m.C" (Some "A fast parser") 1 id db1)
    as [Hin Hout]; [apply (bool_decide_unpack _); by vm_compute | exact Hins |].
  split; [done|]. split; [exact Hin|]. split; [done|]. by apply Hout.
Defined.

(** C3 as first stated: an [INSERT OR REPLACE] on a qualified name that
    is taken deletes the old row without running [classes_ad], so the
    index keeps the entry of a row that is gone: the table holds the
    one class with rowid 2, and a search for the old docstring still
    returns rowid 1. *)
Lemma insert_or_replace_leaves_stale_entry :
  let db := run_all true
              [InsertModule "m" None;
               InsertClass None "C" "m.C" (Some "alpha") 1;
               InsertOrReplaceClass None "C" "m.C" (Some "beta") 1]
              new_database in
  classes db = [{| cls_id := 2; cls_name := "C";
                   cls_full_qualified_name := "m.C";
                   cls_docstring := Some "beta"; cls_module_id := 1 |}]
  ∧ classes_fts_match String.words "alpha" db = [1%Z]
  ∧ ¬ classes_fts db
      ≡ₚ (fun r => {| cfts_rowid := cls_id r; cfts_name := cls_name r;
                      cfts_full_qualified_name := cls_full_qualified_name r;
                      cfts_docstring := cls_docstring r |}) <$> classes db.
Proof.
  intros db. split; [by vm_compute|]. split; [by vm_compute|].
  intros Hmirror. apply Permutation_length in Hmirror.
  by vm_compute in Hmirror.
Qed.

(** ** Reasoning about methods *)

Local Open Scope method_scope.

Lemma ModuleData_ind (P : ModuleData → Prop) :
  (∀ name docstring classes functions submodules,
     Forall P submodules →
     P (mkModule name docstring classes functions submodules)) →
  ∀ m, P m.
Proof.
  intros Hstep. fix IH 1. intros [name docstring classes functions submodules].
  apply Hstep. induction submodules as [|m ms IHms]; constructor.
  - apply IH.
  - apply IHms.
Qed.

Lemma bind_Returns {A B} (m : method A) (k : A → method B) w b w' :
  bind m k w = (Returns b, w') →
  ∃ a w1, m w = (Returns a, w1) ∧ k a w1 = (Returns b, w').
Proof.
  unfold bind. destruct (m w) as [[a|e] w1]; [|done]. by exists a, w1.
Qed.


Lemma the_conn_Returns w c w' :
  the_conn w = (Returns c, w') → w' = w ∧ conn (self w) = Some c.
Proof.
  unfold the_conn. destruct (conn (self w)) as [c'|]; [|done].
  destruct (conn_closed c'); [done|]. by intros [= <- <-].
Qed.

Lemma execute_Returns {A} (stmt : statement A) w a w' :
  execute stmt w = (Returns a, w') →
  ∃ c, conn (self w) = Some c
       ∧ stmt (conn_foreign_keys c) (view w) = Returns (a, view w')
       ∧ files w' = files w.
Proof.
  unfold execute. intros (c & w1 & [-> Hc]%the_conn_Returns & Hk)%bind_Returns.
  exists c. split; [done|]. unfold view at 1. rewrite Hc.
  destruct (stmt _ _) as [[a' db]|e]; [|done].
  apply bind_Returns in Hk as ([] & w2 & [= <-] & [= <- <-]). done.
Qed.

Section keeps.
Context (R : relation world) `{!PreOrder R}.

Lemma keeps_ret {A} (a : A) : keeps R (ret a).
Proof. intros w. simpl. reflexivity. Qed.

Lemma keeps_raise {A} e : keeps R (raise (A:=A) e).
Proof. intros w. simpl. reflexivity. Qed.

Lemma keeps_the_conn : keeps R the_conn.
Proof.
  intros w. unfold the_conn.
  destruct (conn (self w)) as [c|]; [destruct (conn_closed c)|];
    simpl; reflexivity.
Qed.

Lemma keeps_bind {A B} (m : method A) (k : A → method B) :
  keeps R m → (∀ a, keeps R (k a)) → keeps R (bind m k).
Proof.
  intros Hm Hk w. unfold bind. specialize (Hm w).
  destruct (m w) as [[a|e] w1]; simpl in *; [|done].
  etrans; [exact Hm|apply Hk].
Qed.

Lemma keeps_for_each {X} (xs : list X) (body : X → method unit) :
  (∀ x, keeps R (body x)) → keeps R (for_each xs body).
Proof.
  intros Hbody. induction xs as [|x xs IH]; simpl.
  - apply keeps_ret.
  - apply keeps_bind; [apply Hbody|]. intros _. apply IH.
Qed.
End keeps.

#[local] Instance same_files_preorder : PreOrder same_files.
Proof.
  split; [by intros w|]. intros w1 w2 w3 H12 H23. unfold same_files in *.
  congruence.
Qed.

#[local] Instance unchanged_preorder {T} (part : database → T) :
  PreOrder (unchanged part).
Proof.
  split; [by intros w|]. intros w1 w2 w3 H12 H23. unfold unchanged in *.
  congruence.
Qed.

Lemma keeps_execute_files {A} (stmt : statement A) :
  keeps same_files (execute stmt).
Proof.
  intros w. unfold execute, bind, the_conn.
  destruct (conn (self w)) as [c|]; [|done].
  destruct (conn_closed c); [done|].
  by destruct (stmt _ _) as [[a db]|e].
Qed.

Lemma keeps_execute_unchanged {A T} (stmt : statement A) (part : database → T) :
  (∀ fk db a db', stmt fk db = Returns (a, db') → part db' = part db) →
  keeps (unchanged part) (execute stmt).
Proof.
  intros Hstmt w. unfold unchanged, execute, bind, the_conn.
  destruct (conn (self w)) as [c|] eqn:Hc; [|done].
  destruct (conn_closed c); [done|].
  destruct (stmt _ _) as [[a db]|e] eqn:Hs; simpl; [|done].
  unfold view. simpl. rewrite Hc. eapply Hstmt, Hs.
Qed.

Lemma remember_module_id_files name id : keeps same_files (remember_module_id name id).
Proof. by intros w. Qed.

Lemma remember_class_id_files name id : keeps same_files (remember_class_id name id).
Proof. by intros w. Qed.

Lemma remember_class_id_unchanged {T} (part : database → T) name id :
  keeps (unchanged part) (remember_class_id name id).
Proof. by intros w. Qed.

(** ** What [insert_function] leaves alone *)

Lemma insert_into_functions_other_tables id values fk db v db' :
  insert_into_functions id values fk db = Returns (v, db') →
  classes db' = classes db ∧ class_inheritance db' = class_inheritance db.
Proof. unfold insert_into_functions. intros Hs. by statement_cases Hs. Qed.

Lemma insert_into_parameters_other_tables f n k a d p fk db v db' :
  insert_into_parameters f n k a d p fk db = Returns (v, db') →
  classes db' = classes db ∧ class_inheritance db' = class_inheritance db.
Proof. unfold insert_into_parameters. intros Hs. by statement_cases Hs. Qed.

Lemma insert_function_unchanged {T} (part : database → T) func_data module_id class_id :
  (∀ id values fk db v db',
     insert_into_functions id values fk db = Returns (v, db') →
     part db' = part db) →
  (∀ f n k a d p fk db v db',
     insert_into_parameters f n k a d p fk db = Returns (v, db') →
     part db' = part db) →
  keeps (unchanged part) (insert_function func_data module_id class_id).
Proof.
  intros Hfn Hpar. unfold insert_function.
  apply keeps_bind; [apply _ | apply keeps_the_conn; apply _ |]. intros _.
  apply keeps_bind; [apply _ | apply keeps_execute_unchanged; eauto |].
  intros function_id. apply keeps_for_each; [apply _|].
  intros [position param_data].
  apply keeps_bind; [apply _ | apply keeps_execute_unchanged; eauto |].
  intros _. apply keeps_ret; apply _.
Qed.

Lemma insert_function_files func_data module_id class_id :
  keeps same_files (insert_function func_data module_id class_id).
Proof.
  unfold insert_function.
  apply keeps_bind; [apply _ | apply keeps_the_conn; apply _ |]. intros _.
  apply keeps_bind; [apply _ | apply keeps_execute_files |].
  intros function_id. apply keeps_for_each; [apply _|].
  intros [position param_data].
  apply keeps_bind; [apply _ | apply keeps_execute_files |].
  intros _. apply keeps_ret; apply _.
Qed.

(** ** The inheritance edges of [insert_class] *)

Lemma insert_bases_Returns class_id bases w w' :
  for_each bases
    (fun base => execute (insert_into_class_inheritance class_id base)) w
  = (Returns tt, w') →
  class_inheritance (view w')
  = class_inheritance (view w)
      ++ ((fun base => {| inh_class_id := class_id;
                          inh_base_class_name := base |}) <$> bases)
  ∧ classes (view w') = classes (view w).
Proof.
  revert w. induction bases as [|base bases IH]; intros w; simpl.
  - intros [= <-]. by rewrite app_nil_r.
  - intros ([] & w1 & Hins & Hrest)%bind_Returns.
    apply execute_Returns in Hins as (c & _ & Hstmt & _).
    apply IH in Hrest as [-> ->].
    unfold insert_into_class_inheritance in Hstmt. statement_cases Hstmt.
    rewrite <- Hstmt. simpl. by rewrite <- app_assoc.
Qed.

Lemma for_each_keeps_after {X} (R : relation world) `{!PreOrder R}
    (xs : list X) (body : X → method unit) w r w' :
  (∀ x, keeps R (body x)) → for_each xs body w = (r, w') → R w w'.
Proof.
  intros Hbody Hrun. pose proof (keeps_for_each R xs body Hbody w) as HR.
  by rewrite Hrun in HR.
Qed.

Lemma insert_into_classes_Returns id n q d m fk db v db' :
  insert_into_classes id n q d m fk db = Returns (v, db') →
  classes db'
  = classes db
      ++ [{| cls_id := v; cls_name := n; cls_full_qualified_name := q;
             cls_docstring := d; cls_module_id := m |}]
  ∧ class_inheritance db' = class_inheritance db.
Proof. unfold insert_into_classes. intros Hs. by statement_cases Hs. Qed.

(** C2 (as amended).  A class that [insert_class] inserts gets exactly
    one inheritance-edge row per name of its bases list, in the order of
    the list, the name [object] included when the list has it. *)
Theorem insert_class_inheritance_rows class_data module_id w w' :
  insert_class class_data module_id w = (Returns tt, w') →
  ∃ class_id,
    classes (view w')
    = classes (view w)
        ++ [{| cls_id := class_id; cls_name := class_name class_data;
               cls_full_qualified_name := class_qualified_name class_data;
               cls_docstring := class_docstring class_data;
               cls_module_id := module_id |}]
    ∧ class_inheritance (view w')
      = class_inheritance (view w)
          ++ ((fun base => {| inh_class_id := class_id;
                              inh_base_class_name := base |})
                <$> class_bases class_data).
Proof.
  unfold insert_class.
  intros (c & w0 & [-> _]%the_conn_Returns & Hrun)%bind_Returns.
  apply bind_Returns in Hrun as (class_id & w1 & Hins & Hrun).
  apply bind_Returns in Hrun as ([] & w2 & Hrem & Hrun).
  apply bind_Returns in Hrun as ([] & w3 & Hbases & Hmethods).
  exists class_id.
  apply execute_Returns in Hins as (c' & _ & Hstmt & _).
  assert (Hview : view w2 = view w1) by (by injection Hrem as <-).
  apply insert_bases_Returns in Hbases as [Hinh Hcls].
  assert (classes (view w') = classes (view w3)
          ∧ class_inheritance (view w') = class_inheritance (view w3))
    as [-> ->].
  { split.
    - eapply (for_each_keeps_after (unchanged classes)); [|exact Hmethods].
      intros f. apply insert_function_unchanged; intros.
      + by eapply insert_into_functions_other_tables.
      + by eapply insert_into_parameters_other_tables.
    - eapply (for_each_keeps_after (unchanged class_inheritance));
        [|exact Hmethods].
      intros f. apply insert_function_unchanged; intros.
      + by eapply insert_into_functions_other_tables.
      + by eapply insert_into_parameters_other_tables. }
  apply insert_into_classes_Returns in Hstmt as [Hcls1 Hinh1].
  by rewrite Hinh, Hcls, Hview, Hcls1, Hinh1.
Qed.

(** C2 as first stated: ingesting scenario A, whose class has the bases
    list [["object"]], leaves one inheritance-edge row, for [object]. *)
Lemma scenario_A_keeps_the_object_edge :
  ∃ stats db,
    (create scenario_A {| self := __init__ "api.db" false; files := ∅ |}).1
    = Returns stats
    ∧ files (create scenario_A
               {| self := __init__ "api.db" false; files := ∅ |}).2
        !! "api.db" = Some (SqliteFile db)
    ∧ class_bases <$> module_classes scenario_A = [["object"]]
    ∧ classes_count stats = 1
    ∧ class_inheritance db
      = [{| inh_class_id := 1; inh_base_class_name := "object" |}]
    ∧ length (class_inheritance db) ≠ 0%nat.
Proof. eexists _, _. split; [by vm_compute|]. by vm_compute. Qed.

Lemma insert_class_inheritance_rows_witness :
  let w := (create_schema ;; insert_module (module_only "m"))
             (connected "test.db") in
  ∃ class_id,
    class_inheritance (view (insert_class (class_C ["object"; "Base"]) 1 w.2).2)
    = [{| inh_class_id := class_id; inh_base_class_name := "object" |};
       {| inh_class_id := class_id; inh_base_class_name := "Base" |}].
Proof.
  intros w.
  destruct (insert_class_inheritance_rows (class_C ["object"; "Base"]) 1 w.2
              (insert_class (class_C ["object"; "Base"]) 1 w.2).2)
    as (class_id & _ & Hinh); [by vm_compute|].
  exists class_id. exact Hinh.
Defined.

(** ** Ingestion: the files during [process_module] *)

Lemma insert_module_files module_data : keeps same_files (insert_module module_data).
Proof.
  unfold insert_module.
  apply keeps_bind; [apply _ | apply keeps_the_conn; apply _ |]. intros _.
  apply keeps_bind; [apply _ | apply keeps_execute_files |]. intros module_id.
  apply keeps_bind; [apply _ | apply remember_module_id_files |]. intros _.
  apply keeps_ret; apply _.
Qed.

Lemma insert_class_files class_data module_id :
  keeps same_files (insert_class class_data module_id).
Proof.
  unfold insert_class.
  apply keeps_bind; [apply _ | apply keeps_the_conn; apply _ |]. intros _.
  apply keeps_bind; [apply _ | apply keeps_execute_files |]. intros class_id.
  apply keeps_bind; [apply _ | apply remember_class_id_files |]. intros _.
  apply keeps_bind; [apply _ | |].
  - apply keeps_for_each; [apply _|]. intros base. apply keeps_execute_files.
  - intros _. apply keeps_for_each; [apply _|]. intros f.
    apply insert_function_files.
Qed.

Lemma process_module_files module_data :
  keeps same_files (process_module module_data).
Proof.
  induction module_data as [name doc classes functions submodules IH]
    using ModuleData_ind.
  simpl.
  apply keeps_bind; [apply _ | apply insert_module_files |]. intros module_id.
  apply keeps_bind; [apply _ | |].
  { apply keeps_for_each; [apply _|]. intros c. apply insert_class_files. }
  intros _. apply keeps_bind; [apply _ | |].
  { apply keeps_for_each; [apply _|]. intros f. apply insert_function_files. }
  intros _. induction IH as [|m ms Hm _ IHms].
  - apply keeps_ret; apply _.
  - apply keeps_bind; [apply _ | exact Hm |]. intros _. exact IHms.
Qed.

(** ** Which calls can raise [IntegrityError] *)





Lemma unlink_if_exists (path : string) (fs : gmap string file) :
  (if bool_decide (is_Some (fs !! path)) then delete path fs else fs)
  = delete path fs.
Proof.
  case_bool_decide as Hsome; [done|]. symmetry. apply delete_id.
  by apply eq_None_not_Some.
Qed.

(** ** [create] *)

(** The world in which [create] starts to populate: the old file is
    gone, a new one holds the schema and no row, and the connection is
    open on it with [foreign_keys] on. *)
Lemma create_unfold json_data w :
  let path := db_path (self w) in
  create json_data w
  = try_finally (populate_database json_data ;; print_statistics) close
      {| self := set_conn
                   (Some {| conn_path := path; conn_view := new_database;
                            conn_foreign_keys := true; conn_closed := false |})
                   (self w);
         files := <[path := SqliteFile new_database]>
                    (<[path := SqliteFile empty_database]>
                       (delete path (files w))) |}.
Proof.
  intros path. unfold create. rewrite unlink_if_exists.
  unfold sqlite3_connect. fold path. rewrite lookup_delete_eq. reflexivity.
Qed.




(** C9.  [create] removes whatever file is at the database path before
    it creates the schema and populates: two calls that differ only in
    what that path held before (a database, another file, or nothing)
    return the same and leave the same files. *)
Theorem create_replaces_existing_file json_data (o : DatabaseCreator)
    (files1 files2 : gmap string file) :
  (∀ path, path ≠ db_path o → files1 !! path = files2 !! path) →
  create json_data {| self := o; files := files1 |}
  = create json_data {| self := o; files := files2 |}.
Proof.
  intros Hother. rewrite !create_unfold. simpl.
  replace (delete (db_path o) files1) with (delete (db_path o) files2); [done|].
  apply map_eq. intros path. destruct (decide (path = db_path o)) as [->|Hne].
  - by rewrite !lookup_delete_eq.
  - rewrite !lookup_delete_ne by done. symmetry. by apply Hother.
Qed.

Lemma create_replaces_existing_file_witness :
  create scenario_A
    {| self := __init__ "api.db" false;
       files := {[ "api.db" := SqliteFile
                                 (run_all true [InsertModule "old" None]
                                          new_database) ]} |}
  = create scenario_A {| self := __init__ "api.db" false; files := ∅ |}.
Proof.
  apply create_replaces_existing_file. intros path Hne.
  rewrite lookup_empty. by apply lookup_singleton_ne.
Defined.

(** ** Scenario A of the design, run on data *)

Example scenario_A_rows :
  ∃ stats db,
    create scenario_A {| self := __init__ "api.db" false; files := ∅ |}
    = (Returns stats,
       {| self := self (create scenario_A
                          {| self := __init__ "api.db" false;
                             files := ∅ |}).2;
          files := {[ "api.db" := SqliteFile db ]} |})
    ∧ modules_count stats = 1 ∧ classes_count stats = 1
    ∧ functions_count stats = 1 ∧ methods_count stats = 0
    ∧ parameters_count stats = 2
    ∧ fn_class_id <$> functions db = [None]
    ∧ par_position <$> parameters db = [0; 1]
    ∧ par_default_value <$> parameters db = [None; Some "5"].
Proof. eexists _, _. split; [by vm_compute|]. by vm_compute. Qed.

(** ** The modules table *)

(** C1.  The property asks for a [root_module] field on every stored
    module row.  Run on the modules [pkg.a] and [pkg.b], [insert_module]
    stores the rows with their id, name and docstring; the table has no
    [root_module] column, and the query by [root_module] is refused. *)
Theorem insert_module_stores_no_root_module :
  let run := (create_schema ;;
              (_ <- insert_module (module_only "pkg.a") ;;
               insert_module (module_only "pkg.b"))) (connected "test.db") in
  run.1 = Returns 2
  ∧ modules (view run.2)
    = [{| mod_id := 1; mod_name := "pkg.a"; mod_docstring := None |};
       {| mod_id := 2; mod_name := "pkg.b"; mod_docstring := None |}]
  ∧ ("root_module" ∉ modules_columns)
  ∧ (∀ row, modules_column "root_module" row = None)
  ∧ (execute (select_name_from_modules_where "root_module" (SqlText "pkg"))
             run.2).1 = Raises OperationalError
  ∧ (execute (select_name_from_modules_where "name" (SqlText "pkg.a"))
             run.2).1 = Returns ["pkg.a"].
Proof.
  intros run. split; [by vm_compute|]. split; [by vm_compute|].
  split; [by apply (bool_decide_unpack _); vm_compute|].
  split; [done|]. split; by vm_compute.
Qed.
End create_database_properties.

(** * More on the partitioner: the export and the command *)

Module divide_entities_export.
Import create_database divide_entities divide_entities_properties.
Import export_order.

(** ** [ORDER BY type, name] *)

Lemma insert_ordered_Permutation r sorted :
  insert_ordered r sorted ≡ₚ r :: sorted.
Proof.
  induction sorted as [|x sorted IH]; simpl; [done|].
  destruct (order_key_leb x r); [|done].
  by rewrite IH, Permutation_swap.
Qed.

Lemma order_by_type_name_Permutation rows :
  order_by_type_name rows ≡ₚ rows.
Proof.
  unfold order_by_type_name.
  assert (∀ acc, foldl (fun sorted r => insert_ordered r sorted) acc rows
                 ≡ₚ acc ++ rows) as Hfold.
  { induction rows as [|r rows IH]; intros acc; simpl.
    - by rewrite app_nil_r.
    - rewrite IH, insert_ordered_Permutation.
      by rewrite (Permutation_middle acc rows r). }
  by rewrite Hfold.
Qed.

(** A row that sorts after every row of [front] is inserted behind
    [front]. *)
Lemma insert_ordered_behind r front sorted :
  Forall (fun x => order_key_leb x r = true) front →
  insert_ordered r (front ++ sorted) = front ++ insert_ordered r sorted.
Proof.
  induction 1 as [|x front Hx _ IH]; simpl; [done|]. by rewrite Hx, IH.
Qed.

Lemma class_before_function (c : classes_row) (f : functions_row) :
  order_key_leb (class_entity c) (function_entity f) = true.
Proof. done. Qed.

Lemma order_by_type_name_split (cs : list classes_row) (fs : list functions_row) :
  order_by_type_name ((class_entity <$> cs) ++ (function_entity <$> fs))
  = order_by_type_name (class_entity <$> cs)
      ++ order_by_type_name (function_entity <$> fs).
Proof.
  unfold order_by_type_name. rewrite foldl_app.
  set (front := foldl _ [] (class_entity <$> cs)).
  assert (Hfront : Forall (fun x => ∃ c, x = class_entity c) front).
  { apply Forall_forall. intros x Hx.
    assert (x ∈ class_entity <$> cs) as (c & -> & _)%list_elem_of_fmap
      by (by rewrite <- (order_by_type_name_Permutation (class_entity <$> cs))).
    by exists c. }
  clearbody front.
  assert (∀ acc,
            Forall (fun x => ∃ f, x = function_entity f) acc →
            foldl (fun sorted r => insert_ordered r sorted) (front ++ acc)
                  (function_entity <$> fs)
            = front ++ foldl (fun sorted r => insert_ordered r sorted) acc
                             (function_entity <$> fs)) as Hfold.
  { induction fs as [|f fs IH]; intros acc Hacc; simpl; [done|].
    rewrite insert_ordered_behind.
    - apply IH. apply Forall_forall. intros x Hx.
      rewrite insert_ordered_Permutation in Hx.
      apply elem_of_cons in Hx as [->|Hx]; [by exists f|].
      by apply (proj1 (Forall_forall _ _) Hacc).
    - apply Forall_forall. intros x Hx.
      destruct (proj1 (Forall_forall _ _) Hfront x Hx) as [c ->].
      apply class_before_function. }
  rewrite <- (app_nil_r front) at 1. by apply Hfold.
Qed.

(** Among rows of one type the order is the order of the names. *)
Lemma insert_ordered_Sorted (type : string) r sorted :
  r.1.1.1 = type → Forall (fun x => x.1.1.1 = type) sorted →
  Sorted name_le sorted → Sorted name_le (insert_ordered r sorted).
Proof.
  intros Hr Htype Hsorted. revert Htype.
  induction Hsorted as [|x sorted Hsorted IH Hhd]; intros Htype; simpl.
  { by repeat constructor. }
  apply Forall_cons in Htype as [Hx Htype].
  assert (Hkey : ∀ a b : entity_row,
            a.1.1.1 = type → b.1.1.1 = type →
            order_key_leb a b = String.leb a.1.2 b.1.2).
  { intros [[[ta ia] na] qa] [[[tb ib] nb] qb]; simpl. intros -> ->.
    assert (String.compare type type = Eq) as ->; [|done].
    pose proof (String.compare_antisym type type) as Hsym.
    by destruct (String.compare type type). }
  destruct (order_key_leb x r) eqn:Hxr.
  - constructor; [by apply IH|].
    rewrite Hkey in Hxr by done.
    destruct sorted as [|y sorted]; simpl; [by constructor|].
    destruct (order_key_leb y r); constructor; [|done].
    by inversion Hhd.
  - constructor; [by constructor|]. constructor.
    rewrite Hkey in Hxr by done. unfold name_le.
    by destruct (String.leb_total r.1.2 x.1.2) as [?|?]; [|congruence].
Qed.

Lemma order_by_type_name_Sorted (type : string) rows :
  Forall (fun x => x.1.1.1 = type) rows →
  Sorted name_le (order_by_type_name rows).
Proof.
  unfold order_by_type_name. intros Hrows.
  assert (∀ acc,
            Forall (fun x => x.1.1.1 = type) acc → Sorted name_le acc →
            Sorted name_le
              (foldl (fun sorted r => insert_ordered r sorted) acc rows))
    as Hfold.
  { induction Hrows as [|r rows Hr _ IH]; intros acc Hacc Hsorted; simpl;
      [done|].
    apply IH.
    - apply Forall_forall. intros x Hx.
      rewrite insert_ordered_Permutation in Hx.
      apply elem_of_cons in Hx as [->|Hx]; [done|].
      by apply (proj1 (Forall_forall _ _) Hacc).
    - by eapply insert_ordered_Sorted. }
  apply Hfold; constructor.
Qed.

(** ** [export_entities] *)

(** X1.  On a database that has the tables, the export returns the
    classes and then the functions, each in the order of their names,
    one dict per row, and leaves every file as it was. *)
Theorem export_entities_ordered db_path files db :
  files !! db_path = Some (SqliteFile db) → has_schema db = true →
  ∃ cs fs,
    export_entities db_path files
    = (Returns (dict_of_row <$> (cs ++ fs)), files)
    ∧ cs ≡ₚ class_entity <$> classes db
    ∧ fs ≡ₚ function_entity <$> functions db
    ∧ Sorted name_le cs ∧ Sorted name_le fs
    ∧ length (cs ++ fs) = (length (classes db) + length (functions db))%nat.
Proof.
  intros Hfile Hschema.
  exists (order_by_type_name (class_entity <$> classes db)),
         (order_by_type_name (function_entity <$> functions db)).
  split.
  { unfold export_entities, sqlite3_connect. rewrite Hfile. simpl.
    unfold select_entities. rewrite Hschema. simpl.
    by rewrite order_by_type_name_split. }
  split; [apply order_by_type_name_Permutation|].
  split; [apply order_by_type_name_Permutation|].
  split.
  { apply (order_by_type_name_Sorted "CLASS"), Forall_forall.
    by intros x (c & -> & _)%list_elem_of_fmap. }
  split.
  { apply (order_by_type_name_Sorted "FUNCTION"), Forall_forall.
    by intros x (f & -> & _)%list_elem_of_fmap. }
  by rewrite length_app, !order_by_type_name_Permutation, !length_fmap.
Qed.

Lemma export_entities_ordered_witness :
  let db := run_all true
              [InsertModule "m" None;
               InsertFunction None
                 {| fn_id := 0; fn_name := "g"; fn_full_qualified_name := "m.g";
                    fn_signature_string := "()"; fn_docstring := None;
                    fn_return_annotation := None; fn_is_async := 0;
                    fn_is_classmethod := 0; fn_is_staticmethod := 0;
                    fn_class_id := None; fn_module_id := 1 |};
               InsertClass None "Z" "m.Z" None 1;
               InsertClass None "A" "m.A" None 1] new_database in
  (export_entities "api.db" {[ "api.db" := SqliteFile db ]}).1
  = Returns (dict_of_row <$> [("CLASS", 2%Z, "A", "m.A");
                              ("CLASS", 1%Z, "Z", "m.Z");
                              ("FUNCTION", 1%Z, "g", "m.g")]).
Proof.
  intros db.
  destruct (export_entities_ordered "api.db" {[ "api.db" := SqliteFile db ]} db)
    as (cs & fs & Hexport & _); [by vm_compute | by vm_compute |].
  by vm_compute.
Defined.



(** ** The group files *)
















Section command.
Context {random : PyRandom}.

Lemma divide_entities_no_groups {A} (E : list A) g :
  (divide_entities E 0 g).1 = Raises ZeroDivisionError
  ∧ ∀ n, (n < 0)%Z → (divide_entities E n g).1 = Returns [].
Proof.
  split.
  - unfold divide_entities. by destruct (shuffle E (rng_seed 42)).
  - intros n Hn. rewrite divide_entities_groups by lia.
    by replace (Z.to_nat n) with 0%nat by lia.
Qed.


(** X4.  The runs that write nothing, on a database whose export
    succeeds.  With [--groups 0] the command stops with
    [ZeroDivisionError] before it looks at the output directory.  With
    a negative number it makes the output directory and returns 0.
    With any number but 0, if the directory cannot be made, [mkdir]
    raises [FileExistsError] or [NotADirectoryError] and the process
    ends with status 1. *)
Theorem main_without_groups (a : args) files g entities :
  let db_path := path_str (Path (arg_database a)) in
  let output_dir := Path (arg_output_dir a) in
  is_Some (files !! db_path) →
  export_entities db_path files = (Returns entities, files) →
  (arg_groups a = 0%Z →
     (main a files g).1 = (Raises ZeroDivisionError, files)
     ∧ exit_status (main a files g).1.1 = 1%Z)
  ∧ ((arg_groups a < 0)%Z → mkdir output_dir files = Returns tt →
     (main a files g).1 = (Returns 0%Z, files))
  ∧ (arg_groups a ≠ 0%Z → ∀ e, mkdir output_dir files = Raises e →
     (main a files g).1 = (Raises e, files)
     ∧ exit_status (main a files g).1.1 = 1%Z
     ∧ (e = FileExistsError ∨ e = NotADirectoryError)).
Proof.
  intros db_path output_dir Hsome Hexport.
  assert (Hmain : (main a files g).1
            = match (divide_entities entities (arg_groups a) g).1 with
              | Raises e => (Raises e, files)
              | Returns groups =>
                  match mkdir output_dir files with
                  | Raises e => (Raises e, files)
                  | Returns _ =>
                      (Returns 0%Z,
                       write_groups (arg_output_dir a) groups files)
                  end
              end).
  { unfold main, is_file. fold db_path output_dir.
    rewrite bool_decide_eq_true_2 by done. simpl. rewrite Hexport.
    destruct (divide_entities entities (arg_groups a) g) as [[groups|e] g'];
      simpl; [|done].
    by destruct (mkdir output_dir files). }
  destruct (divide_entities_no_groups entities g) as [Hzero Hnegative].
  split; [|split].
  - intros Hn. rewrite Hmain, Hn, Hzero. done.
  - intros Hn Hmkdir. by rewrite Hmain, (Hnegative _ Hn), Hmkdir.
  - intros Hn e Hmkdir.
    assert (∃ groups,
              (divide_entities entities (arg_groups a) g).1 = Returns groups)
      as [groups Hret].
    { destruct (Z.lt_ge_cases (arg_groups a) 0) as [Hneg|Hpos].
      - eauto.
      - destruct (divide_entities_spec entities (arg_groups a) g)
          as (groups & Hret & _); [lia|eauto]. }
    rewrite Hmain, Hret, Hmkdir. simpl.
    split; [done|]. split; [done|]. by eapply mkdir_raises.
Qed.
End command.


Lemma main_without_groups_witness :
  let files : gmap string file := {[ "api.db" := SqliteFile two_classes ]} in
  (main (random:=lcg)
     {| arg_database := "api.db"; arg_groups := 0; arg_output_dir := "/tmp" |}
     files 0%Z).1 = (Raises ZeroDivisionError, files)
  ∧ (main (random:=lcg)
       {| arg_database := "api.db"; arg_groups := -3; arg_output_dir := "/tmp" |}
       files 0%Z).1 = (Returns 0%Z, files)
  ∧ (main (random:=lcg)
       {| arg_database := "api.db"; arg_groups := 2;
          arg_output_dir := "api.db/groups" |}
       files 0%Z).1 = (Raises NotADirectoryError, files).
Proof.
  intros files.
  set (entities := dict_of_row <$> [("CLASS", 2%Z, "A", "m.A");
                                    ("CLASS", 1%Z, "Z", "m.Z")]).
  assert (Hsome : is_Some (files !! "api.db")) by (vm_compute; eauto).
  assert (Hexport : export_entities "api.db" files
                    = (Returns entities, files)) by (by vm_compute).
  split; [|split].
  - destruct (main_without_groups (random:=lcg)
                {| arg_database := "api.db"; arg_groups := 0;
                   arg_output_dir := "/tmp" |} files 0%Z entities
                Hsome Hexport) as (Hzero & _ & _).
    exact (proj1 (Hzero eq_refl)).
  - destruct (main_without_groups (random:=lcg)
                {| arg_database := "api.db"; arg_groups := -3;
                   arg_output_dir := "/tmp" |} files 0%Z entities
                Hsome Hexport) as (_ & Hnegative & _).
    apply Hnegative; [simpl; lia | by vm_compute].
  - destruct (main_without_groups (random:=lcg)
                {| arg_database := "api.db"; arg_groups := 2;
                   arg_output_dir := "api.db/groups" |} files 0%Z entities
                Hsome Hexport) as (_ & _ & Hfails).
    apply Hfails; [done | by vm_compute].
Defined.

(** ** Cutting the same sequence *)

(** X5.  The number of groups only decides where the shuffled sequence
    is cut: for any two numbers of groups, both at least 1, the groups
    put end to end are the same sequence. *)
Theorem divide_entities_regrouping {random : PyRandom} {A} (E : list A)
    (n m : Z) g g' :
  (1 ≤ n)%Z → (1 ≤ m)%Z →
  ∃ groups groups',
    (divide_entities E n g).1 = Returns groups
    ∧ (divide_entities E m g').1 = Returns groups'
    ∧ mjoin groups = mjoin groups'.
Proof.
  intros Hn Hm.
  destruct (divide_entities_spec E n g Hn) as (groups & Hret & _ & Hjoin & _).
  destruct (divide_entities_spec E m g' Hm) as (groups' & Hret' & _ & Hjoin' & _).
  exists groups, groups'. by rewrite Hjoin, Hjoin'.
Qed.

Lemma divide_entities_regrouping_witness :
  ∃ groups groups',
    (divide_entities (random:=lcg) [10; 20; 30; 40; 50]%Z 2 0%Z).1
    = Returns groups
    ∧ (divide_entities (random:=lcg) [10; 20; 30; 40; 50]%Z 3 9%Z).1
      = Returns groups'
    ∧ mjoin groups = mjoin groups'.
Proof.
  apply (divide_entities_regrouping (random:=lcg)
           [10; 20; 30; 40; 50]%Z 2 3 0%Z 9%Z); lia.
Defined.
End divide_entities_export.

(** * More on the database: what the loader stores *)

Module loader_properties.
Import create_database create_database_properties readback loader_steps.
Local Open Scope Z_scope.
Local Open Scope method_scope.

(** ** Finding a row by its id *)

Section find.
Context {R : Type} (P : R → Prop) `{∀ r, Decision (P r)}.

Lemma head_filter_app_found (l l' : list R) x :
  head (filter P l) = Some x → head (filter P (l ++ l')) = Some x.
Proof.
  rewrite filter_app. destruct (filter P l); [done|]. by intros [= ->].
Qed.

Lemma head_filter_app_new (l : list R) x :
  Forall (fun y => ¬ P y) l → P x → head (filter P (l ++ [x])) = Some x.
Proof.
  intros Hnone Hx. rewrite filter_app.
  assert (filter P l = []) as ->.
  { induction Hnone as [|y l Hy _ IH]; [done|].
    by rewrite filter_cons, decide_False. }
  simpl. by rewrite filter_cons, decide_True.
Qed.

Lemma head_filter_Some (l : list R) x :
  x ∈ l → P x → is_Some (head (filter P l)).
Proof.
  intros Hin Hx.
  assert (x ∈ filter P l) as Hf by (by apply list_elem_of_filter).
  destruct (filter P l); [by apply elem_of_nil in Hf|]. by eexists.
Qed.

Lemma head_filter_elem (l : list R) x :
  head (filter P l) = Some x → x ∈ l ∧ P x.
Proof.
  intros Hhead.
  assert (x ∈ filter P l) as Hf.
  { destruct (filter P l); [done|]. injection Hhead as ->. left. }
  apply list_elem_of_filter in Hf. tauto.
Qed.
End find.

Lemma module_name_of_id db id n :
  module_name_of db id = Some n → id ∈ mod_id <$> modules db.
Proof.
  unfold module_name_of. intros (r & Hr & _)%fmap_Some.
  apply head_filter_elem in Hr as [Hin <-]. by apply list_elem_of_fmap_2.
Qed.

Lemma class_name_of_id db id n :
  class_name_of db id = Some n → id ∈ cls_id <$> classes db.
Proof.
  unfold class_name_of. intros (r & Hr & _)%fmap_Some.
  apply head_filter_elem in Hr as [Hin <-]. by apply list_elem_of_fmap_2.
Qed.

Lemma function_name_of_id db id n :
  function_name_of db id = Some n → id ∈ fn_id <$> functions db.
Proof.
  unfold function_name_of. intros (r & Hr & _)%fmap_Some.
  apply head_filter_elem in Hr as [Hin <-]. by apply list_elem_of_fmap_2.
Qed.

(** Rows added behind do not change what an id finds. *)
Lemma module_name_of_app db db' added id :
  modules db' = modules db ++ added → id ∈ mod_id <$> modules db →
  module_name_of db' id = module_name_of db id.
Proof.
  intros Hmod (r & -> & Hr)%list_elem_of_fmap. unfold module_name_of.
  destruct (head_filter_Some (fun r' => mod_id r' = mod_id r) (modules db) r)
    as [x Hx]; [done..|].
  by rewrite Hmod, (head_filter_app_found _ _ _ _ Hx), Hx.
Qed.

Lemma class_name_of_app db db' added id :
  classes db' = classes db ++ added → id ∈ cls_id <$> classes db →
  class_name_of db' id = class_name_of db id.
Proof.
  intros Hcls (r & -> & Hr)%list_elem_of_fmap. unfold class_name_of.
  destruct (head_filter_Some (fun r' => cls_id r' = cls_id r) (classes db) r)
    as [x Hx]; [done..|].
  by rewrite Hcls, (head_filter_app_found _ _ _ _ Hx), Hx.
Qed.

Lemma function_name_of_app db db' added id :
  functions db' = functions db ++ added → id ∈ fn_id <$> functions db →
  function_name_of db' id = function_name_of db id.
Proof.
  intros Hfn (r & -> & Hr)%list_elem_of_fmap. unfold function_name_of.
  destruct (head_filter_Some (fun r' => fn_id r' = fn_id r) (functions db) r)
    as [x Hx]; [done..|].
  by rewrite Hfn, (head_filter_app_found _ _ _ _ Hx), Hx.
Qed.

(** AUTOINCREMENT hands out an id that no row has. *)
Lemma max_rowid_ge ids id : id ∈ ids → id ≤ max_rowid ids.
Proof.
  induction ids as [|x ids IH]; [by intros ?%elem_of_nil|].
  intros [->|Hin]%elem_of_cons; simpl; [lia|]. specialize (IH Hin). lia.
Qed.

Lemma autoincrement_new table ids db : autoincrement table ids db ∉ ids.
Proof.
  intros Hin%max_rowid_ge. unfold autoincrement in Hin. lia.
Qed.

(** ** Contents *)

Lemma contents_app_assoc a b c :
  contents_app (contents_app a b) c = contents_app a (contents_app b c).
Proof. unfold contents_app. simpl. by rewrite !app_assoc. Qed.

Lemma contents_app_nil_r a : contents_app a no_contents = a.
Proof. destruct a. unfold contents_app. simpl. by rewrite !app_nil_r. Qed.

Lemma contents_app_nil_l a : contents_app no_contents a = a.
Proof. by destruct a. Qed.

(** ** Rows added at the end of the tables *)

Section appended.
Context (db db' : database) (ms : list modules_row) (cs : list classes_row)
  (es : list class_inheritance_row) (fs : list functions_row)
  (ps : list parameters_row).
Hypothesis Happ : appended db db' ms cs es fs ps.

Lemma appended_module_ids id :
  id ∈ mod_id <$> modules db → id ∈ mod_id <$> modules db'.
Proof.
  destruct Happ as (-> & _). rewrite fmap_app, elem_of_app. by left.
Qed.

Lemma appended_class_ids id :
  id ∈ cls_id <$> classes db → id ∈ cls_id <$> classes db'.
Proof.
  destruct Happ as (_ & -> & _). rewrite fmap_app, elem_of_app. by left.
Qed.

Lemma appended_function_ids id :
  id ∈ fn_id <$> functions db → id ∈ fn_id <$> functions db'.
Proof.
  destruct Happ as (_ & _ & _ & -> & _). rewrite fmap_app, elem_of_app.
  by left.
Qed.

Lemma appended_module_name_of id n :
  module_name_of db id = Some n → module_name_of db' id = Some n.
Proof.
  intros Hn. destruct Happ as (Hmod & _).
  rewrite (module_name_of_app db db' ms); [done..|].
  by eapply module_name_of_id.
Qed.

Lemma appended_class_name_of id n :
  class_name_of db id = Some n → class_name_of db' id = Some n.
Proof.
  intros Hn. destruct Happ as (_ & Hcls & _).
  rewrite (class_name_of_app db db' cs); [done..|].
  by eapply class_name_of_id.
Qed.

Lemma appended_function_name_of id n :
  function_name_of db id = Some n → function_name_of db' id = Some n.
Proof.
  intros Hn. destruct Happ as (_ & _ & _ & Hfn & _).
  rewrite (function_name_of_app db db' fs); [done..|].
  by eapply function_name_of_id.
Qed.

Lemma appended_referential_integrity :
  referential_integrity db →
  Forall (class_keys_exist db') cs →
  Forall (inheritance_keys_exist db') es →
  Forall (function_keys_exist_prop db') fs →
  Forall (parameter_keys_exist db') ps →
  referential_integrity db'.
Proof.
  intros (Hc & Hi & Hf & Hp & He) Hcs Hes Hfs Hps.
  pose proof appended_module_ids as Hm. pose proof appended_class_ids as Hk.
  pose proof appended_function_ids as Hn.
  destruct Happ as (Hmod & Hcls & Hinh & Hfn & Hpar & Hex & _).
  unfold referential_integrity. rewrite Hcls, Hinh, Hfn, Hpar, Hex.
  rewrite !Forall_app. repeat split; try done.
  - eapply Forall_impl; [exact Hc|]. intros r. unfold class_keys_exist. auto.
  - eapply Forall_impl; [exact Hi|]. intros r.
    unfold inheritance_keys_exist. auto.
  - eapply Forall_impl; [exact Hf|]. intros r [H1 H2]. split; auto.
  - eapply Forall_impl; [exact Hp|]. intros r.
    unfold parameter_keys_exist. auto.
  - eapply Forall_impl; [exact He|]. intros r [H1 H2]. split; auto.
Qed.

Lemma appended_read_back :
  referential_integrity db →
  read_back db'
  = contents_app (read_back db)
      {| c_modules := module_view_of <$> ms;
         c_classes := class_view_of db' <$> cs;
         c_inheritance := inheritance_view_of db' <$> es;
         c_functions := function_view_of db' <$> fs;
         c_parameters := parameter_view_of db' <$> ps |}.
Proof.
  intros (Hc & Hi & Hf & Hp & _).
  destruct Happ as (Hmod & Hcls & Hinh & Hfn & Hpar & _).
  unfold read_back, contents_app. simpl.
  rewrite Hmod, Hcls, Hinh, Hfn, Hpar, !fmap_app. f_equal; f_equal.
  - apply Forall_fmap_ext_1. eapply Forall_impl; [exact Hc|].
    intros r Hr. unfold class_view_of. f_equal.
    by apply (module_name_of_app db db' ms).
  - apply Forall_fmap_ext_1. eapply Forall_impl; [exact Hi|].
    intros r Hr. unfold inheritance_view_of. f_equal.
    by apply (class_name_of_app db db' cs).
  - apply Forall_fmap_ext_1. eapply Forall_impl; [exact Hf|].
    intros r [Hr1 Hr2]. unfold function_view_of. f_equal.
    + destruct (fn_class_id r) as [c|]; [|done]. simpl. f_equal.
      apply (class_name_of_app db db' cs); auto.
    + by apply (module_name_of_app db db' ms).
  - apply Forall_fmap_ext_1. eapply Forall_impl; [exact Hp|].
    intros r Hr. unfold parameter_view_of. f_equal.
    by apply (function_name_of_app db db' fs).
Qed.

Lemma appended_db_grows :
  referential_integrity db →
  db_grows db db'
    {| c_modules := module_view_of <$> ms;
       c_classes := class_view_of db' <$> cs;
       c_inheritance := inheritance_view_of db' <$> es;
       c_functions := function_view_of db' <$> fs;
       c_parameters := parameter_view_of db' <$> ps |}.
Proof.
  intros Hri. split; [by apply appended_read_back|].
  split; [apply appended_module_name_of|].
  split; [apply appended_class_name_of|].
  split; [apply appended_function_name_of|].
  by destruct Happ as (_ & _ & _ & _ & _ & ? & _).
Qed.
End appended.

(** ** The five INSERT statements of the loader *)

Lemma insert_into_modules_step name docstring fk db :
  db_ok db →
  (name ∉ mod_name <$> modules db →
     ∃ id db',
       insert_into_modules name docstring fk db = Returns (id, db')
       ∧ db_ok db'
       ∧ db_grows db db'
           {| c_modules := [{| mv_name := name; mv_docstring := docstring |}];
              c_classes := []; c_inheritance := []; c_functions := [];
              c_parameters := [] |}
       ∧ module_name_of db' id = Some name)
  ∧ (name ∈ mod_name <$> modules db →
     insert_into_modules name docstring fk db = Raises IntegrityError).
Proof.
  intros [Hschema Hri]. unfold insert_into_modules. rewrite Hschema. simpl.
  split; intros Hname.
  - rewrite bool_decide_eq_false_2 by done.
    set (id := autoincrement "modules" (mod_id <$> modules db) db).
    set (new := {| mod_id := id; mod_name := name;
                   mod_docstring := docstring |}).
    set (db' := bump_sequence _ _ _).
    assert (Happ : appended db db' [new] [] [] [] []).
    { subst db'. repeat split; simpl; by rewrite ?app_nil_r. }
    exists id, db'. split; [done|]. split; [split|split].
    + by destruct Happ as (_ & _ & _ & _ & _ & _ & ->).
    + by eapply appended_referential_integrity.
    + by apply (appended_db_grows _ _ _ _ _ _ _ Happ).
    + unfold module_name_of. destruct Happ as (-> & _).
      rewrite (head_filter_app_new _ _ new); [done| |done].
      apply Forall_forall. intros r Hr Heq.
      apply (autoincrement_new "modules" (mod_id <$> modules db) db).
      fold id. rewrite <- Heq. by apply list_elem_of_fmap_2.
  - by rewrite bool_decide_eq_true_2.
Qed.

Lemma insert_into_classes_step name qname docstring module_id mname fk db :
  db_ok db → module_name_of db module_id = Some mname →
  (qname ∉ cls_full_qualified_name <$> classes db →
     ∃ id db',
       insert_into_classes None name qname docstring module_id fk db
       = Returns (id, db')
       ∧ db_ok db'
       ∧ db_grows db db'
           {| c_modules := [];
              c_classes := [{| cv_name := name; cv_qualified_name := qname;
                               cv_docstring := docstring;
                               cv_module := Some mname |}];
              c_inheritance := []; c_functions := []; c_parameters := [] |}
       ∧ class_name_of db' id = Some qname
       ∧ (∀ base, {| inh_class_id := id; inh_base_class_name := base |}
                  ∉ class_inheritance db'))
  ∧ (qname ∈ cls_full_qualified_name <$> classes db →
     insert_into_classes None name qname docstring module_id fk db
     = Raises IntegrityError).
Proof.
  intros [Hschema Hri] Hlink. unfold insert_into_classes.
  rewrite Hschema. simpl.
  set (id := autoincrement "classes" (cls_id <$> classes db) db).
  pose proof (autoincrement_new "classes" (cls_id <$> classes db) db) as Hnew.
  fold id in Hnew. rewrite (bool_decide_eq_false_2 _ Hnew).
  split; intros Hname.
  - rewrite bool_decide_eq_false_2 by done.
    rewrite (bool_decide_eq_true_2 (module_id ∈ _))
      by (by eapply module_name_of_id).
    rewrite andb_false_r.
    set (new := {| cls_id := id; cls_name := name;
                   cls_full_qualified_name := qname;
                   cls_docstring := docstring;
                   cls_module_id := module_id |}).
    set (db' := classes_ai _ _).
    assert (Happ : appended db db' [] [new] [] [] []).
    { subst db'. repeat split; simpl; by rewrite ?app_nil_r. }
    assert (Hlink' : module_name_of db' module_id = Some mname)
      by (by eapply appended_module_name_of).
    exists id, db'. split; [done|]. split; [split|split; [|split]].
    + by destruct Happ as (_ & _ & _ & _ & _ & _ & ->).
    + eapply appended_referential_integrity; try done.
      apply Forall_singleton. unfold class_keys_exist. simpl.
      by eapply module_name_of_id.
    + pose proof (appended_db_grows _ _ _ _ _ _ _ Happ Hri) as Hgrows.
      simpl in Hgrows. unfold class_view_of in Hgrows. simpl in Hgrows.
      by rewrite Hlink' in Hgrows.
    + unfold class_name_of. destruct Happ as (_ & -> & _).
      rewrite (head_filter_app_new _ _ new); [done| |done].
      apply Forall_forall. intros r Hr Heq. apply Hnew.
      rewrite <- Heq. by apply list_elem_of_fmap_2.
    + intros base Hin. destruct Happ as (_ & _ & Hinh & _).
      rewrite Hinh, app_nil_r in Hin.
      destruct Hri as (_ & Hi & _).
      apply (proj1 (Forall_forall _ _) Hi) in Hin. by apply Hnew.
  - by rewrite bool_decide_eq_true_2.
Qed.

Lemma insert_into_class_inheritance_step class_id base qname fk db :
  db_ok db → class_name_of db class_id = Some qname →
  let new := {| inh_class_id := class_id; inh_base_class_name := base |} in
  (new ∉ class_inheritance db →
     ∃ db',
       insert_into_class_inheritance class_id base fk db = Returns (tt, db')
       ∧ db_ok db'
       ∧ db_grows db db'
           {| c_modules := []; c_classes := [];
              c_inheritance := [{| iv_class := Some qname; iv_base := base |}];
              c_functions := []; c_parameters := [] |}
       ∧ class_inheritance db' = class_inheritance db ++ [new])
  ∧ (new ∈ class_inheritance db →
     insert_into_class_inheritance class_id base fk db
     = Raises IntegrityError).
Proof.
  intros [Hschema Hri] Hlink new. unfold insert_into_class_inheritance.
  rewrite Hschema. simpl. fold new. split; intros Hnew.
  - rewrite bool_decide_eq_false_2 by done.
    rewrite (bool_decide_eq_true_2 (class_id ∈ _))
      by (by eapply class_name_of_id).
    rewrite andb_false_r.
    set (db' := set_class_inheritance _ _).
    assert (Happ : appended db db' [] [] [new] [] []).
    { subst db'. repeat split; simpl; by rewrite ?app_nil_r. }
    assert (Hlink' : class_name_of db' class_id = Some qname)
      by (by eapply appended_class_name_of).
    exists db'. split; [done|]. split; [split|split].
    + by destruct Happ as (_ & _ & _ & _ & _ & _ & ->).
    + eapply appended_referential_integrity; try done.
      apply Forall_singleton. unfold inheritance_keys_exist. simpl.
      by eapply class_name_of_id.
    + pose proof (appended_db_grows _ _ _ _ _ _ _ Happ Hri) as Hgrows.
      simpl in Hgrows. unfold inheritance_view_of in Hgrows.
      simpl in Hgrows. by rewrite Hlink' in Hgrows.
    + done.
  - by rewrite bool_decide_eq_true_2.
Qed.

Lemma insert_into_functions_step values mname cls fk db :
  db_ok db →
  module_name_of db (fn_module_id values) = Some mname →
  class_name_of db <$> fn_class_id values = Some <$> cls →
  let qname := fn_full_qualified_name values in
  (qname ∉ fn_full_qualified_name <$> functions db →
     ∃ id db',
       insert_into_functions None values fk db = Returns (id, db')
       ∧ db_ok db'
       ∧ db_grows db db'
           {| c_modules := []; c_classes := []; c_inheritance := [];
              c_functions :=
                [{| fv_name := fn_name values;
                    fv_qualified_name := qname;
                    fv_signature_string := fn_signature_string values;
                    fv_docstring := fn_docstring values;
                    fv_return_annotation := fn_return_annotation values;
                    fv_is_async := fn_is_async values;
                    fv_is_classmethod := fn_is_classmethod values;
                    fv_is_staticmethod := fn_is_staticmethod values;
                    fv_class := Some <$> cls;
                    fv_module := Some mname |}];
              c_parameters := [] |}
       ∧ function_name_of db' id = Some qname)
  ∧ (qname ∈ fn_full_qualified_name <$> functions db →
     insert_into_functions None values fk db = Raises IntegrityError).
Proof.
  intros [Hschema Hri] Hmod Hcls qname. unfold insert_into_functions.
  rewrite Hschema. simpl.
  set (id := autoincrement "functions" (fn_id <$> functions db) db).
  pose proof (autoincrement_new "functions" (fn_id <$> functions db) db)
    as Hnew.
  fold id in Hnew. rewrite (bool_decide_eq_false_2 _ Hnew).
  fold qname. split; intros Hname.
  - rewrite bool_decide_eq_false_2 by done.
    assert (function_keys_exist (with_fn_id id values) db = true) as ->.
    { unfold function_keys_exist. simpl.
      rewrite bool_decide_eq_true_2 by (by eapply module_name_of_id).
      destruct (fn_class_id values) as [c|], cls as [q|]; try done.
      simpl in Hcls. injection Hcls as Hcls.
      rewrite bool_decide_eq_true_2; [done|]. by eapply class_name_of_id. }
    rewrite andb_false_r.
    set (new := with_fn_id id values).
    set (db' := functions_ai _ _).
    assert (Happ : appended db db' [] [] [] [new] []).
    { subst db'. repeat split; simpl; by rewrite ?app_nil_r. }
    exists id, db'. split; [done|]. split; [split|split].
    + by destruct Happ as (_ & _ & _ & _ & _ & _ & ->).
    + eapply appended_referential_integrity; try done.
      apply Forall_singleton. split.
      * apply (appended_module_ids _ _ _ _ _ _ _ Happ).
        by eapply module_name_of_id.
      * intros c Hc. apply (appended_class_ids _ _ _ _ _ _ _ Happ).
        simpl in Hc. rewrite Hc in Hcls. destruct cls as [q|]; [|done].
        injection Hcls as Hcls. by eapply class_name_of_id.
    + pose proof (appended_db_grows _ _ _ _ _ _ _ Happ Hri) as Hgrows.
      simpl in Hgrows. unfold function_view_of in Hgrows. simpl in Hgrows.
      rewrite (appended_module_name_of _ _ _ _ _ _ _ Happ _ _ Hmod) in Hgrows.
      assert (class_name_of db' <$> fn_class_id values = Some <$> cls) as Hc.
      { rewrite <- Hcls. by destruct (fn_class_id values). }
      by rewrite Hc in Hgrows.
    + unfold function_name_of. destruct Happ as (_ & _ & _ & -> & _).
      rewrite (head_filter_app_new _ _ new); [done| |done].
      apply Forall_forall. intros r Hr Heq. apply Hnew.
      rewrite <- Heq. by apply list_elem_of_fmap_2.
  - by rewrite bool_decide_eq_true_2.
Qed.

Lemma insert_into_parameters_step function_id name kind annotation
    default_value position qname fk db :
  db_ok db → function_name_of db function_id = Some qname →
  ∃ id db',
    insert_into_parameters function_id name kind annotation default_value
                           position fk db = Returns (id, db')
    ∧ db_ok db'
    ∧ db_grows db db'
        {| c_modules := []; c_classes := []; c_inheritance := [];
           c_functions := [];
           c_parameters :=
             [{| pv_function := Some qname; pv_name := name;
                 pv_kind := kind; pv_annotation := annotation;
                 pv_default_value := default_value;
                 pv_position := position |}] |}.
Proof.
  intros [Hschema Hri] Hlink. unfold insert_into_parameters.
  rewrite Hschema. simpl.
  rewrite (bool_decide_eq_true_2 (function_id ∈ _))
    by (by eapply function_name_of_id).
  rewrite andb_false_r.
  set (id := autoincrement "parameters" (par_id <$> parameters db) db).
  set (new := {| par_id := id; par_function_id := function_id;
                 par_name := name; par_kind := kind;
                 par_annotation := annotation;
                 par_default_value := default_value;
                 par_position := position |}).
  set (db' := bump_sequence _ _ _).
  assert (Happ : appended db db' [] [] [] [] [new]).
  { subst db'. repeat split; simpl; by rewrite ?app_nil_r. }
  exists id, db'. split; [done|]. split; [split|].
  - by destruct Happ as (_ & _ & _ & _ & _ & _ & ->).
  - eapply appended_referential_integrity; try done.
    apply Forall_singleton. unfold parameter_keys_exist.
    apply (appended_function_ids _ _ _ _ _ _ _ Happ).
    by eapply function_name_of_id.
  - pose proof (appended_db_grows _ _ _ _ _ _ _ Happ Hri) as Hgrows.
    simpl in Hgrows. unfold parameter_view_of in Hgrows. simpl in Hgrows.
    by rewrite (appended_function_name_of _ _ _ _ _ _ _ Happ _ _ Hlink)
      in Hgrows.
Qed.

(** ** Steps of the loader on the world *)

Lemma db_grows_refl db : db_grows db db no_contents.
Proof. split; [by rewrite contents_app_nil_r|done]. Qed.

Lemma db_grows_trans db1 db2 db3 e1 e2 :
  db_grows db1 db2 e1 → db_grows db2 db3 e2 →
  db_grows db1 db3 (contents_app e1 e2).
Proof.
  intros (H1 & Hm1 & Hc1 & Hf1 & Hx1) (H2 & Hm2 & Hc2 & Hf2 & Hx2).
  split; [by rewrite H2, H1, contents_app_assoc|].
  split; [auto|]. split; [auto|]. split; [auto|]. congruence.
Qed.

Lemma grows_refl w : grows w w no_contents.
Proof. split; [apply db_grows_refl|done]. Qed.

Lemma grows_trans w1 w2 w3 e1 e2 :
  grows w1 w2 e1 → grows w2 w3 e2 → grows w1 w3 (contents_app e1 e2).
Proof.
  intros (H1 & Hf1 & Hp1 & Hd1) (H2 & Hf2 & Hp2 & Hd2).
  split; [by eapply db_grows_trans|]. split; [congruence|].
  split; congruence.
Qed.

Lemma grows_read_back w w' e :
  grows w w' e →
  read_back (view w') = contents_app (read_back (view w)) e.
Proof. by intros ((? & _) & _). Qed.

Lemma grows_module_name_of w w' e id n :
  grows w w' e → module_name_of (view w) id = Some n →
  module_name_of (view w') id = Some n.
Proof. intros ((_ & H & _) & _). apply H. Qed.

Lemma grows_class_name_of w w' e id n :
  grows w w' e → class_name_of (view w) id = Some n →
  class_name_of (view w') id = Some n.
Proof. intros ((_ & _ & H & _) & _). apply H. Qed.

Lemma grows_function_name_of w w' e id n :
  grows w w' e → function_name_of (view w) id = Some n →
  function_name_of (view w') id = Some n.
Proof. intros ((_ & _ & _ & H & _) & _). apply H. Qed.

(** *** New names *)

Lemma fresh_nil old : fresh old [].
Proof. split; constructor. Qed.

Lemma fresh_app old a b :
  fresh old (a ++ b) ↔ fresh old a ∧ fresh (old ++ a) b.
Proof.
  unfold fresh. rewrite NoDup_app, !Forall_app, !Forall_forall.
  setoid_rewrite elem_of_app. split.
  - intros ((Ha & Hab & Hb) & Hoa & Hob). repeat split; try done.
    intros x Hx [Hold|Hxa]; [by apply (Hob x)|by apply (Hab x)].
  - intros ((Ha & Hoa) & Hb & Hob). repeat split; try done.
    + intros x Hxa Hxb. apply (Hob x Hxb). by right.
    + intros x Hxb Hold. apply (Hob x Hxb). by left.
Qed.

Lemma fresh_names_app old a b :
  fresh_names old (contents_app a b)
  ↔ fresh_names old a ∧ fresh_names (contents_app old a) b.
Proof.
  unfold fresh_names, module_names, class_names, function_names. simpl.
  rewrite !fmap_app, !fresh_app. tauto.
Qed.

Lemma fresh_names_no_contents old : fresh_names old no_contents.
Proof. repeat split; constructor. Qed.

(** *** The connection *)

Lemma ready_the_conn w :
  ready w →
  ∃ c, the_conn w = (Returns c, w) ∧ conn (self w) = Some c
       ∧ conn_view c = view w.
Proof.
  intros (c & Hc & Hopen & _). exists c. unfold the_conn, view.
  by rewrite Hc, Hopen.
Qed.

Lemma ready_db_ok w : ready w → db_ok (view w).
Proof. intros (c & Hc & _ & Hok). unfold view. by rewrite Hc. Qed.

Lemma the_conn_then {A} (m : method A) w :
  ready w → (_ <- the_conn ;; m) w = m w.
Proof.
  intros (c & Hconn & _)%ready_the_conn. unfold bind. by rewrite Hconn.
Qed.

(** A statement that either adds [e] or fails on a constraint, run
    through the connection. *)
Lemma execute_outcome {A} (stmt : statement A) w e (B : Prop)
    (Q : A → database → Prop) :
  ready w →
  (∀ fk,
     (fresh_names (read_back (view w)) e ∧ B
      ∧ ∃ a db', stmt fk (view w) = Returns (a, db') ∧ db_ok db'
                 ∧ db_grows (view w) db' e ∧ Q a db')
     ∨ (¬ (fresh_names (read_back (view w)) e ∧ B)
        ∧ stmt fk (view w) = Raises IntegrityError)) →
  outcome (execute stmt) w e B (fun a w' => Q a (view w')).
Proof.
  intros Hready Hstmt.
  destruct (ready_the_conn w Hready) as (c & Hconn & Hc & Hview).
  pose proof (ready_db_ok w Hready) as Hok0.
  destruct Hready as (c0 & Hc0 & Hopen & _).
  assert (c0 = c) as -> by congruence.
  unfold outcome, execute, bind. rewrite Hconn, Hview.
  destruct (Hstmt (conn_foreign_keys c))
    as [(Hfresh & HB & a & db' & -> & Hok & Hgrows & HQ)|[Hno ->]].
  - left. split; [done|]. split; [done|]. eexists a, _.
    split; [reflexivity|]. unfold ready, grows. simpl.
    split; [by eexists|]. split; [|done].
    split; [done|]. by rewrite Hc.
  - right. split; [done|]. exists w. split; [done|].
    exists c. split; [done|]. split; [done|]. by rewrite Hview.
Qed.

Lemma outcome_iff {A} (m : method A) w e e' (B B' : Prop)
    (Q Q' : A → world → Prop) :
  outcome m w e B Q → e = e' → (B ↔ B') →
  (∀ a w', Q a w' → Q' a w') → outcome m w e' B' Q'.
Proof.
  intros [(Hfresh & HB & a & w' & Hm & Hready & Hgrows & HQ)|[Hno Hm]]
    <- HBB HQQ.
  - left. split; [done|]. split; [tauto|]. exists a, w'. auto.
  - right. split; [tauto|done].
Qed.

Lemma outcome_bind {A C} (m : method A) (k : A → method C) w e1 e2
    (B1 B2 : Prop) (Q1 : A → world → Prop) (Q2 : C → world → Prop) :
  outcome m w e1 B1 Q1 →
  (∀ a w', ready w' → grows w w' e1 → Q1 a w' →
           outcome (k a) w' e2 B2 Q2) →
  outcome (bind m k) w (contents_app e1 e2) (B1 ∧ B2) Q2.
Proof.
  intros [(Hfresh & HB & a & w' & Hm & Hready & Hgrows & HQ)|[Hno Hm]] Hk.
  - pose proof (grows_read_back _ _ _ Hgrows) as Hread.
    destruct (Hk a w' Hready Hgrows HQ)
      as [(Hfresh2 & HB2 & c & w'' & Hka & Hready2 & Hgrows2 & HQ2)
         |[Hno (w'' & Hka & Hready2)]].
    + left. split; [|split; [done|]].
      { apply fresh_names_app. split; [done|]. by rewrite <- Hread. }
      exists c, w''. unfold bind. rewrite Hm.
      split; [done|]. split; [done|]. split; [|done].
      by eapply grows_trans.
    + right. split.
      { intros ([_ Hf]%fresh_names_app & _ & HB2). apply Hno.
        split; [|done]. by rewrite Hread. }
      exists w''. unfold bind. by rewrite Hm.
  - right. split.
    { intros ([Hf _]%fresh_names_app & HB1 & _). by apply Hno. }
    destruct Hm as (w' & Hm & Hready). exists w'. unfold bind.
    by rewrite Hm.
Qed.

Lemma outcome_ret {A} (a : A) w (Q : A → world → Prop) :
  ready w → Q a w → outcome (ret a) w no_contents True Q.
Proof.
  intros Hready HQ. left. split; [apply fresh_names_no_contents|].
  split; [done|]. exists a, w. split; [done|]. split; [done|].
  split; [apply grows_refl|done].
Qed.

Lemma outcome_for_each {X} (xs : list X) (body : X → method unit)
    (one : X → contents) (B : X → Prop) w :
  ready w →
  (∀ x w' e', x ∈ xs → ready w' → grows w w' e' →
              outcome (body x) w' (one x) (B x) anything) →
  outcome (for_each xs body) w (each_contents one xs) (Forall B xs)
          anything.
Proof.
  revert w. induction xs as [|x xs IH]; intros w Hready Hbody.
  - eapply outcome_iff; [by apply (outcome_ret tt w anything)|done| |done].
    split; [constructor|done].
  - simpl. eapply outcome_iff;
      [eapply (outcome_bind _ _ _ (one x) (each_contents one xs)
                 (B x) (Forall B xs) anything anything)|done| |done].
    + apply (Hbody x w no_contents); [left|done|apply grows_refl].
    + intros [] w' Hready' Hgrows _. apply IH; [done|].
      intros y w'' e' Hy Hready'' Hgrows'.
      apply (Hbody y w'' (contents_app (one x) e')); [by right|done|].
      by eapply grows_trans.
    + by rewrite Forall_cons.
Qed.

(** The step [m'] at [w] is the step [m] at a world that differs from
    [w] in the object's dictionaries only. *)
Lemma outcome_moved {A} (m m' : method A) w w0 e (B : Prop)
    (Q : A → world → Prop) :
  m' w = m w0 → conn (self w0) = conn (self w) → files w0 = files w →
  db_path (self w0) = db_path (self w) →
  outcome m w0 e B Q → outcome m' w e B Q.
Proof.
  intros Hm Hconn Hfiles Hpath. unfold outcome, grows, view.
  by rewrite Hm, Hconn, Hfiles, Hpath.
Qed.

Lemma outcome_the_conn_then {A} (m : method A) w e (B : Prop)
    (Q : A → world → Prop) :
  ready w → outcome m w e B Q → outcome (_ <- the_conn ;; m) w e B Q.
Proof.
  intros Hready. by apply outcome_moved; [apply the_conn_then|..].
Qed.

(** *** The names in the database *)

Lemma module_names_read_back db :
  module_names (read_back db) = mod_name <$> modules db.
Proof.
  unfold module_names. simpl. by rewrite <- list_fmap_compose.
Qed.

Lemma class_names_read_back db :
  class_names (read_back db) = cls_full_qualified_name <$> classes db.
Proof.
  unfold class_names. simpl. by rewrite <- list_fmap_compose.
Qed.

Lemma function_names_read_back db :
  function_names (read_back db) = fn_full_qualified_name <$> functions db.
Proof.
  unfold function_names. simpl. by rewrite <- list_fmap_compose.
Qed.

Lemma fresh_singleton old x : fresh old [x] ↔ x ∉ old.
Proof.
  unfold fresh. rewrite Forall_singleton. split; [tauto|].
  intros Hx. split; [apply NoDup_singleton|done].
Qed.

Lemma fresh_names_only_modules db m :
  fresh_names (read_back db) (only_modules [m])
  ↔ mv_name m ∉ mod_name <$> modules db.
Proof.
  unfold fresh_names. rewrite module_names_read_back.
  change (module_names (only_modules [m])) with [mv_name m].
  rewrite fresh_singleton. split; [tauto|]. intros Hx.
  repeat split; try done; constructor.
Qed.

Lemma fresh_names_only_classes db c :
  fresh_names (read_back db) (only_classes [c])
  ↔ cv_qualified_name c ∉ cls_full_qualified_name <$> classes db.
Proof.
  unfold fresh_names. rewrite class_names_read_back.
  change (class_names (only_classes [c])) with [cv_qualified_name c].
  rewrite fresh_singleton. split; [tauto|]. intros Hx.
  repeat split; try done; constructor.
Qed.

Lemma fresh_names_only_functions db f :
  fresh_names (read_back db) (only_functions [f])
  ↔ fv_qualified_name f ∉ fn_full_qualified_name <$> functions db.
Proof.
  unfold fresh_names. rewrite function_names_read_back.
  change (function_names (only_functions [f])) with [fv_qualified_name f].
  rewrite fresh_singleton. split; [tauto|]. intros Hx.
  repeat split; try done; constructor.
Qed.

Lemma fresh_names_only_inheritance old es :
  fresh_names old (only_inheritance es).
Proof. repeat split; constructor. Qed.

Lemma fresh_names_only_parameters old ps :
  fresh_names old (only_parameters ps).
Proof. repeat split; constructor. Qed.

Lemma each_contents_only_parameters {X} (g : X → parameter_view) xs :
  each_contents (fun x => only_parameters [g x]) xs
  = only_parameters (g <$> xs).
Proof.
  induction xs as [|x xs IH]; [done|]. simpl. by rewrite IH.
Qed.

Lemma Forall_True {X} (xs : list X) : Forall (fun _ => True) xs ↔ True.
Proof. split; [done|]. intros _. by apply Forall_forall. Qed.

(** ** The methods of the loader *)

(** [insert_module] adds the module's row, or raises [IntegrityError]
    when the name is taken; the id it returns is the row's. *)
Lemma insert_module_outcome module_data w :
  ready w →
  outcome (insert_module module_data) w
    (only_modules [{| mv_name := module_name module_data;
                      mv_docstring := module_docstring module_data |}])
    True
    (fun id w' =>
       module_name_of (view w') id = Some (module_name module_data)).
Proof.
  intros Hready. unfold insert_module.
  apply outcome_the_conn_then; [done|].
  set (e := only_modules _).
  set (Q := fun id db' =>
              module_name_of db' id = Some (module_name module_data)).
  eapply outcome_iff;
    [eapply (outcome_bind _ _ _ e no_contents True True
               (fun id w' => Q id (view w')) (fun id w' => Q id (view w')))
    | | |].
  - apply (execute_outcome _ _ e True Q);
      [done|].
    intros fk.
    destruct (insert_into_modules_step (module_name module_data)
                (module_docstring module_data) fk (view w)
                (ready_db_ok w Hready)) as [Hnew Hold].
    destruct (decide (module_name module_data
                        ∈ mod_name <$> modules (view w))) as [Hin|Hin].
    + right. split; [|by apply Hold].
      intros [Hfresh%fresh_names_only_modules _]. exact (Hfresh Hin).
    + left. split; [by apply fresh_names_only_modules|]. split; [done|].
      destruct (Hnew Hin) as (id & db' & ? & ? & ? & ?). by exists id, db'.
  - intros id w' Hready' Hgrows Hid. simpl in Hid.
    eapply (outcome_moved (ret id)); [reflexivity|done..|].
    apply outcome_ret; [|exact Hid].
    destruct Hready' as (c & ? & ? & ?). by exists c.
  - apply contents_app_nil_r.
  - tauto.
  - done.
Qed.

(** [insert_function] adds the function's row and one row for each of
    its parameters, or raises [IntegrityError] when the qualified name
    is taken. *)
Lemma insert_function_outcome func_data module_id class_id mname cls w :
  ready w →
  module_name_of (view w) module_id = Some mname →
  class_name_of (view w) <$> class_id = Some <$> cls →
  outcome (insert_function func_data module_id class_id) w
    (function_contents mname cls func_data) True anything.
Proof.
  intros Hready Hmod Hcls. unfold insert_function.
  apply outcome_the_conn_then; [done|].
  set (qname := func_qualified_name func_data).
  set (values := {| fn_id := 0; fn_full_qualified_name := qname |}).
  set (e := only_functions
              [{| fv_name := func_name func_data;
                  fv_qualified_name := qname;
                  fv_signature_string := func_signature_string func_data;
                  fv_docstring := func_docstring func_data;
                  fv_return_annotation := func_return_annotation func_data;
                  fv_is_async := truthy_flag (func_is_async func_data);
                  fv_is_classmethod :=
                    truthy_flag (func_is_classmethod func_data);
                  fv_is_staticmethod :=
                    truthy_flag (func_is_staticmethod func_data);
                  fv_class := Some <$> cls;
                  fv_module := Some mname |}]).
  set (view_of := fun '(position, p) =>
          {| pv_function := Some qname;
             pv_name := param_name p; pv_kind := param_kind p;
             pv_annotation := param_annotation p;
             pv_default_value := param_default p;
             pv_position := position |}).
  set (Q := fun id db' => function_name_of db' id = Some qname).
  eapply outcome_iff;
    [eapply (outcome_bind _ _ _ e
               (each_contents (fun x => only_parameters [view_of x])
                  (enumerate (func_parameters func_data)))
               True (Forall (fun _ => True)
                       (enumerate (func_parameters func_data)))
               (fun id w' => Q id (view w')) anything)
    | | |].
  - apply (execute_outcome _ _ e True Q); [done|]. intros fk.
    destruct (insert_into_functions_step values mname cls fk (view w)
                (ready_db_ok w Hready) Hmod Hcls) as [Hnew Hold].
    destruct (decide (qname ∈ fn_full_qualified_name
                                <$> functions (view w))) as [Hin|Hin].
    + right. split; [|by apply Hold].
      intros [Hfresh%fresh_names_only_functions _]. exact (Hfresh Hin).
    + left. split; [by apply fresh_names_only_functions|]. split; [done|].
      destruct (Hnew Hin) as (id & db' & ? & ? & ? & ?). by exists id, db'.
  - intros function_id w1 Hready1 Hgrows1 Hid.
    apply outcome_for_each; [done|].
    intros [position p] w2 e' _ Hready2 Hgrows2.
    eapply outcome_iff;
      [eapply (outcome_bind _ _ _ (only_parameters [view_of (position, p)])
                 no_contents True True
                 (fun (_ : Z) (_ : world) => True) anything)
      | | |].
    + apply (execute_outcome _ _ _ True (fun _ _ => True)); [done|].
      intros fk. left. split; [apply fresh_names_only_parameters|].
      split; [done|].
      destruct (insert_into_parameters_step function_id (param_name p)
                  (param_kind p) (param_annotation p) (param_default p)
                  position qname fk (view w2) (ready_db_ok w2 Hready2))
        as (id & db' & ? & ? & ?);
        [by eapply grows_function_name_of|].
      by exists id, db'.
    + intros _ w3 Hready3 _ _. by apply outcome_ret.
    + apply contents_app_nil_r.
    + tauto.
    + done.
  - rewrite each_contents_only_parameters. reflexivity.
  - rewrite Forall_True. tauto.
  - done.
Qed.

(** The loop over the bases of a class: it adds one row for each base,
    or raises [IntegrityError] at a pair (class, base) that is already
    there. *)
Lemma insert_bases_outcome class_id qname bases w :
  ready w → class_name_of (view w) class_id = Some qname →
  outcome
    (for_each bases
       (fun base => execute (insert_into_class_inheritance class_id base)))
    w
    (only_inheritance
       ((fun base => {| iv_class := Some qname; iv_base := base |})
          <$> bases))
    (NoDup bases
     ∧ ∀ base, base ∈ bases →
               {| inh_class_id := class_id; inh_base_class_name := base |}
               ∉ class_inheritance (view w))
    anything.
Proof.
  revert w. induction bases as [|base bases IH]; intros w Hready Hlink.
  - eapply outcome_iff; [by apply (outcome_ret tt w anything)|done| |done].
    split; [|done]. intros _. split; [constructor|]. by intros b ?%elem_of_nil.
  - set (new := {| inh_class_id := class_id; inh_base_class_name := base |}).
    set (row := fun b => {| inh_class_id := class_id;
                            inh_base_class_name := b |}).
    simpl for_each.
    eapply outcome_iff;
      [eapply (outcome_bind _ _ _
                 (only_inheritance [{| iv_class := Some qname;
                                       iv_base := base |}])
                 (only_inheritance
                    ((fun b => {| iv_class := Some qname; iv_base := b |})
                       <$> bases))
                 (new ∉ class_inheritance (view w))
                 (NoDup bases
                  ∧ ∀ b, b ∈ bases →
                         row b ∉ class_inheritance (view w) ++ [new])
                 (fun _ w' =>
                    class_inheritance (view w')
                    = class_inheritance (view w) ++ [new])
                 anything)
      | | |].
    + apply (execute_outcome _ _ _ _
               (fun _ db' =>
                  class_inheritance db'
                  = class_inheritance (view w) ++ [new])); [done|].
      intros fk.
      destruct (insert_into_class_inheritance_step class_id base qname fk
                  (view w) (ready_db_ok w Hready) Hlink) as [Hnew Hold].
      destruct (decide (new ∈ class_inheritance (view w))) as [Hin|Hin].
      * right. split; [tauto|by apply Hold].
      * left. split; [apply fresh_names_only_inheritance|]. split; [done|].
        destruct (Hnew Hin) as (db' & ? & ? & ? & ?). by exists tt, db'.
    + intros [] w' Hready' Hgrows Hrows.
      eapply outcome_iff; [apply (IH w')|done| |done]; [done| |].
      * by eapply grows_class_name_of.
      * by rewrite Hrows.
    + done.
    + rewrite NoDup_cons. split.
      * intros (Hnew & Hdup & Hrest). split; [split; [|done]|].
        -- intros Hin. apply (Hrest base Hin), elem_of_app. right.
           by apply list_elem_of_singleton.
        -- intros b [->|Hb]%elem_of_cons; [done|].
           intros Hin. apply (Hrest b Hb), elem_of_app. by left.
      * intros ((Hbase & Hdup) & Hrest). split; [|split; [done|]].
        -- apply Hrest. by left.
        -- intros b Hb [Hin|Hin%list_elem_of_singleton]%elem_of_app.
           ++ apply (Hrest b); [by right|done].
           ++ injection Hin as ->. done.
    + done.
Qed.

(** [insert_class] adds the class's row, a row for each base and the
    rows of its methods; it raises [IntegrityError] when the qualified
    name of the class or of a method is taken, or a base is listed
    twice. *)
Lemma insert_class_outcome class_data module_id mname w :
  ready w → module_name_of (view w) module_id = Some mname →
  outcome (insert_class class_data module_id) w
    (class_contents mname class_data) (NoDup (class_bases class_data))
    anything.
Proof.
  intros Hready Hmod. unfold insert_class.
  apply outcome_the_conn_then; [done|].
  set (qname := class_qualified_name class_data).
  set (e := only_classes [{| cv_name := class_name class_data;
                             cv_qualified_name := qname;
                             cv_docstring := class_docstring class_data;
                             cv_module := Some mname |}]).
  set (Q := fun id db' =>
              class_name_of db' id = Some qname
              ∧ ∀ base, {| inh_class_id := id;
                           inh_base_class_name := base |}
                        ∉ class_inheritance db').
  set (bases := only_inheritance
                  ((fun base => {| iv_class := Some qname;
                                   iv_base := base |})
                     <$> class_bases class_data)).
  set (methods := each_contents (function_contents mname (Some qname))
                    (class_methods class_data)).
  eapply outcome_iff;
    [eapply (outcome_bind _ _ _ e (contents_app bases methods) True
               (NoDup (class_bases class_data)
                ∧ Forall (fun _ => True) (class_methods class_data))
               (fun id w' => Q id (view w')) anything)
    | | |].
  - apply (execute_outcome _ _ e True Q); [done|]. intros fk.
    destruct (insert_into_classes_step (class_name class_data) qname
                (class_docstring class_data) module_id mname fk (view w)
                (ready_db_ok w Hready) Hmod) as [Hnew Hold].
    destruct (decide (qname ∈ cls_full_qualified_name
                                <$> classes (view w))) as [Hin|Hin].
    + right. split; [|by apply Hold].
      intros [Hfresh%fresh_names_only_classes _]. exact (Hfresh Hin).
    + left. split; [by apply fresh_names_only_classes|]. split; [done|].
      destruct (Hnew Hin) as (id & db' & ? & ? & ? & ? & ?).
      by exists id, db'.
  - intros class_id w1 Hready1 Hgrows1 [Hid Hnone].
    eapply (outcome_moved
              (for_each (class_bases class_data)
                 (fun base =>
                    execute (insert_into_class_inheritance class_id base)) ;;
               for_each (class_methods class_data)
                 (fun method_data =>
                    insert_function method_data module_id (Some class_id))));
      [reflexivity|done..|].
    set (w2 := {| self := _; files := files w1 |}).
    assert (Hready2 : ready w2).
    { destruct Hready1 as (c & ? & ? & ?). by exists c. }
    eapply outcome_bind.
    + eapply outcome_iff;
        [apply (insert_bases_outcome class_id qname); [done|exact Hid]
        |done| |done].
      split; [tauto|]. intros Hdup. split; [done|].
      intros base _. apply Hnone.
    + intros [] w3 Hready3 Hgrows3 _.
      apply outcome_for_each; [done|].
      intros method_data w4 e' _ Hready4 Hgrows4.
      apply insert_function_outcome; [done| |].
      * eapply grows_module_name_of; [exact Hgrows4|].
        eapply grows_module_name_of; [exact Hgrows3|].
        change (view w2) with (view w1).
        by eapply grows_module_name_of.
      * simpl. f_equal. eapply grows_class_name_of; [exact Hgrows4|].
        eapply grows_class_name_of; [exact Hgrows3|]. exact Hid.
  - reflexivity.
  - rewrite Forall_True. tauto.
  - done.
Qed.

Lemma distinct_bases_app cs cs' :
  distinct_bases (cs ++ cs') ↔ distinct_bases cs ∧ distinct_bases cs'.
Proof. apply Forall_app. Qed.

(** [process_module] adds what the document holds, in the document's
    order, or raises [IntegrityError]. *)
Lemma process_module_outcome module_data w :
  ready w →
  outcome (process_module module_data) w (module_contents module_data)
    (distinct_bases (doc_classes module_data)) anything.
Proof.
  revert w.
  induction module_data as [name doc classes functions submodules IH]
    using ModuleData_ind.
  intros w Hready. simpl.
  set (submodules_loop := fix submodules_loop (ms : list ModuleData) := _).
  set (submodules_contents :=
         fix submodules_contents (ms : list ModuleData) := _).
  set (submodules_classes :=
         fix submodules_classes (ms : list ModuleData) := _).
  set (e := {| c_modules := [{| mv_name := name; mv_docstring := doc |}] |}).
  assert (Hsub : ∀ w3, ready w3 →
            outcome (submodules_loop submodules) w3
              (submodules_contents submodules)
              (distinct_bases (submodules_classes submodules)) anything).
  { clear -IH. induction IH as [|m ms Hm _ IHms]; intros w3 Hready3.
    - eapply outcome_iff;
        [by apply (outcome_ret tt w3 anything)|done| |done].
      split; [constructor|done].
    - eapply outcome_iff;
        [eapply (outcome_bind _ _ _ (module_contents m)
                   (submodules_contents ms)
                   (distinct_bases (doc_classes m))
                   (distinct_bases (submodules_classes ms))
                   anything anything)
        |done| |done].
      + by apply Hm.
      + intros [] w4 Hready4 _ _. by apply IHms.
      + simpl. by rewrite distinct_bases_app. }
  eapply outcome_iff;
    [eapply (outcome_bind _ _ _ e
               (contents_app
                  (each_contents (class_contents name) classes)
                  (contents_app
                     (each_contents (function_contents name None)
                        functions)
                     (submodules_contents submodules)))
               True
               (Forall (fun c => NoDup (class_bases c)) classes
                ∧ Forall (fun _ => True) functions
                ∧ distinct_bases (submodules_classes submodules))
               (fun id w' => module_name_of (view w') id = Some name)
               anything)
    | | |].
  - apply (insert_module_outcome (mkModule name doc classes functions
                                    submodules) w Hready).
  - intros module_id w1 Hready1 Hgrows1 Hid.
    eapply outcome_bind.
    { apply outcome_for_each; [done|].
      intros class_data w2 e' _ Hready2 Hgrows2.
      apply insert_class_outcome; [done|].
      by eapply grows_module_name_of. }
    intros [] w2 Hready2 Hgrows2 _.
    eapply outcome_bind.
    { apply outcome_for_each; [done|].
      intros func_data w3 e' _ Hready3 Hgrows3.
      apply (insert_function_outcome func_data module_id None name None);
        [done| |done].
      eapply grows_module_name_of; [exact Hgrows3|].
      by eapply grows_module_name_of. }
    intros [] w3 Hready3 _ _. by apply Hsub.
  - reflexivity.
  - unfold distinct_bases at 2. rewrite Forall_app, Forall_True.
    unfold distinct_bases. tauto.
  - done.
Qed.

(** ** What every step of the loader preserves *)

#[local] Instance stays_preorder (P : database → Prop) : PreOrder (stays P).
Proof.
  split; [intros w; unfold stays; auto|].
  intros w1 w2 w3 H12 H23. unfold stays in *. auto.
Qed.

Lemma keeps_execute_stays {A} (stmt : statement A) (P : database → Prop) :
  (∀ fk db a db', stmt fk db = Returns (a, db') → P db → P db') →
  keeps (stays P) (execute stmt).
Proof.
  intros Hstmt w. unfold stays, execute, bind, the_conn.
  destruct (conn (self w)) as [c|] eqn:Hc; [|done].
  destruct (conn_closed c); [done|].
  destruct (stmt _ _) as [[a db]|e] eqn:Hs; simpl; [|done].
  unfold view. simpl. rewrite Hc. eapply Hstmt, Hs.
Qed.

Section stays.
Context (P : database → Prop).
Hypothesis HP : ∀ s fk db db',
  plain s → dml_statement s fk db = Returns db' → P db → P db'.

Lemma insert_module_stays module_data :
  keeps (stays P) (insert_module module_data).
Proof.
  unfold insert_module.
  apply keeps_bind; [apply _ | apply keeps_the_conn; apply _ |]. intros _.
  apply keeps_bind; [apply _ | |].
  { apply keeps_execute_stays. intros fk db a db' Hs.
    apply (HP (InsertModule (module_name module_data)
                 (module_docstring module_data)) fk); [done|].
    simpl. by rewrite Hs. }
  intros module_id.
  apply keeps_bind; [apply _ | intros w; unfold stays; auto |]. intros _.
  apply keeps_ret; apply _.
Qed.

Lemma insert_function_stays func_data module_id class_id :
  keeps (stays P) (insert_function func_data module_id class_id).
Proof.
  unfold insert_function.
  apply keeps_bind; [apply _ | apply keeps_the_conn; apply _ |]. intros _.
  apply keeps_bind; [apply _ | |].
  { apply keeps_execute_stays. intros fk db a db' Hs.
    eapply (HP (InsertFunction None _) fk); [done|].
    simpl. by rewrite Hs. }
  intros function_id. apply keeps_for_each; [apply _|].
  intros [position param_data].
  apply keeps_bind; [apply _ | |].
  { apply keeps_execute_stays. intros fk db a db' Hs.
    eapply (HP (InsertParameter _ _ _ _ _ _) fk); [done|].
    simpl. by rewrite Hs. }
  intros _. apply keeps_ret; apply _.
Qed.

Lemma insert_class_stays class_data module_id :
  keeps (stays P) (insert_class class_data module_id).
Proof.
  unfold insert_class.
  apply keeps_bind; [apply _ | apply keeps_the_conn; apply _ |]. intros _.
  apply keeps_bind; [apply _ | |].
  { apply keeps_execute_stays. intros fk db a db' Hs.
    eapply (HP (InsertClass None _ _ _ _) fk); [done|].
    simpl. by rewrite Hs. }
  intros class_id.
  apply keeps_bind; [apply _ | intros w; unfold stays; auto |]. intros _.
  apply keeps_bind; [apply _ | |].
  - apply keeps_for_each; [apply _|]. intros base.
    apply keeps_execute_stays. intros fk db a db' Hs.
    eapply (HP (InsertInheritance _ _) fk); [done|]. simpl. by rewrite Hs.
  - intros _. apply keeps_for_each; [apply _|]. intros f.
    apply insert_function_stays.
Qed.

Lemma process_module_stays module_data :
  keeps (stays P) (process_module module_data).
Proof.
  induction module_data as [name doc classes functions submodules IH]
    using ModuleData_ind.
  simpl.
  apply keeps_bind; [apply _ | apply insert_module_stays |]. intros module_id.
  apply keeps_bind; [apply _ | |].
  { apply keeps_for_each; [apply _|]. intros c. apply insert_class_stays. }
  intros _. apply keeps_bind; [apply _ | |].
  { apply keeps_for_each; [apply _|]. intros f. apply insert_function_stays. }
  intros _. induction IH as [|m ms Hm _ IHms].
  - apply keeps_ret; apply _.
  - apply keeps_bind; [apply _ | exact Hm |]. intros _. exact IHms.
Qed.
End stays.

(** ** [create] *)

Lemma new_database_ok : db_ok new_database.
Proof. split; [done|]. repeat split; constructor. Qed.

Lemma fresh_names_no_contents_l e :
  fresh_names no_contents e
  ↔ NoDup (module_names e) ∧ NoDup (class_names e)
    ∧ NoDup (function_names e).
Proof.
  assert (Hfresh : ∀ l, fresh [] l ↔ NoDup l).
  { intros l. unfold fresh. split; [tauto|]. intros Hl. split; [done|].
    apply Forall_forall. by intros x _ ?%elem_of_nil. }
  unfold fresh_names. by rewrite !Hfresh.
Qed.

Lemma commit_ready w c :
  conn (self w) = Some c → conn_closed c = false →
  commit w
  = (Returns tt,
     {| self := self w;
        files := <[conn_path c := SqliteFile (conn_view c)]> (files w) |}).
Proof.
  intros Hc Hopen. unfold commit, bind, the_conn. by rewrite Hc, Hopen.
Qed.

Lemma print_statistics_ready w c :
  conn (self w) = Some c → conn_closed c = false →
  has_schema (conn_view c) = true →
  is_Some (files w !! db_path (self w)) →
  ∃ stats w',
    print_statistics w = (Returns stats, w')
    ∧ select_counts true (conn_view c) = Returns (stats, conn_view c)
    ∧ files w' = files w ∧ is_Some (conn (self w')).
Proof.
  intros Hc Hopen Hschema [f Hfile].
  unfold print_statistics, execute, bind, the_conn, select_counts.
  repeat (first [rewrite Hc|rewrite Hopen|rewrite Hschema|rewrite Hfile];
          simpl).
  eexists _, _. split; [reflexivity|]. simpl. split; [done|].
  split; [done|]. by eexists.
Qed.

Lemma close_ready w :
  is_Some (conn (self w)) →
  ∃ w', close w = (Returns tt, w') ∧ files w' = files w.
Proof.
  intros [c Hc]. unfold close. rewrite Hc. by eexists.
Qed.

(** What [create] does: it returns for a document that is [loadable],
    and leaves at the path the database that [process_module] built;
    for any other document it raises [IntegrityError] and leaves the
    schema alone. *)
Lemma create_outcome json_data w :
  let path := db_path (self w) in
  (loadable json_data
   ∧ ∃ stats w' db,
       create json_data w = (Returns stats, w')
       ∧ files w' = <[path := SqliteFile db]> (delete path (files w))
       ∧ select_counts true db = Returns (stats, db)
       ∧ db_ok db
       ∧ db_grows new_database db (module_contents json_data)
       ∧ ∀ P : database → Prop,
           (∀ s fk db db', plain s →
                           dml_statement s fk db = Returns db' →
                           P db → P db') →
           P new_database → P db)
  ∨ (¬ loadable json_data
     ∧ ∃ w', create json_data w = (Raises IntegrityError, w')
             ∧ files w'
               = <[path := SqliteFile new_database]>
                   (delete path (files w))).
Proof.
  intros path. rewrite create_unfold. fold path.
  set (c2 := {| conn_path := path; conn_view := new_database;
                conn_foreign_keys := true; conn_closed := false |}).
  set (w2 := {| self := set_conn (Some c2) (self w); files := _ |}).
  assert (Hfiles2 : files w2
                    = <[path := SqliteFile new_database]>
                        (delete path (files w)))
    by apply insert_insert_eq.
  assert (Hready2 : ready w2).
  { exists c2. split; [done|]. split; [done|]. apply new_database_ok. }
  assert (Hloadable :
            fresh_names (read_back (view w2)) (module_contents json_data)
            ∧ distinct_bases (doc_classes json_data)
            ↔ loadable json_data).
  { change (read_back (view w2)) with no_contents.
    rewrite fresh_names_no_contents_l. unfold loadable. tauto. }
  pose proof (process_module_files json_data w2) as Hfiles3.
  unfold same_files in Hfiles3.
  assert (Hbody : ∀ A (k : method A),
            (populate_database json_data ;; k) w2
            = match process_module json_data w2 with
              | (Returns _, w3) => (commit ;; k) w3
              | (Raises e, w3) => (Raises e, w3)
              end).
  { intros A k. unfold bind at 1. unfold populate_database.
    rewrite (the_conn_then _ w2 Hready2). unfold bind.
    by destruct (process_module json_data w2) as [[[]|e] w3]. }
  unfold try_finally. rewrite Hbody.
  destruct (process_module_outcome json_data w2 Hready2)
    as [(Hfresh & HB & [] & w3 & Hproc & Hready3 & Hgrows & _)
       |(Hno & w3 & Hproc & Hready3)];
    rewrite Hproc in *; simpl in Hfiles3.
  - left. split; [by apply Hloadable|].
    destruct Hgrows as (Hgrows & _ & Hpath3 & Hdb_path3).
    pose proof (ready_db_ok w3 Hready3) as Hok3.
    destruct Hready3 as (c3 & Hc3 & Hopen3 & _).
    assert (Hview3 : view w3 = conn_view c3)
      by (unfold view; by rewrite Hc3).
    rewrite Hc3 in Hpath3. injection Hpath3 as Hpath3.
    unfold bind. rewrite (commit_ready w3 c3 Hc3 Hopen3).
    set (w4 := {| self := self w3; files := _ |}).
    destruct (print_statistics_ready w4 c3 Hc3 Hopen3)
      as (stats & w5 & -> & Hstats & Hfiles5 & Hconn5).
    { rewrite <- Hview3. apply Hok3. }
    { simpl. rewrite Hpath3, Hdb_path3. simpl. fold path.
      by rewrite lookup_insert_eq. }
    destruct (close_ready w5 Hconn5) as (w6 & -> & Hfiles6).
    exists stats, w6, (conn_view c3). split; [done|].
    split; [|split; [done|rewrite <- Hview3; split; [done|split; [done|]]]].
    { rewrite Hfiles6, Hfiles5. simpl. rewrite Hpath3, Hfiles3. simpl.
      fold path. by rewrite !insert_insert_eq. }
    intros P HP Hnew. pose proof (process_module_stays P HP json_data w2)
      as Hstays.
    rewrite Hproc in Hstays. by apply Hstays.
  - right. split; [by rewrite <- Hloadable|].
    assert (Hconn3 : is_Some (conn (self w3))).
    { destruct Hready3 as (c3 & -> & _). by eexists. }
    destruct (close_ready w3 Hconn3) as (w4 & -> & Hfiles4).
    exists w4. split; [done|]. rewrite Hfiles4, Hfiles3. simpl.
    fold path. by rewrite !insert_insert_eq.
Qed.

(** ** Counting *)

Lemma quadruple_eq (a b c d a' b' c' d' : Z) :
  a = a' → b = b' → c = c' → d = d' → (a, b, c, d) = (a', b', c', d').
Proof. by intros -> -> -> ->. Qed.

Ltac quadruple := apply quadruple_eq; lia.

Lemma counted_app a b : counted (contents_app a b) = add4 (counted a) (counted b).
Proof.
  unfold counted, add4. simpl.
  rewrite !filter_app, !length_app, !Nat2Z.inj_add. reflexivity.
Qed.

Lemma counted_each_functions module cls fs :
  counted (each_contents (function_contents module cls) fs)
  = match cls with
    | None => (0, Z.of_nat (length fs), 0, 0)
    | Some _ => (0, 0, Z.of_nat (length fs), 0)
    end.
Proof.
  induction fs as [|f fs IH]; [by destruct cls|].
  change (each_contents (function_contents module cls) (f :: fs))
    with (contents_app (function_contents module cls f)
            (each_contents (function_contents module cls) fs)).
  rewrite counted_app, IH. unfold add4, counted.
  destruct cls; simpl; quadruple.
Qed.

Lemma foldl_add_from a xs : foldl Z.add a xs = a + foldl Z.add 0 xs.
Proof.
  revert a. induction xs as [|x xs IH]; intros a; simpl; [lia|].
  rewrite (IH (a + x)), (IH (0 + x)). lia.
Qed.

Lemma py_sum_cons x xs : introspect.py_sum (x :: xs) = x + introspect.py_sum xs.
Proof.
  unfold introspect.py_sum. simpl. rewrite foldl_add_from. lia.
Qed.

Lemma counted_each_classes module cs :
  counted (each_contents (class_contents module) cs)
  = (Z.of_nat (length cs), 0,
     introspect.py_sum
       ((fun c => Z.of_nat (length (class_methods c))) <$> cs), 0).
Proof.
  induction cs as [|c cs IH]; [done|].
  change (each_contents (class_contents module) (c :: cs))
    with (contents_app (class_contents module c)
            (each_contents (class_contents module) cs)).
  rewrite counted_app, IH. unfold class_contents.
  rewrite counted_app, counted_each_functions, fmap_cons, py_sum_cons.
  unfold add4, counted. simpl. quadruple.
Qed.

(** [count_stats] counts what [module_contents] lists; it leaves the
    document's own module out of the submodules. *)
Lemma count_stats_counted module_data :
  add4 (introspect.count_stats module_data) (0, 0, 0, 1)
  = counted (module_contents module_data).
Proof.
  induction module_data as [name doc classes functions submodules IH]
    using ModuleData_ind.
  simpl.
  set (submodules_loop :=
         fix submodules_loop (ms : list ModuleData) (counts : Z * Z * Z * Z)
           := _).
  set (submodules_contents :=
         fix submodules_contents (ms : list ModuleData) := _).
  assert (Hsub : ∀ counts,
            submodules_loop submodules counts
            = add4 (add4 counts (counted (submodules_contents submodules)))
                   (0, 0, 0, - Z.of_nat (length submodules))).
  { clear -IH. induction IH as [|m ms Hm _ IHms]; intros [[[a b] c] d].
    - unfold add4. simpl. quadruple.
    - simpl submodules_loop. rewrite IHms. simpl submodules_contents.
      rewrite counted_app, <- Hm.
      destruct (introspect.count_stats m) as [[[a' b'] c'] d'].
      destruct (counted (submodules_contents ms)) as [[[a2 b2] c2] d2].
      unfold add4. simpl. quadruple. }
  rewrite Hsub, !counted_app, counted_each_classes,
    (counted_each_functions name None).
  destruct (counted (submodules_contents submodules)) as [[[a b] c] d].
  unfold add4, counted. simpl. quadruple.
Qed.

Lemma length_filter_fmap {X Y} (f : X → Y) (P : Y → Prop)
    `{∀ y, Decision (P y)} (Q : X → Prop) `{∀ x, Decision (Q x)} l :
  (∀ x, P (f x) ↔ Q x) →
  length (filter P (f <$> l)) = length (filter Q l).
Proof.
  intros HPQ. induction l as [|x l IH]; [done|].
  rewrite fmap_cons, !filter_cons.
  destruct (decide (P (f x))) as [HP|HP], (decide (Q x)) as [HQ|HQ];
    simpl; rewrite ?IH; try done; exfalso; specialize (HPQ x); tauto.
Qed.

Lemma select_counts_counted fk db stats db' :
  select_counts fk db = Returns (stats, db') →
  (classes_count stats, functions_count stats, methods_count stats,
   modules_count stats) = counted (read_back db)
  ∧ parameters_count stats = Z.of_nat (length (c_parameters (read_back db)))
  ∧ examples_count stats = Z.of_nat (length (examples db)).
Proof.
  unfold select_counts. destruct (negb (has_schema db)); [done|].
  intros [= <- <-]. unfold counted. simpl. rewrite !length_fmap.
  split; [|done].
  rewrite (length_filter_fmap (function_view_of db) _
             (fun r => fn_class_id r = None)),
    (length_filter_fmap (function_view_of db) _
       (fun r => fn_class_id r ≠ None)); [done|..].
  - intros r. simpl. by destruct (fn_class_id r).
  - intros r. simpl. by destruct (fn_class_id r).
Qed.

(** ** The loader, method by method *)

Lemma outcome_result {A} (m : method A) w e (B : Prop)
    (Q : A → world → Prop) :
  outcome m w e B Q →
  ((∃ a, (m w).1 = Returns a) ↔ fresh_names (read_back (view w)) e ∧ B)
  ∧ (∀ a, (m w).1 = Returns a →
          read_back (view (m w).2) = contents_app (read_back (view w)) e
          ∧ files (m w).2 = files w)
  ∧ (∀ ex, (m w).1 = Raises ex → ex = IntegrityError).
Proof.
  intros [(Hfresh & HB & a & w' & -> & _ & Hgrows & _)|(Hno & w' & -> & _)];
    simpl.
  - split; [split; [done|by exists a]|]. split; [|done].
    intros _ _. split; [by eapply grows_read_back|apply Hgrows].
  - split; [split; [by intros [? ?]|done]|]. split; [done|].
    by intros ex [= <-].
Qed.

Lemma schema_created_ready db_path : ready (schema_created db_path).
Proof.
  eexists. split; [reflexivity|]. split; [reflexivity|].
  apply new_database_ok.
Qed.

Lemma function_names_each_functions module cls fs :
  function_names (each_contents (function_contents module cls) fs)
  = func_qualified_name <$> fs.
Proof.
  unfold function_names. induction fs as [|f fs IH]; [done|].
  simpl. f_equal. exact IH.
Qed.

Lemma fresh_names_function_contents db module cls f :
  fresh_names (read_back db) (function_contents module cls f)
  ↔ func_qualified_name f ∉ fn_full_qualified_name <$> functions db.
Proof. apply (fresh_names_only_functions db). Qed.

Lemma names_contents_app a b :
  module_names (contents_app a b) = module_names a ++ module_names b
  ∧ class_names (contents_app a b) = class_names a ++ class_names b
  ∧ function_names (contents_app a b)
    = function_names a ++ function_names b.
Proof.
  unfold module_names, class_names, function_names. simpl.
  by rewrite !fmap_app.
Qed.

Lemma names_each_functions module cls fs :
  module_names (each_contents (function_contents module cls) fs) = []
  ∧ class_names (each_contents (function_contents module cls) fs) = [].
Proof.
  unfold module_names, class_names.
  induction fs as [|f fs [IHm IHc]]; [done|]. simpl. by split.
Qed.

Lemma fresh_names_class_contents db module c :
  fresh_names (read_back db) (class_contents module c)
  ↔ (class_qualified_name c ∉ cls_full_qualified_name <$> classes db)
    ∧ fresh (fn_full_qualified_name <$> functions db)
            (func_qualified_name <$> class_methods c).
Proof.
  unfold fresh_names, class_contents.
  rewrite module_names_read_back, class_names_read_back,
    function_names_read_back.
  destruct (names_contents_app
              {| c_modules := [];
                 c_classes :=
                   [{| cv_name := class_name c;
                       cv_qualified_name := class_qualified_name c;
                       cv_docstring := class_docstring c;
                       cv_module := Some module |}];
                 c_inheritance :=
                   (fun base =>
                      {| iv_class := Some (class_qualified_name c);
                         iv_base := base |}) <$> class_bases c;
                 c_functions := []; c_parameters := [] |}
              (each_contents
                 (function_contents module (Some (class_qualified_name c)))
                 (class_methods c))) as (-> & -> & ->).
  destruct (names_each_functions module (Some (class_qualified_name c))
              (class_methods c)) as [-> ->].
  rewrite function_names_each_functions.
  change (fresh (mod_name <$> modules db) []
          ∧ fresh (cls_full_qualified_name <$> classes db)
                  [class_qualified_name c]
          ∧ fresh (fn_full_qualified_name <$> functions db)
                  (func_qualified_name <$> class_methods c)
          ↔ (class_qualified_name c
               ∉ cls_full_qualified_name <$> classes db)
            ∧ fresh (fn_full_qualified_name <$> functions db)
                    (func_qualified_name <$> class_methods c)).
  rewrite fresh_singleton.
  pose proof (fresh_nil (mod_name <$> modules db)). tauto.
Qed.


(** X7.  When [create] returns, the database at the path reads back as
    the document: each module, class, base, function, method and
    parameter of the document is one row, in the document's order, and
    every foreign key leads to the row of the enclosing module, class or
    function; there is no example. *)
Theorem create_round_trip json_data w stats :
  (create json_data w).1 = Returns stats →
  ∃ db,
    files (create json_data w).2 !! db_path (self w) = Some (SqliteFile db)
    ∧ read_back db = module_contents json_data
    ∧ examples db = [].
Proof.
  destruct (create_outcome json_data w)
    as [(Hload & stats' & w' & db & -> & Hfiles & _ & _ & Hgrows & _)
       |(Hno & w' & -> & _)]; simpl; [|done].
  intros _. exists db. rewrite Hfiles, lookup_insert_eq.
  destruct Hgrows as (Hread & _ & _ & _ & Hex).
  split; [done|]. split; [|done].
  rewrite Hread. apply contents_app_nil_l.
Qed.

Lemma create_round_trip_witness :
  ∃ db,
    files (create scenario_A (connected "api.db")).2 !! "api.db"
    = Some (SqliteFile db)
    ∧ read_back db = module_contents scenario_A
    ∧ examples db = [].
Proof.
  eapply (create_round_trip scenario_A (connected "api.db")).
  vm_compute. reflexivity.
Defined.

(** X8.  The numbers that [create] prints are the numbers that
    [introspect.py] printed for the same document: as many classes,
    functions and methods as [count_stats] counts, and one module more
    than it counts submodules; the examples are none. *)
Theorem create_statistics_count_stats json_data w stats :
  (create json_data w).1 = Returns stats →
  let '(classes, functions, methods, submodules) :=
    introspect.count_stats json_data in
  classes_count stats = classes
  ∧ functions_count stats = functions
  ∧ methods_count stats = methods
  ∧ modules_count stats = submodules + 1
  ∧ examples_count stats = 0.
Proof.
  destruct (create_outcome json_data w)
    as [(Hload & stats' & w' & db & -> & _ & Hstats & _ & Hgrows & _)
       |(Hno & w' & -> & _)]; simpl; [|done].
  intros [= <-].
  apply select_counts_counted in Hstats as (Hcounted & _ & Hex).
  destruct Hgrows as (Hread & _ & _ & _ & Hnone).
  rewrite Hread in Hcounted.
  change (read_back new_database) with no_contents in Hcounted.
  rewrite contents_app_nil_l, <- count_stats_counted in Hcounted.
  rewrite Hnone in Hex.
  destruct (introspect.count_stats json_data) as [[[a b] c] d].
  unfold add4 in Hcounted. simpl in Hcounted.
  injection Hcounted as -> -> -> ->. repeat split; try lia. exact Hex.
Qed.

Lemma create_statistics_count_stats_witness :
  ∃ stats,
    (create scenario_A (connected "api.db")).1 = Returns stats
    ∧ classes_count stats = 1 ∧ functions_count stats = 1
    ∧ methods_count stats = 0 ∧ modules_count stats = 1.
Proof.
  assert (Hret : (create scenario_A (connected "api.db")).1
                 = Returns {| modules_count := 1; classes_count := 1;
                              functions_count := 1; methods_count := 0;
                              parameters_count := 2; examples_count := 0 |})
    by (vm_compute; reflexivity).
  eexists. split; [exact Hret|].
  pose proof (create_statistics_count_stats _ _ _ Hret) as Hstats.
  vm_compute in Hstats. vm_compute. tauto.
Defined.


(** X10.  On an open connection with the schema, [insert_module] of a
    name that is not in [modules] adds one row with the name and the
    docstring, under a rowid that is positive and new, returns the
    rowid and records it in [module_ids]; of a name that is there, it
    raises [IntegrityError] and changes nothing. *)
Theorem insert_module_returns_rowid module_data w c :
  conn (self w) = Some c → conn_closed c = false →
  has_schema (conn_view c) = true →
  let name := module_name module_data in
  (name ∉ mod_name <$> modules (view w) →
     ∃ module_id w',
       insert_module module_data w = (Returns module_id, w')
       ∧ 0 < module_id
       ∧ (module_id ∉ mod_id <$> modules (view w))
       ∧ modules (view w')
         = modules (view w)
             ++ [{| mod_id := module_id; mod_name := name;
                    mod_docstring := module_docstring module_data |}]
       ∧ module_ids (self w') !! name = Some module_id)
  ∧ (name ∈ mod_name <$> modules (view w) →
     insert_module module_data w = (Raises IntegrityError, w)).
Proof.
  intros Hc Hopen Hschema name.
  assert (Hview : view w = conn_view c) by (unfold view; by rewrite Hc).
  rewrite Hview.
  unfold insert_module, execute, bind, the_conn, insert_into_modules.
  repeat (first [rewrite Hc|rewrite Hopen|rewrite Hschema]; simpl).
  fold name. split; intros Hname.
  - rewrite bool_decide_eq_false_2 by done. simpl.
    eexists _, _. split; [reflexivity|]. simpl.
    split; [|split; [apply autoincrement_new|split; [done|]]].
    + unfold autoincrement.
      assert (0 ≤ max_rowid (mod_id <$> modules (conn_view c))).
      { unfold max_rowid. induction (mod_id <$> modules (conn_view c));
          simpl; lia. }
      lia.
    + apply lookup_insert_eq.
  - by rewrite bool_decide_eq_true_2.
Qed.

Lemma insert_module_returns_rowid_witness :
  ∃ w', insert_module (module_only "test_module")
          (schema_created "test.db") = (Returns 1, w')
        ∧ module_ids (self w') !! "test_module" = Some 1.
Proof.
  assert (Hconn : conn (self (schema_created "test.db"))
                  = Some {| conn_path := "test.db";
                            conn_view := new_database;
                            conn_foreign_keys := true;
                            conn_closed := false |})
    by (vm_compute; reflexivity).
  destruct (insert_module_returns_rowid (module_only "test_module")
              (schema_created "test.db") _ Hconn eq_refl eq_refl)
    as [Hnew _].
  destruct Hnew as (module_id & w' & Hret & _ & _ & _ & Hids).
  { vm_compute. by intros ?%elem_of_nil. }
  exists w'. vm_compute in Hret. injection Hret as <- <-.
  split; [vm_compute; reflexivity|exact Hids].
Defined.

(** X11.  On a database whose foreign keys resolve, [insert_class] under
    an existing module returns exactly when the qualified name of the
    class is new, the qualified names of its methods are new and
    distinct, and no base is listed twice; then the class, its bases
    and its methods with their parameters are the rows added.
    Otherwise it raises [IntegrityError]. *)
Theorem insert_class_adds_rows class_data module_id mname w :
  ready w → module_name_of (view w) module_id = Some mname →
  let result := insert_class class_data module_id w in
  (result.1 = Returns tt
   ↔ (class_qualified_name class_data
        ∉ cls_full_qualified_name <$> classes (view w))
     ∧ fresh (fn_full_qualified_name <$> functions (view w))
             (func_qualified_name <$> class_methods class_data)
     ∧ NoDup (class_bases class_data))
  ∧ (result.1 = Returns tt →
     read_back (view result.2)
     = contents_app (read_back (view w)) (class_contents mname class_data))
  ∧ (∀ e, result.1 = Raises e → e = IntegrityError).
Proof.
  intros Hready Hmod result.
  destruct (outcome_result _ _ _ _ _
              (insert_class_outcome class_data module_id mname w
                 Hready Hmod)) as (Hiff & Hrows & Hraise).
  fold result in Hiff, Hrows, Hraise.
  rewrite fresh_names_class_contents in Hiff.
  split; [|split; [|done]].
  - destruct Hiff as [Hthen Hback]. split.
    + intros Hret. by destruct (Hthen (ex_intro _ tt Hret)) as [[? ?] ?].
    + intros (? & ? & ?). by destruct Hback as [[] ?].
  - intros Hret. by apply (Hrows tt).
Qed.

Lemma insert_class_adds_rows_witness :
  let w := (insert_module (module_only "m") (schema_created "test.db")).2 in
  (insert_class (class_C ["object"; "object"]) 1 w).1
  = Raises IntegrityError.
Proof.
  intros w.
  assert (Hready : ready w).
  { eexists. split; [reflexivity|]. split; [reflexivity|].
    split; [reflexivity|]. repeat split; constructor. }
  assert (Hmod : module_name_of (view w) 1 = Some "m")
    by (vm_compute; reflexivity).
  destruct (insert_class_adds_rows (class_C ["object"; "object"]) 1 "m" w
              Hready Hmod) as (Hiff & _ & Hraise).
  destruct (insert_class (class_C ["object"; "object"]) 1 w).1
    as [[]|e] eqn:Hresult.
  - destruct (proj1 Hiff eq_refl) as (_ & _ & Hdup). exfalso.
    apply NoDup_cons in Hdup as [Hin _]. apply Hin. by left.
  - by rewrite (Hraise e eq_refl).
Defined.

(** X12.  On a database whose foreign keys resolve, [insert_function]
    under an existing module (and class, if one is given) returns
    exactly when the qualified name is not in [functions]; the rows
    added are then the function's and one per parameter, numbered from
    0 in the order of the document.  Otherwise it raises
    [IntegrityError]. *)
Theorem insert_function_adds_rows func_data module_id class_id mname cls w :
  ready w → module_name_of (view w) module_id = Some mname →
  class_name_of (view w) <$> class_id = Some <$> cls →
  let result := insert_function func_data module_id class_id w in
  (result.1 = Returns tt
   ↔ func_qualified_name func_data
       ∉ fn_full_qualified_name <$> functions (view w))
  ∧ (result.1 = Returns tt →
     read_back (view result.2)
     = contents_app (read_back (view w))
                    (function_contents mname cls func_data))
  ∧ (∀ e, result.1 = Raises e → e = IntegrityError).
Proof.
  intros Hready Hmod Hcls result.
  destruct (outcome_result _ _ _ _ _
              (insert_function_outcome func_data module_id class_id mname
                 cls w Hready Hmod Hcls)) as (Hiff & Hrows & Hraise).
  fold result in Hiff, Hrows, Hraise.
  rewrite fresh_names_function_contents in Hiff.
  split; [|split; [|done]].
  - destruct Hiff as [Hthen Hback]. split.
    + intros Hret. by destruct (Hthen (ex_intro _ tt Hret)) as [? _].
    + intros ?. by destruct Hback as [[] ?].
  - intros Hret. by apply (Hrows tt).
Qed.

Lemma insert_function_adds_rows_witness :
  let w := (insert_module (module_only "m") (schema_created "test.db")).2 in
  c_parameters (read_back (view (insert_function function_f 1 None w).2))
  = [ {| pv_function := Some "m.f"; pv_name := "x";
         pv_kind := "POSITIONAL_OR_KEYWORD"; pv_annotation := Some "int";
         pv_default_value := None; pv_position := 0 |};
      {| pv_function := Some "m.f"; pv_name := "y";
         pv_kind := "POSITIONAL_OR_KEYWORD"; pv_annotation := Some "int";
         pv_default_value := Some "5"; pv_position := 1 |} ].
Proof.
  intros w.
  assert (Hready : ready w).
  { eexists. split; [reflexivity|]. split; [reflexivity|].
    split; [reflexivity|]. repeat split; constructor. }
  assert (Hmod : module_name_of (view w) 1 = Some "m")
    by (vm_compute; reflexivity).
  destruct (insert_function_adds_rows function_f 1 None "m" None w
              Hready Hmod eq_refl) as (_ & Hrows & _).
  rewrite Hrows; [vm_compute; reflexivity|]. vm_compute. reflexivity.
Defined.

Lemma module_name_in_contents module_data :
  module_name module_data ∈ module_names (module_contents module_data).
Proof. destruct module_data. by left. Qed.

Lemma populate_database_ready data w :
  ready w →
  populate_database data w
  = match process_module data w with
    | (Returns _, w1) => commit w1
    | (Raises e, w1) => (Raises e, w1)
    end.
Proof.
  intros Hready. unfold populate_database.
  rewrite (the_conn_then _ w Hready). unfold bind.
  by destruct (process_module data w) as [[[]|e] w1].
Qed.

(** X13.  [populate_database] cannot load the same document twice
    through one connection: after a call that returned, a second call
    with the same document raises [IntegrityError]. *)
Theorem populate_database_twice data w :
  ready w → (populate_database data w).1 = Returns tt →
  (populate_database data (populate_database data w).2).1
  = Raises IntegrityError.
Proof.
  intros Hready. rewrite (populate_database_ready data w Hready).
  destruct (process_module_outcome data w Hready)
    as [(_ & _ & [] & w1 & -> & Hready1 & Hgrows & _)
       |(_ & w1 & -> & _)]; [|done].
  pose proof (grows_read_back _ _ _ Hgrows) as Hread.
  pose proof Hready1 as (c1 & Hc1 & Hopen1 & Hok1).
  rewrite (commit_ready w1 c1 Hc1 Hopen1). simpl. intros _.
  set (w2 := {| self := self w1; files := _ |}).
  assert (Hready2 : ready w2) by (by exists c1).
  rewrite (populate_database_ready data w2 Hready2).
  destruct (process_module_outcome data w2 Hready2)
    as [(Hfresh & _)|(_ & w3 & -> & _)]; [|done].
  exfalso. change (view w2) with (view w1) in Hfresh.
  destruct Hfresh as ((_ & Hnew) & _). rewrite Hread in Hnew.
  pose proof (module_name_in_contents data) as Hin.
  rewrite Forall_forall in Hnew. apply (Hnew _ Hin).
  unfold module_names. simpl. rewrite fmap_app, elem_of_app. by right.
Qed.

Lemma populate_database_twice_witness :
  let w := schema_created "test.db" in
  (populate_database scenario_A (populate_database scenario_A w).2).1
  = Raises IntegrityError.
Proof.
  intros w.
  apply (populate_database_twice scenario_A w);
    [apply schema_created_ready|vm_compute; reflexivity].
Defined.
End loader_properties.

(** * The coverage report *)

Module coverage_properties.
Import create_database readback loader_steps loader_properties.
Import verify_coverage.
Local Open Scope Z_scope.

(** ** Counting by group *)

Lemma occurrences_cons id x ids :
  occurrences id (x :: ids)
  = occurrences id ids + (if decide (x = id) then 1 else 0).
Proof.
  unfold occurrences. rewrite filter_cons.
  destruct (decide (x = id)); simpl; lia.
Qed.

Lemma occurrences_none id ids : id ∉ ids → occurrences id ids = 0.
Proof.
  intros Hid. unfold occurrences.
  induction ids as [|x ids IH]; [done|]. rewrite filter_cons.
  destruct (decide (x = id)) as [->|_].
  - exfalso. apply Hid. by left.
  - apply IH. intros Hin. apply Hid. by right.
Qed.

Lemma total_cons x values : total (x :: values) = x + total values.
Proof. reflexivity. Qed.

Lemma total_hits x (k : list Z) :
  NoDup k →
  total ((fun id => if decide (x = id) then 1 else 0) <$> k)
  = if decide (x ∈ k) then 1 else 0.
Proof.
  induction 1 as [|y k Hy Hk IH]; [done|].
  rewrite fmap_cons, total_cons, IH.
  destruct (decide (x = y)) as [->|Hne].
  - rewrite decide_False by done. rewrite decide_True by left. lia.
  - destruct (decide (x ∈ k)) as [Hin|Hin].
    + rewrite decide_True by (by right). lia.
    + rewrite decide_False; [lia|]. by intros [?|?]%elem_of_cons.
Qed.

Lemma total_occurrences_cons x ids (k : list Z) :
  total ((fun id => occurrences id (x :: ids)) <$> k)
  = total ((fun id => occurrences id ids) <$> k)
    + total ((fun id => if decide (x = id) then 1 else 0) <$> k).
Proof.
  induction k as [|y k IH]; [done|].
  rewrite !fmap_cons, !total_cons, IH, occurrences_cons. lia.
Qed.

(** The sizes of the groups of [GROUP BY] add up to the number of
    rows. *)
Lemma total_group_counts ids :
  total ((fun id => occurrences id ids) <$> remove_dups ids)
  = Z.of_nat (length ids).
Proof.
  induction ids as [|x ids IH]; [done|]. simpl remove_dups.
  pose proof (total_hits x (remove_dups ids) (NoDup_remove_dups ids))
    as Hhits.
  destruct (decide_rel elem_of x ids) as [Hin|Hin].
  - rewrite total_occurrences_cons, IH, Hhits.
    rewrite decide_True by (by apply elem_of_remove_dups).
    simpl length. lia.
  - rewrite fmap_cons, total_cons.
    rewrite total_occurrences_cons, IH, Hhits.
    rewrite decide_False by (by rewrite elem_of_remove_dups).
    rewrite occurrences_cons, occurrences_none by done.
    rewrite decide_True by done. simpl length. lia.
Qed.

Lemma length_remove_dups_le (ids : list Z) :
  (length (remove_dups ids) ≤ length ids)%nat.
Proof.
  apply submseteq_length, NoDup_submseteq; [apply NoDup_remove_dups|].
  intros x. by rewrite elem_of_remove_dups.
Qed.

Lemma length_omap_filter {X} (col : X → option Z) (rows : list X) :
  length (omap col rows) = length (filter (fun r => col r ≠ None) rows).
Proof.
  induction rows as [|r rows IH]; [done|]. rewrite filter_cons.
  change (omap col (r :: rows))
    with (match col r with
          | Some id => id :: omap col rows
          | None => omap col rows
          end).
  destruct (decide (col r ≠ None)) as [Hsome|Hnone];
    destruct (col r) as [id|]; simpl; rewrite ?IH; try done.
  exfalso. by apply Hnone.
Qed.


(** ** [verify_coverage] *)

Lemma verify_coverage_on_file db_path files db :
  files !! db_path = Some (SqliteFile db) →
  verify_coverage db_path files
  = match select_coverage false db with
    | Raises e => (Raises e, files)
    | Returns (stats, _) => (Returns stats, files)
    end.
Proof.
  intros Hfile. unfold verify_coverage, sqlite3_connect. by rewrite Hfile.
Qed.

(** The average over the groups of one column. *)
Lemma average_of_groups (col : examples_row → option Z) db :
  let covered := count_distinct col db in
  let linked :=
    Z.of_nat (length (filter (fun r => col r ≠ None) (examples db))) in
  let average := if bool_decide (covered > 0)
                 then sql_avg (example_counts col db) else Zero in
  (covered = 0 ∧ linked = 0 ∧ average = Zero)
  ∨ (0 < covered ≤ linked ∧ average = Quotient linked covered).
Proof.
  intros covered linked average. subst covered linked average.
  unfold count_distinct, example_counts.
  rewrite <- length_omap_filter.
  set (ids := omap col (examples db)).
  pose proof (length_remove_dups_le ids) as Hle.
  pose proof (total_group_counts ids) as Htotal.
  destruct (remove_dups ids) as [|id k] eqn:Hk.
  - left. split; [done|]. split; [|done].
    destruct ids as [|x ids']; [done|]. exfalso.
    assert (x ∈ remove_dups (x :: ids')) as Hx
      by (apply elem_of_remove_dups; left).
    rewrite Hk in Hx. by apply elem_of_nil in Hx.
  - right. rewrite bool_decide_eq_true_2 by (simpl; lia).
    split; [simpl in *; lia|]. unfold sql_avg.
    rewrite fmap_cons in *. rewrite Htotal. simpl length.
    by rewrite length_fmap.
Qed.

(** X14.  For the functions, and in the same way for the classes:
    when no example is linked to one, [verify_coverage] reports the
    average as the int 0; otherwise the average is the number of linked
    examples over the number of covered functions, which is at least 1
    and never [NULL]. *)
Theorem verify_coverage_averages db_path files db stats files' :
  files !! db_path = Some (SqliteFile db) →
  verify_coverage db_path files = (Returns stats, files') →
  let linked (col : examples_row → option Z) :=
    Z.of_nat (length (filter (fun r => col r ≠ None) (examples db))) in
  ((functions_covered stats = 0 ∧ linked ex_function_id = 0
    ∧ avg_examples_per_function stats = Zero)
   ∨ (0 < functions_covered stats ≤ linked ex_function_id
      ∧ avg_examples_per_function stats
        = Quotient (linked ex_function_id) (functions_covered stats)))
  ∧ ((classes_covered stats = 0 ∧ linked ex_class_id = 0
      ∧ avg_examples_per_class stats = Zero)
     ∨ (0 < classes_covered stats ≤ linked ex_class_id
        ∧ avg_examples_per_class stats
          = Quotient (linked ex_class_id) (classes_covered stats))).
Proof.
  intros Hfile. rewrite (verify_coverage_on_file _ _ _ Hfile).
  unfold select_coverage. destruct (negb (has_schema db)); [done|].
  intros [= <- _]. simpl. split.
  - apply (average_of_groups ex_function_id).
  - apply (average_of_groups ex_class_id).
Qed.

Lemma verify_coverage_averages_witness :
  ∃ stats,
    (verify_coverage "api.db" {[ "api.db" := SqliteFile documented ]}).1
    = Returns stats
    ∧ avg_examples_per_function stats = Zero
    ∧ avg_examples_per_class stats = Quotient 2 1.
Proof.
  set (files := {[ "api.db" := SqliteFile documented ]}).
  assert (Hfile : files !! "api.db" = Some (SqliteFile documented))
    by (by vm_compute).
  assert (Hret : verify_coverage "api.db" files
                 = (Returns {| total_examples := 3; total_functions := 0;
                               total_classes := 2; functions_covered := 0;
                               classes_covered := 1; orphaned_examples := 1;
                               avg_examples_per_function := Zero;
                               avg_examples_per_class := Quotient 2 1 |},
                    files))
    by (by vm_compute).
  destruct (verify_coverage_averages _ _ _ _ _ Hfile Hret)
    as [_ [(Hnone & _)|(_ & Havg)]]; [done|].
  eexists. rewrite Hret. split; [reflexivity|]. split; [done|exact Havg].
Defined.



(** X16.  On the database that [create] has just written,
    [verify_coverage] finds the functions and methods and the classes
    that [create] counted, and no example: nothing is covered, nothing
    is orphaned, and both averages are the int 0. *)
Theorem verify_coverage_after_create json_data w statistics :
  (create json_data w).1 = Returns statistics →
  verify_coverage (db_path (self w)) (files (create json_data w).2)
  = (Returns {| total_examples := 0;
                total_functions :=
                  functions_count statistics + methods_count statistics;
                total_classes := classes_count statistics;
                functions_covered := 0; classes_covered := 0;
                orphaned_examples := 0;
                avg_examples_per_function := Zero;
                avg_examples_per_class := Zero |},
     files (create json_data w).2).
Proof.
  destruct (create_outcome json_data w)
    as [(Hload & stats' & w' & db & -> & Hfiles & Hstats & Hok & Hgrows & _)
       |(Hno & w' & -> & _)]; simpl; [|done].
  intros [= <-].
  rewrite (verify_coverage_on_file _ _ db)
    by (by rewrite Hfiles, lookup_insert_eq).
  destruct Hok as [Hschema _]. destruct Hgrows as (_ & _ & _ & _ & Hex).
  unfold select_counts in Hstats. unfold select_coverage, count_distinct.
  rewrite Hschema in *. simpl in *. injection Hstats as <-.
  rewrite Hex. simpl. do 3 f_equal.
  rewrite <- Nat2Z.inj_add, <- length_app. f_equal.
  by rewrite (filter_app_complement (fun r => fn_class_id r = None)).
Qed.

Lemma verify_coverage_after_create_witness :
  let w := connected "api.db" in
  (verify_coverage "api.db" (files (create scenario_A w).2)).1
  = Returns {| total_examples := 0; total_functions := 1;
               total_classes := 1; functions_covered := 0;
               classes_covered := 0; orphaned_examples := 0;
               avg_examples_per_function := Zero;
               avg_examples_per_class := Zero |}.
Proof.
  intros w.
  assert (Hret : (create scenario_A w).1
                 = Returns {| modules_count := 1; classes_count := 1;
                              functions_count := 1; methods_count := 0;
                              parameters_count := 2; examples_count := 0 |})
    by (by vm_compute).
  change "api.db" with (db_path (self w)) at 1.
  by rewrite (verify_coverage_after_create scenario_A w _ Hret).
Defined.
End coverage_properties.

(** * From the document to the group files *)

Module pipeline_properties.
Import create_database divide_entities divide_entities_properties.
Import divide_entities_export readback loader_steps loader_properties.
Local Open Scope Z_scope.

Section pipeline.
Context {random : PyRandom}.

End pipeline.

End pipeline_properties.

(** * Running [create] again *)

Module create_again_properties.
Import create_database create_database_properties readback loader_steps.
Import loader_properties.
Local Open Scope Z_scope.
Local Open Scope method_scope.

Lemma blind_ret {A} (a : A) : blind (ret a).
Proof. by intros w1 w2 H. Qed.

Lemma blind_bind {A B} (m : method A) (k : A → method B) :
  blind m → (∀ a, blind (k a)) → blind (bind m k).
Proof.
  intros Hm Hk w1 w2 H. unfold bind. destruct (Hm w1 w2 H) as [Hr Hw].
  destruct (m w1) as [[a|e] w1'], (m w2) as [[a'|e'] w2'];
    simpl in *; try done.
  - injection Hr as <-. by apply Hk.
  - by injection Hr as <-.
Qed.

Lemma blind_for_each {X} (xs : list X) (body : X → method unit) :
  (∀ x, blind (body x)) → blind (for_each xs body).
Proof.
  intros Hbody. induction xs as [|x xs IH]; simpl.
  - apply blind_ret.
  - apply blind_bind; [apply Hbody|]. intros _. apply IH.
Qed.

Lemma blind_try_finally {A} (body : method A) (handler : method unit) :
  blind body → blind handler → blind (try_finally body handler).
Proof.
  intros Hbody Hhandler w1 w2 H. unfold try_finally.
  destruct (Hbody w1 w2 H) as [Hr Hw].
  destruct (body w1) as [r1 w1'], (body w2) as [r2 w2']. simpl in *.
  destruct (Hhandler w1' w2' Hw) as [Hr' Hw'].
  destruct (handler w1') as [[[]|e1] w1''], (handler w2') as [[[]|e2] w2''];
    simpl in *; try done.
  by injection Hr' as ->.
Qed.

Ltac same_result :=
  simpl; split; [done|]; repeat split; simpl; congruence.

Lemma blind_the_conn : blind the_conn.
Proof.
  intros w1 w2 (Hconn & Hpath & Hfiles). unfold the_conn. rewrite Hconn.
  destruct (conn (self w2)) as [c|] eqn:Hc; [destruct (conn_closed c)|];
    same_result.
Qed.

Lemma blind_execute {A} (stmt : statement A) : blind (execute stmt).
Proof.
  intros w1 w2 (Hconn & Hpath & Hfiles). unfold execute, bind, the_conn.
  rewrite Hconn.
  destruct (conn (self w2)) as [c|] eqn:Hc; [|same_result].
  destruct (conn_closed c); [same_result|].
  destruct (stmt (conn_foreign_keys c) (conn_view c)) as [[a db]|e];
    same_result.
Qed.

Lemma blind_commit : blind commit.
Proof.
  intros w1 w2 (Hconn & Hpath & Hfiles). unfold commit, bind, the_conn.
  rewrite Hconn.
  destruct (conn (self w2)) as [c|] eqn:Hc; [|same_result].
  destruct (conn_closed c); same_result.
Qed.

Lemma blind_close : blind close.
Proof.
  intros w1 w2 (Hconn & Hpath & Hfiles). unfold close. rewrite Hconn.
  destruct (conn (self w2)) as [c|] eqn:Hc; same_result.
Qed.

Lemma blind_remember_module_id name id : blind (remember_module_id name id).
Proof. intros w1 w2 (Hconn & Hpath & Hfiles). same_result. Qed.

Lemma blind_remember_class_id name id : blind (remember_class_id name id).
Proof. intros w1 w2 (Hconn & Hpath & Hfiles). same_result. Qed.

Lemma blind_insert_module module_data : blind (insert_module module_data).
Proof.
  unfold insert_module. apply blind_bind; [apply blind_the_conn|]. intros _.
  apply blind_bind; [apply blind_execute|]. intros module_id.
  apply blind_bind; [apply blind_remember_module_id|]. intros _.
  apply blind_ret.
Qed.

Lemma blind_insert_function func_data module_id class_id :
  blind (insert_function func_data module_id class_id).
Proof.
  unfold insert_function.
  apply blind_bind; [apply blind_the_conn|]. intros _.
  apply blind_bind; [apply blind_execute|]. intros function_id.
  apply blind_for_each. intros [position param_data].
  apply blind_bind; [apply blind_execute|]. intros _. apply blind_ret.
Qed.

Lemma blind_insert_class class_data module_id :
  blind (insert_class class_data module_id).
Proof.
  unfold insert_class. apply blind_bind; [apply blind_the_conn|]. intros _.
  apply blind_bind; [apply blind_execute|]. intros class_id.
  apply blind_bind; [apply blind_remember_class_id|]. intros _.
  apply blind_bind.
  - apply blind_for_each. intros base. apply blind_execute.
  - intros _. apply blind_for_each. intros f. apply blind_insert_function.
Qed.

Lemma blind_process_module module_data : blind (process_module module_data).
Proof.
  induction module_data as [name doc classes functions submodules IH]
    using ModuleData_ind.
  simpl. apply blind_bind; [apply blind_insert_module|]. intros module_id.
  apply blind_bind.
  { apply blind_for_each. intros c. apply blind_insert_class. }
  intros _. apply blind_bind.
  { apply blind_for_each. intros f. apply blind_insert_function. }
  intros _. induction IH as [|m ms Hm _ IHms].
  - apply blind_ret.
  - apply blind_bind; [exact Hm|]. intros _. exact IHms.
Qed.

Lemma blind_populate_database data : blind (populate_database data).
Proof.
  unfold populate_database.
  apply blind_bind; [apply blind_the_conn|]. intros _.
  apply blind_bind; [apply blind_process_module|]. intros _.
  apply blind_commit.
Qed.

Lemma blind_print_statistics : blind print_statistics.
Proof.
  unfold print_statistics.
  apply blind_bind; [apply blind_the_conn|]. intros _.
  apply blind_bind; [apply blind_execute|]. intros stats.
  intros w1 w2 (Hconn & Hpath & Hfiles). rewrite Hpath, Hfiles.
  destruct (files w2 !! db_path (self w2)); same_result.
Qed.

(** X18.  A second run of [create] with the same document, by the same
    or another creator for the same path, on the files that the first
    run left: it returns or raises as the first run did, and leaves the
    files as it found them. *)
Theorem create_again json_data (first second : DatabaseCreator) files0 :
  db_path second = db_path first →
  let w1 := (create json_data {| self := first; files := files0 |}).2 in
  let again := create json_data {| self := second; files := files w1 |} in
  again.1 = (create json_data {| self := first; files := files0 |}).1
  ∧ files again.2 = files w1.
Proof.
  intros Hpath w1 again.
  assert (Hfiles1 : delete (db_path first) (files w1)
                    = delete (db_path first) files0).
  { subst w1.
    destruct (create_outcome json_data {| self := first; files := files0 |})
      as [(_ & stats & w' & db & -> & Hfiles & _)|(_ & w' & -> & Hfiles)];
      simpl; rewrite Hfiles; simpl;
      by rewrite delete_insert_eq, delete_delete_eq. }
  pose proof (create_unfold json_data {| self := first; files := files0 |})
    as Hfirst.
  pose proof (create_unfold json_data {| self := second; files := files w1 |})
    as Hsecond.
  simpl in Hfirst, Hsecond. rewrite Hpath, Hfiles1 in Hsecond.
  subst again. rewrite Hsecond. subst w1. rewrite Hfirst.
  set (body := try_finally _ _).
  assert (Hblind : blind body).
  { apply blind_try_finally; [|apply blind_close].
    apply blind_bind; [apply blind_populate_database|]. intros _.
    apply blind_print_statistics. }
  match goal with
  | |- (body ?a).1 = (body ?b).1 ∧ _ =>
      destruct (Hblind a b) as (Hr & _ & _ & Hf); [by split|]
  end.
  by rewrite Hr, Hf.
Qed.

Lemma create_again_witness :
  let first := __init__ "api.db" false in
  let second := __init__ "api.db" true in
  let w1 := (create scenario_A {| self := first; files := ∅ |}).2 in
  let again := create scenario_A {| self := second; files := files w1 |} in
  again.1 = (create scenario_A {| self := first; files := ∅ |}).1
  ∧ files again.2 = files w1.
Proof.
  intros first second.
  exact (create_again scenario_A first second ∅ eq_refl).
Defined.
End create_again_properties.

(** * From [introspect.py] to the database *)

Module to_dict_properties.
Import create_database create_database_properties readback loader_steps.
Import loader_properties introspect.
Local Open Scope Z_scope.

Lemma ModuleInfo_ind (P : ModuleInfo → Prop) :
  (∀ name docstring classes functions submodules,
     Forall P submodules →
     P (mkModuleInfo name docstring classes functions submodules)) →
  ∀ m, P m.
Proof.
  intros Hstep. fix IH 1. intros [name docstring classes functions submodules].
  apply Hstep. induction submodules as [|m ms IHms]; constructor.
  - apply IH.
  - apply IHms.
Qed.

Lemma truthy_flag_key_if_true flag :
  truthy_flag (key_if_true flag) = Z.b2z flag.
Proof. by destruct flag. Qed.

Lemma key_if_truthy_not_empty value : key_if_truthy value ≠ Some "".
Proof.
  destruct value as [s|]; [|done]. simpl.
  destruct (decide (s = "")); [done|]. by intros [= ->].
Qed.

(** The rows of a function that went through [to_dict]. *)
Lemma function_contents_to_dict module cls (f : FunctionInfo) :
  function_contents module cls (FunctionInfo_to_dict f)
  = {| c_modules := []; c_classes := []; c_inheritance := [];
       c_functions :=
         [{| fv_name := fi_name f;
             fv_qualified_name := fi_qualified_name f;
             fv_signature_string := fi_signature_string f;
             fv_docstring := fi_docstring f;
             fv_return_annotation := key_if_truthy (fi_return_annotation f);
             fv_is_async := Z.b2z (fi_is_async f);
             fv_is_classmethod := Z.b2z (fi_is_classmethod f);
             fv_is_staticmethod := Z.b2z (fi_is_staticmethod f);
             fv_class := Some <$> cls;
             fv_module := Some module |}];
       c_parameters :=
         imap (fun i p =>
                 {| pv_function := Some (fi_qualified_name f);
                    pv_name := pi_name p; pv_kind := pi_kind p;
                    pv_annotation := key_if_truthy (pi_annotation p);
                    pv_default_value := pi_default p;
                    pv_position := Z.of_nat i |})
              (fi_parameters f) |}.
Proof.
  unfold function_contents. simpl. rewrite !truthy_flag_key_if_true.
  f_equal. unfold enumerate. by rewrite imap_fmap, fmap_imap.
Qed.

(** X19.  A [FunctionInfo] written by [to_dict] and read by
    [insert_function]: the row stored has the flags as 1 for [True]
    and 0 for [False], and the return annotation as [NULL] when it is
    [None] or the empty string; each parameter is stored at its index,
    with its annotation as [NULL] when [None] or empty and its default
    as it is. *)
Theorem insert_function_of_to_dict (f : FunctionInfo) module_id class_id
    mname cls w :
  ready w → module_name_of (view w) module_id = Some mname →
  class_name_of (view w) <$> class_id = Some <$> cls →
  fi_qualified_name f ∉ fn_full_qualified_name <$> functions (view w) →
  let result := insert_function (FunctionInfo_to_dict f) module_id class_id w in
  result.1 = Returns tt
  ∧ c_functions (read_back (view result.2))
    = c_functions (read_back (view w))
        ++ [{| fv_name := fi_name f;
               fv_qualified_name := fi_qualified_name f;
               fv_signature_string := fi_signature_string f;
               fv_docstring := fi_docstring f;
               fv_return_annotation :=
                 key_if_truthy (fi_return_annotation f);
               fv_is_async := Z.b2z (fi_is_async f);
               fv_is_classmethod := Z.b2z (fi_is_classmethod f);
               fv_is_staticmethod := Z.b2z (fi_is_staticmethod f);
               fv_class := Some <$> cls;
               fv_module := Some mname |}]
  ∧ c_parameters (read_back (view result.2))
    = c_parameters (read_back (view w))
        ++ imap (fun i p =>
                   {| pv_function := Some (fi_qualified_name f);
                      pv_name := pi_name p; pv_kind := pi_kind p;
                      pv_annotation := key_if_truthy (pi_annotation p);
                      pv_default_value := pi_default p;
                      pv_position := Z.of_nat i |})
                (fi_parameters f).
Proof.
  intros Hready Hmod Hcls Hnew result.
  destruct (outcome_result _ _ _ _ _
              (insert_function_outcome (FunctionInfo_to_dict f) module_id
                 class_id mname cls w Hready Hmod Hcls))
    as (Hiff & Hrows & _).
  fold result in Hiff, Hrows.
  destruct (proj2 Hiff) as [[] Hret].
  { split; [|done]. by apply fresh_names_function_contents. }
  destruct (Hrows tt Hret) as [Hread _].
  rewrite function_contents_to_dict in Hread.
  split; [done|]. by rewrite Hread.
Qed.

Lemma insert_function_of_to_dict_witness :
  let w := (insert_module (module_only "m") (schema_created "test.db")).2 in
  let f := {| fi_name := "f"; fi_qualified_name := "m.f";
              fi_signature_string := "(x='')"; fi_docstring := None;
              fi_parameters :=
                [{| pi_name := "x"; pi_kind := "POSITIONAL_OR_KEYWORD";
                    pi_annotation := Some ""; pi_default := Some "''" |}];
              fi_return_annotation := Some ""; fi_is_async := true;
              fi_is_classmethod := false; fi_is_staticmethod := false;
              fi_class_name := None; fi_module_name := Some "m" |} in
  c_parameters
    (read_back (view (insert_function (FunctionInfo_to_dict f) 1 None w).2))
  = [{| pv_function := Some "m.f"; pv_name := "x";
        pv_kind := "POSITIONAL_OR_KEYWORD"; pv_annotation := None;
        pv_default_value := Some "''"; pv_position := 0 |}].
Proof.
  intros w f.
  assert (Hready : ready w).
  { eexists. split; [reflexivity|]. split; [reflexivity|].
    split; [reflexivity|]. repeat split; constructor. }
  assert (Hmod : module_name_of (view w) 1 = Some "m") by (by vm_compute).
  destruct (insert_function_of_to_dict f 1 None "m" None w Hready Hmod
              eq_refl) as (_ & _ & Hparams).
  { vm_compute. by intros ?%elem_of_nil. }
  rewrite Hparams. by vm_compute.
Defined.

(** ** No empty annotation in the database *)

Lemma annotated_app a b :
  annotated (contents_app a b) ↔ annotated a ∧ annotated b.
Proof. unfold annotated. simpl. rewrite !Forall_app. tauto. Qed.

Lemma annotated_each {X} (one : X → contents) xs :
  Forall (fun x => annotated (one x)) xs → annotated (each_contents one xs).
Proof.
  induction 1 as [|x xs Hx _ IH]; [by split|].
  change (each_contents one (x :: xs))
    with (contents_app (one x) (each_contents one xs)).
  by apply annotated_app.
Qed.

Lemma annotated_function module cls f :
  annotated (function_contents module cls (FunctionInfo_to_dict f)).
Proof.
  rewrite function_contents_to_dict. split; simpl.
  - apply Forall_singleton. apply key_if_truthy_not_empty.
  - apply Forall_forall. intros p (i & x & -> & _)%elem_of_lookup_imap_1.
    apply key_if_truthy_not_empty.
Qed.

Lemma annotated_functions module cls fs :
  annotated (each_contents (function_contents module cls)
               (FunctionInfo_to_dict <$> fs)).
Proof.
  apply annotated_each, Forall_fmap, Forall_forall. intros f _.
  apply annotated_function.
Qed.

Lemma annotated_class module c :
  annotated (class_contents module (ClassInfo_to_dict c)).
Proof.
  unfold class_contents. apply annotated_app. split; [by split|].
  apply annotated_functions.
Qed.

Lemma annotated_module m : annotated (module_contents (ModuleInfo_to_dict m)).
Proof.
  induction m as [name doc classes functions submodules IH]
    using ModuleInfo_ind.
  simpl. apply annotated_app. split; [by split|].
  apply annotated_app. split.
  { apply annotated_each, Forall_fmap, Forall_forall. intros c _.
    apply annotated_class. }
  apply annotated_app. split; [apply annotated_functions|].
  induction IH as [|m ms Hm _ IHms]; [by split|].
  apply annotated_app. by split.
Qed.

(** X20.  A database that [create] builds from the document of
    [ModuleInfo.to_dict] holds no empty annotation: every
    [return_annotation] and every parameter [annotation] is [NULL] or a
    string that is not empty. *)
Theorem create_of_to_dict_annotations (m : ModuleInfo) w stats :
  (create (ModuleInfo_to_dict m) w).1 = Returns stats →
  ∃ db,
    files (create (ModuleInfo_to_dict m) w).2 !! db_path (self w)
    = Some (SqliteFile db)
    ∧ Forall (fun r => fn_return_annotation r ≠ Some "") (functions db)
    ∧ Forall (fun r => par_annotation r ≠ Some "") (parameters db).
Proof.
  destruct (create_outcome (ModuleInfo_to_dict m) w)
    as [(Hload & stats' & w' & db & -> & Hfiles & _ & _ & Hgrows & _)
       |(Hno & w' & -> & _)]; simpl; [|done].
  intros _. exists db. rewrite Hfiles, lookup_insert_eq. split; [done|].
  destruct Hgrows as (Hread & _).
  change (read_back new_database) with no_contents in Hread.
  rewrite contents_app_nil_l in Hread.
  destruct (annotated_module m) as [Hf Hp]. rewrite <- Hread in Hf, Hp.
  simpl in Hf, Hp. rewrite Forall_fmap in Hf. rewrite Forall_fmap in Hp.
  by split.
Qed.

Lemma create_of_to_dict_annotations_witness :
  let m := mkModuleInfo "m" None []
             [{| fi_name := "f"; fi_qualified_name := "m.f";
                 fi_signature_string := "(x)"; fi_docstring := None;
                 fi_parameters :=
                   [{| pi_name := "x"; pi_kind := "POSITIONAL_OR_KEYWORD";
                       pi_annotation := Some ""; pi_default := None |}];
                 fi_return_annotation := Some ""; fi_is_async := false;
                 fi_is_classmethod := false; fi_is_staticmethod := false;
                 fi_class_name := None; fi_module_name := Some "m" |}] [] in
  ∃ db,
    files (create (ModuleInfo_to_dict m) (connected "api.db")).2 !! "api.db"
    = Some (SqliteFile db)
    ∧ Forall (fun r => par_annotation r ≠ Some "") (parameters db).
Proof.
  intros m.
  assert (Hret : (create (ModuleInfo_to_dict m) (connected "api.db")).1
                 = Returns {| modules_count := 1; classes_count := 0;
                              functions_count := 1; methods_count := 0;
                              parameters_count := 1; examples_count := 0 |})
    by (by vm_compute).
  destruct (create_of_to_dict_annotations m (connected "api.db") _ Hret)
    as (db & Hfile & _ & Hparams).
  by exists db.
Defined.
End to_dict_properties.
